(** * Data Jar: the node tree, path resolver, expression evaluator,
      deep-set mutator and JSON codec of [src/App.tsx]

    The TypeScript source types a node's [value] as [any] and stores raw
    parsed JSON next to node arrays, so the embedding works on the values
    the program has at run time: one universe [JS] of JavaScript values,
    in which a [DataNode] is the object [{ id, name, type, value }].

    - a string is its sequence of code units; [ascii] covers the code units
      below 256;
    - a number is an IEEE 754 binary64 value, as in JavaScript;
    - an object is the list of its own properties in the order of their
      creation, which is the enumeration order but for integer-like keys
      (JavaScript enumerates those first); a JavaScript object has each key
      once.  A property of an object literal creates or overwrites an own
      data property.  The one assignment to a computed key, in
      [exportData], does so too, except for the key [__proto__], which on
      [{}] reaches the setter of [Object.prototype]: the object under
      construction carries whether that setter is still reached;
    - what the engine supplies and the repository does not define (printing
      of numbers, [Number(s)], running a [new Function] body, the identifiers
      [Math.random] yields, the text of an engine [TypeError]) is a
      [Variable] of the section. *)

From Stdlib Require Import String Ascii List ZArith Bool Arith Lia PrimFloat.
From Stdlib Require Import DecimalString Decimal.
Import ListNotations.

Set Warnings "-register-all".

Local Open Scope list_scope.
Local Open Scope string_scope.

(** ** JavaScript values *)

Inductive JS : Type :=
| JUndefined
| JNull
| JBool (b : bool)
| JNumber (n : float)
| JString (s : string)
| JArray (items : list JS)
| JObject (props : list (string * JS)).

(** Induction that reaches the elements of arrays and the values of
    properties. *)
Section JS_nested_ind.
Variable P : JS -> Prop.
Hypothesis Hundef : P JUndefined.
Hypothesis Hnull : P JNull.
Hypothesis Hbool : forall b, P (JBool b).
Hypothesis Hnum : forall n, P (JNumber n).
Hypothesis Hstr : forall s, P (JString s).
Hypothesis Harr : forall items, Forall P items -> P (JArray items).
Hypothesis Hobj : forall props, Forall (fun kv => P (snd kv)) props -> P (JObject props).

Fixpoint JS_nested_ind (v : JS) : P v :=
  match v with
  | JUndefined => Hundef
  | JNull => Hnull
  | JBool b => Hbool b
  | JNumber n => Hnum n
  | JString s => Hstr s
  | JArray items =>
      Harr items
        ((fix all (l : list JS) : Forall P l :=
            match l with
            | [] => Forall_nil P
            | x :: l' => Forall_cons x (JS_nested_ind x) (all l')
            end) items)
  | JObject props =>
      Hobj props
        ((fix all (l : list (string * JS)) : Forall (fun kv => P (snd kv)) l :=
            match l with
            | [] => Forall_nil _
            | kv :: l' => Forall_cons kv (JS_nested_ind (snd kv)) (all l')
            end) props)
  end.
End JS_nested_ind.

(** ** Exceptions

    All the program does with a caught exception is read [err.message]. *)

Inductive result (A : Type) : Type :=
| Ok (a : A)
| Throw (message : string).
Arguments Ok {A} a.
Arguments Throw {A} message.

Definition bind {A B} (c : result A) (k : A -> result B) : result B :=
  match c with
  | Ok a => k a
  | Throw m => Throw m
  end.

Declare Scope js_scope.
Delimit Scope js_scope with js.
Notation "x <- c ;; k" := (bind c (fun x => k))
  (at level 61, c at next level, right associativity) : js_scope.

(** Code that also draws identifiers threads the number of identifiers drawn
    so far. *)
Definition M (A : Type) : Type := nat -> result (A * nat).

Definition ret {A} (a : A) : M A := fun s => Ok (a, s).
Definition raise {A} (m : string) : M A := fun _ => Throw m.
Definition bindM {A B} (c : M A) (k : A -> M B) : M B :=
  fun s => match c s with
           | Ok (a, s') => k a s'
           | Throw m => Throw m
           end.

Declare Scope jsm_scope.
Delimit Scope jsm_scope with jsm.
Notation "x <~ c ;; k" := (bindM c (fun x => k))
  (at level 61, c at next level, right associativity) : jsm_scope.

(** ** Strings *)

Definition dot : ascii := "."%char.

(** [path.split('.')]: never empty, [""] for the empty string. *)
Fixpoint split_dot (s : string) : list string :=
  match s with
  | EmptyString => [""]
  | String c s' =>
      if Ascii.eqb c dot then "" :: split_dot s'
      else match split_dot s' with
           | p :: ps => String c p :: ps
           | [] => [String c ""]
           end
  end.

(** [rest.join('.')] *)
Fixpoint join_dot (parts : list string) : string :=
  match parts with
  | [] => ""
  | [p] => p
  | p :: ps => p ++ String dot (join_dot ps)
  end.

(** The decimal numeral of an index: [`${idx}`]. *)
Definition string_of_index (n : nat) : string :=
  NilEmpty.string_of_uint (Nat.to_uint n).

Definition in_range (lo hi : nat) (c : ascii) : bool :=
  let n := nat_of_ascii c in (lo <=? n)%nat && (n <=? hi)%nat.

Definition is_digit (c : ascii) : bool := in_range 48 57 c.
Definition is_lower (c : ascii) : bool := in_range 97 122 c.
Definition is_upper (c : ascii) : bool := in_range 65 90 c.

Definition one_of (cs : string) (c : ascii) : bool :=
  existsb (Ascii.eqb c) (list_ascii_of_string cs).

(** White space, for [\s] and for the trimming of [parseInt]: TAB, LF, VT,
    FF, CR, SP and NBSP are the ones below 256. *)
Definition is_space (c : ascii) : bool :=
  let n := nat_of_ascii c in
  in_range 9 13 c || (n =? 32)%nat || (n =? 160)%nat.

Fixpoint string_forall (p : ascii -> bool) (s : string) : bool :=
  match s with
  | EmptyString => true
  | String c s' => p c && string_forall p s'
  end.

Fixpoint string_exists (p : ascii -> bool) (s : string) : bool :=
  match s with
  | EmptyString => false
  | String c s' => p c || string_exists p s'
  end.

(** A segment: a string without the separator. *)
Definition no_dot (seg : string) : bool :=
  string_forall (fun c => negb (Ascii.eqb c dot)) seg.

(** The longest prefix of characters in a class, and what follows it. *)
Fixpoint span (p : ascii -> bool) (s : string) : string * string :=
  match s with
  | EmptyString => ("", "")
  | String c s' =>
      if p c then let (run, after) := span p s' in (String c run, after)
      else ("", s)
  end.

(** ** Objects and arrays *)

Fixpoint lookup (k : string) (props : list (string * JS)) : option JS :=
  match props with
  | [] => None
  | (k', v) :: props' => if String.eqb k' k then Some v else lookup k props'
  end.

(** The own property [k] of an object created, or overwritten where it
    stands: what the object literals [{ ...o, k: v }] define, and what an
    assignment [o[k] = v] does when it reaches no setter. *)
Fixpoint obj_set (k : string) (v : JS) (props : list (string * JS))
  : list (string * JS) :=
  match props with
  | [] => [(k, v)]
  | (k', v') :: props' =>
      if String.eqb k' k then (k, v) :: props'
      else (k', v') :: obj_set k v props'
  end.

Definition keys (props : list (string * JS)) : list string := map fst props.

Definition has_key (k : string) (props : list (string * JS)) : bool :=
  existsb (String.eqb k) (keys props).

(** An object under construction, as [result] in [exportData]: its own
    properties, and whether an assignment to [__proto__] reaches the setter
    that [Object.prototype] has for this key.  It does on [{}], where it
    changes the prototype of the object and creates no property; it no
    longer does once the prototype is [null], or an object that has lost
    the setter or has a property [__proto__] of its own. *)
Record Built : Type := mkBuilt {
  own : list (string * JS);
  setter : bool
}.

(** [o[k] = v], where [v_setter] says whether [v], when it is an object
    that [exportData] built, still reaches the setter; an object of the
    tree and an array do, an own property [__proto__] apart. *)
Definition assign (k : string) (v : JS) (v_setter : bool) (o : Built) : Built :=
  if String.eqb k "__proto__" && negb (has_key k (own o)) && setter o then
    match v with
    | JNull => mkBuilt (own o) false
    | JObject props => mkBuilt (own o) (v_setter && negb (has_key k props))
    | _ => o
    end
  else mkBuilt (obj_set k v (own o)) (setter o).

Definition isArray (v : JS) : bool :=
  match v with
  | JArray _ => true
  | _ => false
  end.

(** [typeof v] *)
Definition typeof (v : JS) : string :=
  match v with
  | JUndefined => "undefined"
  | JNull => "object"
  | JBool _ => "boolean"
  | JNumber _ => "number"
  | JString _ => "string"
  | JArray _ => "object"
  | JObject _ => "object"
  end.

(** [v === s] for a string [s]. *)
Definition is_string (v : JS) (s : string) : bool :=
  match v with
  | JString s' => String.eqb s' s
  | _ => false
  end.

(** The conversion of [if (!v)] and [a || b]. *)
Definition truthy (v : JS) : bool :=
  match v with
  | JUndefined => false
  | JNull => false
  | JBool b => b
  | JNumber n => negb (PrimFloat.eqb n 0%float || negb (PrimFloat.eqb n n))
  | JString s => negb (String.eqb s "")
  | JArray _ => true
  | JObject _ => true
  end.

(** The node object literal [{ id, name, type, value }]. *)
Definition DataNode (id name type : string) (value : JS) : JS :=
  JObject [("id", JString id); ("name", JString name);
           ("type", JString type); ("value", value)].

(** [{ ...v }]: the own enumerable properties of [v]. *)
Definition spread (v : JS) : list (string * JS) :=
  match v with
  | JObject props => props
  | JArray items =>
      (fix entries (i : nat) (l : list JS) : list (string * JS) :=
         match l with
         | [] => []
         | x :: l' => (string_of_index i, x) :: entries (S i) l'
         end) 0%nat items
  | JString s =>
      (fix entries (i : nat) (s : string) : list (string * JS) :=
         match s with
         | EmptyString => []
         | String c s' => (string_of_index i, JString (String c "")) :: entries (S i) s'
         end) 0%nat s
  | _ => []
  end.

(** ** [parseInt(part)] and [current[parseInt(part)]]

    [None] is [NaN].  The number is used only as an array index, where the
    rounding of integers above 2^53 changes nothing. *)

Definition digit_value (radix : Z) (c : ascii) : option Z :=
  let n := Z.of_nat (nat_of_ascii c) in
  let d := if is_digit c then Some (n - 48)%Z
           else if is_lower c then Some (n - 87)%Z
           else if is_upper c then Some (n - 55)%Z
           else None in
  match d with
  | Some d => if (d <? radix)%Z then Some d else None
  | None => None
  end.

Fixpoint parse_digits (radix : Z) (s : string) (acc : option Z) : option Z :=
  match s with
  | EmptyString => acc
  | String c s' =>
      match digit_value radix c with
      | Some d =>
          parse_digits radix s'
            (Some (match acc with
                   | Some a => a * radix + d
                   | None => d
                   end)%Z)
      | None => acc
      end
  end.

Definition parseInt (s : string) : option Z :=
  let s1 := snd (span is_space s) in
  let '(negative, s2) :=
    match s1 with
    | String "-" r => (true, r)
    | String "+" r => (false, r)
    | _ => (false, s1)
    end in
  let '(radix, s3) :=
    match s2 with
    | String "0" (String "x" r) => (16%Z, r)
    | String "0" (String "X" r) => (16%Z, r)
    | _ => (10%Z, s2)
    end in
  match parse_digits radix s3 None with
  | Some n => Some (if negative then (- n)%Z else n)
  | None => None
  end.

Definition at_index (items : list JS) (i : option Z) : JS :=
  match i with
  | Some z => if (z <? 0)%Z then JUndefined else nth (Z.to_nat z) items JUndefined
  | None => JUndefined
  end.

(** ** Reference tokens: [/\{\{([a-zA-Z0-9_.]+)\}\}/g] *)

Definition is_path_char (c : ascii) : bool :=
  is_lower c || is_upper c || is_digit c || one_of "_." c.

(** A match at the start of [s]: the captured path, and how many characters
    of the match follow its first one.  The class excludes the closing brace,
    so the longest run is the only candidate. *)
Definition match_ref (s : string) : option (string * nat) :=
  match s with
  | String "{" (String "{" s1) =>
      let (path, after) := span is_path_char s1 in
      match path, after with
      | String _ _, String "}" (String "}" _) => Some (path, String.length path + 3)
      | _, _ => None
      end
  | _ => None
  end.

(** The paths of the tokens of a formula, left to right. *)
Fixpoint ref_tokens_from (s : string) (skip : nat) : list string :=
  match s with
  | EmptyString => []
  | String _ s' =>
      match skip with
      | S k => ref_tokens_from s' k
      | O =>
          match match_ref s with
          | Some (path, len) => path :: ref_tokens_from s' len
          | None => ref_tokens_from s' 0
          end
      end
  end.

Definition ref_tokens (formula : string) : list string := ref_tokens_from formula 0.

(** [/[+\-*/%()]/.test(s)] *)
Definition has_math_char (s : string) : bool := string_exists (one_of "+-*/%()") s.

(** [/^[0-9+\-*/().\s]+$/.test(s)] *)
Definition strict_char (c : ascii) : bool :=
  is_digit c || one_of "+-*/()." c || is_space c.

Definition strict_math (s : string) : bool :=
  negb (String.eqb s "") && string_forall strict_char s.

(** What [evaluateExpression] returns: [{ result, error? }]. *)
Record EvalResult : Type := mkEvalResult {
  result_of : JS;
  error_of : option string
}.

(** ** The tree of the data model

    A node sequence in which every element is a node object
    [{ id, name, type, value }] with strings for [id], [name] and [type],
    a node sequence for the value of a [dictionary] or a [list], and a
    primitive value for the value of any other kind.  The program does not
    tie the primitive to the kind (the form stores the text of the input
    under [number]), and neither does the tree. *)

Definition is_container_type (type : string) : bool :=
  String.eqb type "dictionary" || String.eqb type "list".

Definition is_primitive (value : JS) : bool :=
  match value with
  | JArray _ => false
  | JObject _ => false
  | _ => true
  end.

Fixpoint is_node (v : JS) : bool :=
  match v with
  | JObject [(k1, JString _); (k2, JString _); (k3, JString type); (k4, value)] =>
      String.eqb k1 "id" && String.eqb k2 "name"
      && String.eqb k3 "type" && String.eqb k4 "value"
      && (if is_container_type type
          then match value with
               | JArray children => forallb is_node children
               | _ => false
               end
          else is_primitive value)
  | _ => false
  end.

Definition is_tree (nodes : list JS) : bool := forallb is_node nodes.

(** Reading a node's fields without the engine. *)
Definition name_of (node : JS) : option string :=
  match node with
  | JObject props =>
      match lookup "name" props with
      | Some (JString s) => Some s
      | _ => None
      end
  | _ => None
  end.

Definition type_of (node : JS) : option string :=
  match node with
  | JObject props =>
      match lookup "type" props with
      | Some (JString s) => Some s
      | _ => None
      end
  | _ => None
  end.

Definition children_of (node : JS) : option (list JS) :=
  match node with
  | JObject props =>
      match lookup "value" props with
      | Some (JArray l) => Some l
      | _ => None
      end
  | _ => None
  end.

Definition has_name (seg : string) (node : JS) : bool :=
  match name_of node with
  | Some s => String.eqb s seg
  | None => false
  end.

(** The first, and the last, child of a given name. *)
Fixpoint first_named (seg : string) (nodes : list JS) : option JS :=
  match nodes with
  | [] => None
  | n :: nodes' => if has_name seg n then Some n else first_named seg nodes'
  end.

Fixpoint last_named (seg : string) (nodes : list JS) : option JS :=
  match nodes with
  | [] => None
  | n :: nodes' =>
      match last_named seg nodes' with
      | Some m => Some m
      | None => if has_name seg n then Some n else None
      end
  end.

Fixpoint index_named (seg : string) (nodes : list JS) : option nat :=
  match nodes with
  | [] => None
  | n :: nodes' =>
      if has_name seg n then Some 0%nat else option_map S (index_named seg nodes')
  end.

(** ** Path resolution as the specification words it

    Each segment is matched against the children's names first and read as
    an index only when no name matches; a miss, or a non-container under a
    non-final segment, is not-found ([None]).  [walk] takes the reading of a
    segment as an index as a parameter. *)

Definition select (index : string -> option nat) (seg : string) (nodes : list JS)
  : option JS :=
  match first_named seg nodes with
  | Some n => Some n
  | None =>
      match index seg with
      | Some i => nth_error nodes i
      | None => None
      end
  end.

Fixpoint walk (index : string -> option nat) (segs : list string) (nodes : list JS)
  : option JS :=
  match segs with
  | [] => None
  | seg :: segs' =>
      match select index seg nodes with
      | None => None
      | Some n =>
          match segs' with
          | [] => Some n
          | _ =>
              match children_of n with
              | Some children => walk index segs' children
              | None => None
              end
          end
      end
  end.

(** A zero-based decimal index: a non-empty string of decimal digits. *)
Definition decimal_index (seg : string) : option nat :=
  if negb (String.eqb seg "") && string_forall is_digit seg
  then option_map Z.to_nat (parse_digits 10 seg None)
  else None.

(** The index that the program reads: what [parseInt] makes of the segment. *)
Definition parseInt_index (seg : string) : option nat :=
  match parseInt seg with
  | Some z => if (z <? 0)%Z then None else Some (Z.to_nat z)
  | None => None
  end.

Definition or_undefined (found : option JS) : JS :=
  match found with
  | Some n => n
  | None => JUndefined
  end.

(** ** Where [setDeepValue] is blocked

    Some non-final segment names an existing child that is neither a
    dictionary nor a list, every segment before it naming an existing
    container. *)
Fixpoint blocked (key : string) (rest : list string) (nodes : list JS) : bool :=
  match rest with
  | [] => false
  | key' :: rest' =>
      match first_named key nodes with
      | None => false
      | Some node =>
          match type_of node with
          | Some type =>
              if is_container_type type
              then match children_of node with
                   | Some children => blocked key' rest' children
                   | None => false
                   end
              else true
          | None => true
          end
      end
  end.

(** The child that a path names, by names only, through containers. *)
Fixpoint locate (key : string) (rest : list string) (nodes : list JS) : option JS :=
  match first_named key nodes with
  | None => None
  | Some node =>
      match rest with
      | [] => Some node
      | key' :: rest' =>
          match type_of node, children_of node with
          | Some type, Some children =>
              if is_container_type type then locate key' rest' children else None
          | _, _ => None
          end
      end
  end.

(** [parts[0]] and [parts.slice(1)] of [pathStr.split('.')]. *)
Definition path_key (pathStr : string) : string := hd "" (split_dot pathStr).
Definition path_rest (pathStr : string) : list string := tl (split_dot pathStr).

(** ** The JSON values of the round trip

    Strings, numbers, booleans, objects of such values, and arrays whose
    elements are such values but not arrays.  An object has each key once. *)

Fixpoint unique (l : list string) : bool :=
  match l with
  | [] => true
  | k :: l' => negb (existsb (String.eqb k) l') && unique l'
  end.

Fixpoint json_class (v : JS) : bool :=
  match v with
  | JString _ => true
  | JNumber _ => true
  | JBool _ => true
  | JObject props =>
      unique (keys props) && forallb (fun kv => json_class (snd kv)) props
  | JArray items => forallb (fun x => negb (isArray x) && json_class x) items
  | _ => false
  end.

(** No key [__proto__] in the object, nor in the objects that it holds
    under its keys; what stands in an array is not looked at. *)
Fixpoint proto_free (v : JS) : bool :=
  match v with
  | JObject props =>
      forallb (fun kv => negb (String.eqb (fst kv) "__proto__")
                         && proto_free (snd kv)) props
  | _ => true
  end.

(** ** Places in an exported value *)

Inductive step : Type :=
| Key (name : string)
| Index (i : nat).




(** ** Navigation

    An element of the state [path]: [{ id, name, type }] of the container
    that was entered. *)
Record PathStep : Type := mkPathStep {
  step_id : string;
  step_name : string;
  step_type : string
}.

(** [path[path.length - 1]?.type === 'list'] *)
Definition in_list (path : list PathStep) : bool :=
  match last (map Some path) None with
  | Some step => String.eqb (step_type step) "list"
  | None => false
  end.

(** [!newItemName.trim()]: nothing but white space. *)
Definition is_blank (s : string) : bool := string_forall is_space s.

Definition id_of (node : JS) : option string :=
  match node with
  | JObject props =>
      match lookup "id" props with
      | Some (JString s) => Some s
      | _ => None
      end
  | _ => None
  end.

Definition has_id (id : string) (node : JS) : bool :=
  match id_of node with
  | Some s => String.eqb s id
  | None => false
  end.

(** The sequence that a path of identifiers leads to: at each step the
    first node of that identifier, which has to be a container. *)
Fixpoint level_of (ids : list string) (nodes : list JS) : option (list JS) :=
  match ids with
  | [] => Some nodes
  | id :: ids' =>
      match find (has_id id) nodes with
      | Some node =>
          match type_of node, children_of node with
          | Some type, Some children =>
              if is_container_type type then level_of ids' children else None
          | _, _ => None
          end
      | None => None
      end
  end.

(** Each sequence on the way has one node of the step's identifier. *)
Fixpoint single_ids (ids : list string) (nodes : list JS) : bool :=
  match ids with
  | [] => true
  | id :: ids' =>
      (length (filter (has_id id) nodes) =? 1)%nat
      && match find (has_id id) nodes with
         | Some node =>
             match children_of node with
             | Some children => single_ids ids' children
             | None => false
             end
         | None => false
         end
  end.

(** A value that fits its kind in a tree: a node sequence under
    [dictionary] and [list], a primitive under any other kind. *)
Definition fits (type : string) (value : JS) : bool :=
  if is_container_type type
  then match value with
       | JArray children => is_tree children
       | _ => false
       end
  else is_primitive value.

(** JSON whose import is a tree: an array holds strings, numbers and
    booleans only. *)
Definition is_scalar (v : JS) : bool :=
  match v with
  | JString _ => true
  | JNumber _ => true
  | JBool _ => true
  | _ => false
  end.

Fixpoint plain_json (v : JS) : bool :=
  match v with
  | JUndefined => false
  | JArray items => forallb is_scalar items
  | JObject props => forallb (fun kv => plain_json (snd kv)) props
  | _ => true
  end.

(** ** An engine to run the definitions on concrete inputs

    It prints the integers 0 to 10, takes the strings of decimal digits for
    the numbers, runs no function body, and numbers the identifiers. *)

Definition sample_number_to_string (n : float) : string :=
  match find (fun kv => PrimFloat.eqb n (fst kv))
          [(0, "0"); (1, "1"); (2, "2"); (3, "3"); (4, "4"); (5, "5");
           (6, "6"); (7, "7"); (8, "8"); (9, "9"); (10, "10")]%float with
  | Some kv => snd kv
  | None => "NaN"
  end.

Definition sample_isNaN_Number (s : string) : bool :=
  negb (negb (String.eqb s "") && string_forall is_digit s).

Definition sample_run_function (body : string) : result JS :=
  Throw "SyntaxError".

(** A second runner: it runs nothing either, and says so in another way
    for a body that is not [return] and an arithmetic text. *)
Fixpoint strip_prefix (p s : string) : option string :=
  match p, s with
  | EmptyString, _ => Some s
  | String a p', String b s' => if Ascii.eqb a b then strip_prefix p' s' else None
  | String _ _, EmptyString => None
  end.

Definition strip_return (body : string) : option string :=
  strip_prefix "return " body.

Definition picky_run_function (body : string) : result JS :=
  match strip_return body with
  | Some text => if strict_math text then Throw "SyntaxError" else Ok (JString body)
  | None => Ok (JString body)
  end.

(** [parseFloat] on the strings of decimal digits up to 10. *)
Definition sample_parseFloat (s : string) : float :=
  match find (fun kv => String.eqb s (snd kv))
          [(0, "0"); (1, "1"); (2, "2"); (3, "3"); (4, "4"); (5, "5");
           (6, "6"); (7, "7"); (8, "8"); (9, "9"); (10, "10")]%float with
  | Some kv => fst kv
  | None => PrimFloat.nan
  end.

Definition sample_nth_id (n : nat) : string := "id" ++ string_of_index n.

Definition sample_TypeError_message : string := "TypeError".

(** The tree that the application starts with. *)
Definition default_tree : list JS :=
  [DataNode "1" "greeting" "text" (JString "Hello World");
   DataNode "2" "config" "dictionary"
     (JArray [DataNode "2a" "theme" "text" (JString "dark");
              DataNode "2b" "fontSize" "number" (JNumber 14)]);
   DataNode "3" "price" "number" (JNumber 100);
   DataNode "4" "tax_rate" "number" (JNumber 0x1.999999999999ap-3);  (* 0.2 *)
   DataNode "5" "total_cost" "expression"
     (JString "{{price}} * (1 + {{tax_rate}})")].

Definition two_nodes : list JS :=
  [DataNode "1" "a" "text" (JString "first");
   DataNode "2" "b" "text" (JString "second")].

Definition sample_json : list (string * JS) :=
  [("title", JString "jar");
   ("count", JNumber 3);
   ("nested", JObject [("on", JBool true); ("tags", JArray [JString "x"; JString "y"])]);
   ("rows", JArray [JObject [("k", JNumber 1)]; JNumber 2])].

(** A tree with a list, and the paths of the navigation into the
    dictionary of the first tree and into this list. *)
Definition list_tree : list JS :=
  [DataNode "1" "rows" "list"
     (JArray [DataNode "1a" "0" "number" (JNumber 1);
              DataNode "1b" "1" "number" (JNumber 2);
              DataNode "1c" "2" "number" (JNumber 3)])].

Definition config_path : list PathStep := [mkPathStep "2" "config" "dictionary"].

Definition rows_path : list PathStep := [mkPathStep "1" "rows" "list"].

Definition config_level : list JS :=
  [DataNode "2a" "theme" "text" (JString "dark");
   DataNode "2b" "fontSize" "number" (JNumber 14)].

Section Program.

(** *** The engine *)

(** [String(n)] for a number. *)
Variable number_to_string : float -> string.
(** [isNaN(Number(s))] *)
Variable isNaN_Number : string -> bool.
(** [new Function(body)()] *)
Variable run_function : string -> result JS.
(** The identifier that the [n]-th call of [generateId] returns. *)
Variable nth_id : nat -> string.
(** The message of a [TypeError] of the engine. *)
Variable TypeError_message : string.

Definition TypeError {A} : result A := Throw TypeError_message.

(** [const generateId = () => Math.random().toString(36).substr(2, 9)] *)
Definition generateId : M string := fun s => Ok (nth_id s, S s).

(** [v.k] for the keys the program reads ([name], [type], [value]), which
    no prototype defines. *)
Definition get (v : JS) (k : string) : result JS :=
  match v with
  | JUndefined => TypeError
  | JNull => TypeError
  | JObject props =>
      Ok (match lookup k props with
          | Some x => x
          | None => JUndefined
          end)
  | _ => Ok JUndefined
  end.

(** [String(v)], also the conversion of a property key and of what a
    replacer function returns.  A parsed object that has a [toString]
    property of its own cannot be converted. *)
Fixpoint js_String (v : JS) : result string :=
  match v with
  | JUndefined => Ok "undefined"
  | JNull => Ok "null"
  | JBool b => Ok (if b then "true" else "false")
  | JNumber n => Ok (number_to_string n)
  | JString s => Ok s
  | JArray items =>
      (fix join (l : list JS) : result string :=
         match l with
         | [] => Ok ""
         | x :: l' =>
             (sx <- match x with
                    | JUndefined => Ok ""
                    | JNull => Ok ""
                    | _ => js_String x
                    end;;
              match l' with
              | [] => Ok sx
              | _ => sr <- join l';; Ok (sx ++ "," ++ sr)
              end)%js
         end) items
  | JObject props =>
      match lookup "toString" props with
      | Some _ => TypeError
      | None => Ok "[object Object]"
      end
  end.

(** *** [resolvePath] *)

(** [current.find(node => node.name === part)] *)
Fixpoint find_name (part : string) (items : list JS) : result JS :=
  match items with
  | [] => Ok JUndefined
  | node :: items' =>
      (n <- get node "name";;
       if is_string n part then Ok node else find_name part items')%js
  end.

(** The [for] loop over [parts], from index [i] on, with [current]. *)
Fixpoint resolve_loop (parts : list string) (current : JS) : result JS :=
  match parts with
  | [] => Ok JUndefined
  | part :: parts' =>
      match current with
      | JArray items =>
          (byName <- find_name part items;;
           let found :=
             if truthy byName then byName
             else at_index items (parseInt part) in
           if negb (truthy found) then Ok JUndefined
           else match parts' with
                | [] => Ok found
                | _ => value <- get found "value";; resolve_loop parts' value
                end)%js
      | _ => Ok JUndefined
      end
  end.

Definition resolvePath (root : JS) (path : string) : result JS :=
  resolve_loop (split_dot path) root.

(** *** [evaluateExpression] *)

(** The replacer function [(_match, path) => ...]. *)
Definition replacer (root : JS) (path : string) : result JS :=
  (node <- resolvePath root path;;
   if negb (truthy node) then Throw ("Key not found: " ++ path)
   else
     ty <- get node "type";;
     value <- get node "value";;
     if is_string ty "expression" then Ok value
     else s <- js_String value;; Ok (JString s))%js.

(** [expression.replace(referenceRegex, replacer)], with the flag
    [hasReferences] that the replacer sets when it is called. *)
Fixpoint replace_refs (root : JS) (s : string) (skip : nat)
  : result (string * bool) :=
  match s with
  | EmptyString => Ok ("", false)
  | String c s' =>
      match skip with
      | S k => replace_refs root s' k
      | O =>
          match match_ref s with
          | Some (path, len) =>
              (r <- replacer root path;;
               piece <- js_String r;;
               tl <- replace_refs root s' len;;
               Ok (piece ++ fst tl, true))%js
          | None =>
              (tl <- replace_refs root s' 0;;
               Ok (String c (fst tl), snd tl))%js
          end
      end
  end.

Definition substitute (expression : string) (root : JS) : result (string * bool) :=
  replace_refs root expression 0.

Definition evaluateExpression (expression : string) (root : JS) : EvalResult :=
  if String.eqb expression "" then mkEvalResult (JString "") None
  else
    match
      (sub <- substitute expression root;;
       let resolvedString := fst sub in
       let hasReferences := snd sub in
       let isMath := has_math_char resolvedString
                     || negb (isNaN_Number resolvedString) in
       if isMath && hasReferences then
         if negb (strict_math resolvedString) then Ok (JString resolvedString)
         else run_function ("return " ++ resolvedString)
       else Ok (JString resolvedString))%js
    with
    | Ok r => mkEvalResult r None
    | Throw message => mkEvalResult (JString "ERR") (Some message)
    end.

(** *** [exportData] *)

(** [node.value], handed to the code that goes on with it; [missing] is
    what that code gives for [undefined]. *)
Definition with_value {A} (k : JS -> A) (missing : A) (node : JS) : A :=
  match node with
  | JObject props =>
      (fix go (ps : list (string * JS)) : A :=
         match ps with
         | [] => missing
         | (k', v) :: ps' => if String.eqb k' "value" then k v else go ps'
         end) props
  | _ => missing
  end.

(** [items.map(f)] for an [f] that may throw. *)
Fixpoint map_result {A B} (f : A -> result B) (l : list A) : result (list B) :=
  match l with
  | [] => Ok []
  | x :: l' => (y <- f x;; ys <- map_result f l';; Ok (y :: ys))%js
  end.

(** The value that [exportData] returned, as it is stored: the object with
    its own properties. *)
Definition built_value (o : Built) : JS := JObject (own o).

(** The callback of [node.value.map((item) => ...)]. *)
Definition export_item (exportData : JS -> result Built) (item : JS) : result JS :=
  (ity <- get item "type";;
   with_value
     (fun v =>
        if (is_string ity "dictionary" || is_string ity "list") && isArray v
        then o <- exportData v;; Ok (built_value o)
        else Ok v)
     (Ok JUndefined) item)%js.

(** The body of [nodes.forEach(node => ...)]: the key and the value of the
    assignment [result[node.name] = ...], the value with what [assign] asks
    of it. *)
Definition export_node (exportData : JS -> result Built) (node : JS)
  : result (string * (JS * bool)) :=
  (ty <- get node "type";;
   name <- get node "name";;
   exported <-
     with_value
       (fun value =>
          match value with
          | JArray children =>
              if is_string ty "dictionary" then
                o <- exportData value;; Ok (built_value o, setter o)
              else if is_string ty "list" then
                arr <- map_result (export_item exportData) children;;
                Ok (JArray arr, true)
              else Ok (value, true)
          | _ => Ok (value, true)
          end)
       (Ok (JUndefined, true)) node;;
   key <- js_String name;;
   Ok (key, exported))%js.

(** [nodes.forEach(...)] on [result]. *)
Fixpoint forEach_set (body : JS -> result (string * (JS * bool))) (l : list JS)
    (res : Built) : result Built :=
  match l with
  | [] => Ok res
  | node :: l' =>
      (kv <- body node;;
       forEach_set body l' (assign (fst kv) (fst (snd kv)) (snd (snd kv)) res))%js
  end.

(** [exportData]: [const result = {}], the loop, [return result]. *)
Fixpoint exportData (nodes : JS) : result Built :=
  match nodes with
  | JArray items => forEach_set (export_node exportData) items (mkBuilt [] true)
  | _ => TypeError
  end.

(** *** [parseImport] *)

Definition lift {A} (c : result A) : M A :=
  fun s => match c with
           | Ok a => Ok (a, s)
           | Throw m => Throw m
           end.

(** [val.map((item, idx) => ({ id: generateId(), name: `${idx}`, ... }))] *)
Fixpoint import_items (idx : nat) (items : list JS) : M (list JS) :=
  match items with
  | [] => ret []
  | item :: items' =>
      (id <~ generateId;;
       let ty := if String.eqb (typeof item) "object" then "dictionary"
                 else typeof item in
       ns <~ import_items (S idx) items';;
       ret (DataNode id (string_of_index idx) ty item :: ns))%jsm
  end.

(** The body of [Object.keys(obj).map(key => ...)]; [imported] is
    [parseImport(val)]. *)
Definition import_entry (imported : M JS) (key : string) (val : JS) : M JS :=
  let type :=
    if isArray val then "list"
    else if String.eqb (typeof val) "object"
            && negb (match val with JNull => true | _ => false end)
         then "dictionary"
         else typeof val in
  let finalType := "text" in
  let finalType := if String.eqb type "number" then "number" else finalType in
  let finalType := if String.eqb type "boolean" then "boolean" else finalType in
  let finalType := if String.eqb type "list" then "list" else finalType in
  let finalType := if String.eqb type "dictionary" then "dictionary" else finalType in
  (finalValue <~
     (if String.eqb finalType "dictionary" then imported
      else if String.eqb finalType "list" then
        match val with
        | JArray items => its <~ import_items 0 items;; ret (JArray its)
        | _ => ret val
        end
      else ret val);;
   id <~ generateId;;
   ret (DataNode id key finalType finalValue))%jsm.

(** [Object.keys(obj).map(key => ...)] over the properties of an object,
    the elements of an array and the characters of a string. *)
Fixpoint import_props (parseImport : JS -> M JS) (ps : list (string * JS))
  : M (list JS) :=
  match ps with
  | [] => ret []
  | (key, val) :: ps' =>
      (n <~ import_entry (parseImport val) key val;;
       ns <~ import_props parseImport ps';;
       ret (n :: ns))%jsm
  end.

Fixpoint import_elements (parseImport : JS -> M JS) (idx : nat) (l : list JS)
  : M (list JS) :=
  match l with
  | [] => ret []
  | val :: l' =>
      (n <~ import_entry (parseImport val) (string_of_index idx) val;;
       ns <~ import_elements parseImport (S idx) l';;
       ret (n :: ns))%jsm
  end.

Fixpoint import_chars (idx : nat) (cs : string) : M (list JS) :=
  match cs with
  | EmptyString => ret []
  | String c cs' =>
      (n <~ import_entry (raise TypeError_message)
              (string_of_index idx) (JString (String c ""));;
       ns <~ import_chars (S idx) cs';;
       ret (n :: ns))%jsm
  end.

Fixpoint parseImport (obj : JS) : M JS :=
  match obj with
  | JUndefined => raise TypeError_message
  | JNull => raise TypeError_message
  | JObject props => (ns <~ import_props parseImport props;; ret (JArray ns))%jsm
  | JArray items => (ns <~ import_elements parseImport 0 items;; ret (JArray ns))%jsm
  | JString str => (ns <~ import_chars 0 str;; ret (JArray ns))%jsm
  | _ => ret (JArray [])
  end.

(** *** [setDeepValue] *)

(** [nodes.findIndex(n => n.name === key)]; [None] is [-1]. *)
Fixpoint findIndex_name (key : string) (items : list JS) : result (option nat) :=
  match items with
  | [] => Ok None
  | n :: items' =>
      (nm <- get n "name";;
       if is_string nm key then Ok (Some 0%nat)
       else i <- findIndex_name key items';; Ok (option_map S i))%js
  end.

(** [[...nodes.slice(0, i), node', ...nodes.slice(i + 1)]] *)
Definition replace_at (i : nat) (node' : JS) (items : list JS) : list JS :=
  (firstn i items ++ [node'] ++ skipn (S i) items)%list.

(** [setDeepValue] with [pathStr] already split into [key = parts[0]] and
    [rest = parts.slice(1)]; the source calls itself on [rest.join('.')],
    which splits into [rest] again ([split_join_dot] below). *)
Fixpoint setDeepValue_parts (key : string) (rest : list string) (nodes value : JS)
    (type : string) {struct rest} : M JS :=
  match nodes with
  | JArray items =>
      (existingIndex <~ lift (findIndex_name key items);;
       match existingIndex with
       | Some i =>
           let node := nth i items JUndefined in
           match rest with
           | [] =>
               ret (JArray
                      (replace_at i
                         (JObject (obj_set "type" (JString type)
                                     (obj_set "value" value (spread node))))
                         items))
           | key' :: rest' =>
               ty <~ lift (get node "type");;
               if negb (is_string ty "dictionary") && negb (is_string ty "list")
               then ret nodes
               else
                 children <~ lift (get node "value");;
                 sub <~ setDeepValue_parts key' rest' children value type;;
                 ret (JArray
                        (replace_at i
                           (JObject (obj_set "value" sub (spread node)))
                           items))
           end
       | None =>
           match rest with
           | [] =>
               id <~ generateId;;
               ret (JArray (items ++ [DataNode id key type value])%list)
           | key' :: rest' =>
               id <~ generateId;;
               sub <~ setDeepValue_parts key' rest' (JArray []) value type;;
               ret (JArray (items ++ [DataNode id key "dictionary" sub])%list)
           end
       end)%jsm
  | _ => raise TypeError_message
  end.

Definition setDeepValue (nodes : JS) (pathStr : string) (value : JS) (type : string)
  : M JS :=
  let parts := split_dot pathStr in
  setDeepValue_parts (hd "" parts) (tl parts) nodes value type.

(** What [setDeepValue] appends for a key that no child has: the leaf, under
    one new dictionary for each segment before the last; [next] identifiers
    were drawn before. *)
Fixpoint chain (next : nat) (key : string) (rest : list string) (value : JS)
    (type : string) : JS :=
  match rest with
  | [] => DataNode (nth_id next) key type value
  | key' :: rest' =>
      DataNode (nth_id next) key "dictionary"
        (JArray [chain (S next) key' rest' value type])
  end.

(** The first token, left to right, whose path does not resolve. *)
Fixpoint first_unresolved (root : JS) (paths : list string) : option string :=
  match paths with
  | [] => None
  | p :: paths' =>
      match resolvePath root p with
      | Ok v => if truthy v then first_unresolved root paths' else Some p
      | Throw _ => None
      end
  end.

(** The round trip of an object, as the induction on JSON values carries
    it. *)
Definition object_round_trip (v : JS) : Prop :=
  forall props, v = JObject props -> json_class v = true -> proto_free v = true ->
    forall s, exists nodes s',
      parseImport v s = Ok (JArray nodes, s')
      /\ exportData (JArray nodes) = Ok (mkBuilt props true).

(** *** The URL interface: [handleApiTrigger] and [checkUrl] *)

(** [parseFloat(value)] *)
Variable parseFloat : string -> float.

(** [handleApiTrigger(key, value, type)] as the update of the tree.  [value]
    is a string, so of [key && (value !== null || ...)] the test of [key]
    is what decides. *)
Definition handleApiTrigger (key value type : string) (prev : JS) : M JS :=
  if negb (String.eqb key "") then
    let cleanValue := JString value in
    let cleanValue :=
      if String.eqb type "number" then JNumber (parseFloat value) else cleanValue in
    let cleanValue :=
      if String.eqb type "boolean" then JBool (String.eqb value "true")
      else cleanValue in
    let cleanValue :=
      if String.eqb type "dictionary" || String.eqb type "list" then JArray []
      else cleanValue in
    setDeepValue prev key cleanValue type
  else ret prev.

(** [checkUrl], given what [params.get] returns for [key], [value] and
    [type] ([None] is [null]). *)
Definition checkUrl (key value type : option string) (prev : JS) : M JS :=
  let type :=
    match type with
    | Some t => if String.eqb t "" then "text" else t
    | None => "text"
    end in
  match key with
  | Some k =>
      if negb (String.eqb k "")
      then handleApiTrigger k (match value with Some v => v | None => "" end)
             type prev
      else ret prev
  | None => ret prev
  end.

(** *** The current level: [currentLevelNodes] *)

(** [current.find(n => n.id === step.id)] *)
Fixpoint find_id (id : string) (items : list JS) : result JS :=
  match items with
  | [] => Ok JUndefined
  | n :: items' =>
      (nid <- get n "id";;
       if is_string nid id then Ok n else find_id id items')%js
  end.

(** The loop [for (const step of path)]. *)
Fixpoint currentLevel_loop (steps : list PathStep) (current : JS) : result JS :=
  match steps with
  | [] => Ok current
  | step :: steps' =>
      match current with
      | JArray items =>
          (found <- find_id (step_id step) items;;
           if truthy found then
             ty <- get found "type";;
             if is_string ty "dictionary" || is_string ty "list" then
               value <- get found "value";;
               currentLevel_loop steps' value
             else Ok (JArray [])
           else Ok (JArray []))%js
      | _ => TypeError
      end
  end.

Definition currentLevelNodes (data : JS) (path : list PathStep) : result JS :=
  match path with
  | [] => Ok data
  | _ => currentLevel_loop path data
  end.

(** *** [updateDataTree] *)

(** [recursiveUpdate(nodes, depth)], with the steps of [path] from [depth]
    on. *)
Fixpoint recursiveUpdate (updates : JS -> result JS) (steps : list PathStep)
    (nodes : JS) : result JS :=
  match steps with
  | [] => updates nodes
  | step :: steps' =>
      match nodes with
      | JArray items =>
          (items' <-
             map_result
               (fun node =>
                  nid <- get node "id";;
                  if is_string nid (step_id step) then
                    value <- get node "value";;
                    value' <- recursiveUpdate updates steps' value;;
                    Ok (JObject (obj_set "value" value' (spread node)))
                  else Ok node)
               items;;
           Ok (JArray items'))%js
      | _ => TypeError
      end
  end.

Definition updateDataTree (updates : JS -> result JS) (path : list PathStep)
    (prev : JS) : result JS :=
  recursiveUpdate updates path prev.

(** [[...nodes, newNode]] *)
Definition append_node (newNode : JS) (nodes : JS) : result JS :=
  match nodes with
  | JArray items => Ok (JArray (items ++ [newNode])%list)
  | JString s => Ok (JArray (map snd (spread (JString s)) ++ [newNode])%list)
  | _ => TypeError
  end.

(** [`${currentLevelNodes.length}`] *)
Definition length_text (level : JS) : result string :=
  match level with
  | JArray items => Ok (string_of_index (length items))
  | JString s => Ok (string_of_index (String.length s))
  | JUndefined => TypeError
  | JNull => TypeError
  | JObject props =>
      js_String (match lookup "length" props with
                 | Some x => x
                 | None => JUndefined
                 end)
  | _ => Ok "undefined"
  end.

(** [handleAdd], from the form state and the tree to the tree. *)
Definition handleAdd (newItemName newItemType : string) (newItemValue : JS)
    (path : list PathStep) (data : JS) : M JS :=
  if is_blank newItemName && negb (in_list path) then ret data
  else
    (nameToUse <~
       (if in_list path
        then lift (level <- currentLevelNodes data path;; length_text level)%js
        else ret newItemName);;
     id <~ generateId;;
     let newNode :=
       DataNode id nameToUse newItemType
         (if is_container_type newItemType then JArray [] else newItemValue) in
     lift (updateDataTree (append_node newNode) path data))%jsm.

(** [nodes.filter(n => n.id !== id)] *)
Fixpoint filter_out_id (id : string) (items : list JS) : result (list JS) :=
  match items with
  | [] => Ok []
  | n :: items' =>
      (nid <- get n "id";;
       rest <- filter_out_id id items';;
       Ok (if is_string nid id then rest else n :: rest))%js
  end.

Definition remove_id (id : string) (nodes : JS) : result JS :=
  match nodes with
  | JArray items => (items' <- filter_out_id id items;; Ok (JArray items'))%js
  | _ => TypeError
  end.

(** [handleDelete]; [confirmed] is what [confirm('Delete this item?')]
    returns. *)
Definition handleDelete (id : string) (confirmed : bool) (path : list PathStep)
    (data : JS) : result JS :=
  if confirmed then updateDataTree (remove_id id) path data else Ok data.

(** [nodes.map(n => n.id === id ? { ...n, value: newValue } : n)] *)
Definition set_value_of (id : string) (newValue : JS) (nodes : JS) : result JS :=
  match nodes with
  | JArray items =>
      (items' <-
         map_result
           (fun n =>
              nid <- get n "id";;
              Ok (if is_string nid id
                  then JObject (obj_set "value" newValue (spread n))
                  else n))
           items;;
       Ok (JArray items'))%js
  | _ => TypeError
  end.

Definition handleUpdateValue (id : string) (newValue : JS) (path : list PathStep)
    (data : JS) : result JS :=
  updateDataTree (set_value_of id newValue) path data.

(** The import button, given what [JSON.parse(jsonInput)] returned: the
    tree after the click.  A throw of [parseImport] is caught with the one
    of [JSON.parse], and the tree stays. *)
Definition import_click (parsed : JS) (data : JS) : M JS :=
  fun s =>
    match parseImport parsed s with
    | Ok (nodes, s') => Ok (nodes, s')
    | Throw _ => Ok (data, s)
    end.

(** * Properties *)

(** ** Strings and objects *)

Lemma split_dot_nonempty (s : string) : split_dot s <> [].
Proof.
  destruct s as [|c s]; simpl; [discriminate|].
  destruct (Ascii.eqb c dot); [discriminate|].
  destruct (split_dot s); discriminate.
Qed.

Lemma split_dot_no_dot (s : string) : forallb no_dot (split_dot s) = true.
Proof.
  induction s as [|c s IH]; simpl; [reflexivity|].
  destruct (Ascii.eqb c dot) eqn:E; simpl; [exact IH|].
  destruct (split_dot s) as [|p ps]; simpl in *.
  - unfold no_dot; simpl. now rewrite E.
  - unfold no_dot in *; simpl. now rewrite E.
Qed.

Lemma split_dot_segment (seg : string) :
  no_dot seg = true -> split_dot seg = [seg].
Proof.
  induction seg as [|c seg IH]; simpl; [reflexivity|].
  unfold no_dot; simpl. intros H. apply andb_prop in H as [Hc Hs].
  apply negb_true_iff in Hc. rewrite Hc.
  unfold no_dot in IH. now rewrite (IH Hs).
Qed.

Lemma split_dot_app (seg s : string) :
  no_dot seg = true ->
  split_dot (seg ++ String dot s) = seg :: split_dot s.
Proof.
  induction seg as [|c seg IH]; simpl; intros H.
  - reflexivity.
  - unfold no_dot in H; simpl in H. apply andb_prop in H as [Hc Hs].
    apply negb_true_iff in Hc. rewrite Hc.
    unfold no_dot in IH. now rewrite (IH Hs).
Qed.

(** Splitting what [rest.join('.')] built gives [rest] back: the call of
    [setDeepValue] on the joined rest is the call of [setDeepValue_parts]
    on its head and tail. *)
Lemma split_join_dot (parts : list string) :
  parts <> [] -> forallb no_dot parts = true ->
  split_dot (join_dot parts) = parts.
Proof.
  induction parts as [|p ps IH]; intros Hne Hall; [congruence|].
  simpl in Hall. apply andb_prop in Hall as [Hp Hps].
  destruct ps as [|q ps].
  - simpl. now apply split_dot_segment.
  - change (join_dot (p :: q :: ps)) with (p ++ String dot (join_dot (q :: ps))).
    rewrite split_dot_app by exact Hp.
    rewrite IH; [reflexivity|discriminate|exact Hps].
Qed.

Lemma setDeepValue_joined (key : string) (rest : list string) (nodes value : JS)
    (type : string) :
  forallb no_dot (key :: rest) = true ->
  setDeepValue nodes (join_dot (key :: rest)) value type
  = setDeepValue_parts key rest nodes value type.
Proof.
  intros H. unfold setDeepValue.
  rewrite split_join_dot by (discriminate || exact H). reflexivity.
Qed.

Lemma lookup_obj_set_same (k : string) (v : JS) (props : list (string * JS)) :
  lookup k (obj_set k v props) = Some v.
Proof.
  induction props as [|[k' v'] props IH]; simpl.
  - now rewrite String.eqb_refl.
  - destruct (String.eqb k' k) eqn:E; simpl.
    + now rewrite String.eqb_refl.
    + now rewrite E.
Qed.

Lemma lookup_obj_set_other (k k' : string) (v : JS) (props : list (string * JS)) :
  String.eqb k' k = false ->
  lookup k (obj_set k' v props) = lookup k props.
Proof.
  intros Hk. induction props as [|[k0 v0] props IH]; simpl.
  - now rewrite Hk.
  - destruct (String.eqb k0 k') eqn:E; simpl.
    + apply String.eqb_eq in E. subst k0. now rewrite Hk.
    + now rewrite IH.
Qed.

Lemma obj_set_same (k : string) (v : JS) (props : list (string * JS)) :
  lookup k props = Some v -> obj_set k v props = props.
Proof.
  induction props as [|[k' v'] props IH]; simpl; [discriminate|].
  destruct (String.eqb k' k) eqn:E; intros H.
  - apply String.eqb_eq in E. congruence.
  - now rewrite IH.
Qed.

Lemma obj_set_fresh (k : string) (v : JS) (props : list (string * JS)) :
  existsb (String.eqb k) (keys props) = false ->
  obj_set k v props = (props ++ [(k, v)])%list.
Proof.
  induction props as [|[k' v'] props IH]; simpl; [reflexivity|].
  intros H. apply orb_false_iff in H as [Hk Hrest].
  rewrite String.eqb_sym, Hk. now rewrite IH.
Qed.


Lemma obj_set_again (k : string) (v : JS) (props : list (string * JS)) :
  obj_set k v (obj_set k v props) = obj_set k v props.
Proof. apply obj_set_same, lookup_obj_set_same. Qed.

Lemma obj_set_type_value_again (t v : JS) (props : list (string * JS)) :
  let props' := obj_set "type" t (obj_set "value" v props) in
  obj_set "type" t (obj_set "value" v props') = props'.
Proof.
  intros props'.
  assert (Hv : obj_set "value" v props' = props').
  { apply obj_set_same. unfold props'.
    rewrite lookup_obj_set_other by reflexivity. apply lookup_obj_set_same. }
  rewrite Hv. apply obj_set_again.
Qed.

Lemma lookup_node_name (id name type : string) (value : JS) :
  lookup "name" [("id", JString id); ("name", JString name);
                 ("type", JString type); ("value", value)]
  = Some (JString name).
Proof. reflexivity. Qed.

Lemma lookup_node_type (id name type : string) (value : JS) :
  lookup "type" [("id", JString id); ("name", JString name);
                 ("type", JString type); ("value", value)]
  = Some (JString type).
Proof. reflexivity. Qed.

Lemma lookup_node_value (id name type : string) (value : JS) :
  lookup "value" [("id", JString id); ("name", JString name);
                  ("type", JString type); ("value", value)]
  = Some value.
Proof. reflexivity. Qed.

(** Reading the fields of a node literal. *)
Ltac read_fields :=
  unfold get, DataNode;
  rewrite ?lookup_node_type, ?lookup_node_name, ?lookup_node_value;
  cbn [bind].

(** ** Arrays *)

Lemma replace_at_middle (pre post : list JS) (old new : JS) :
  replace_at (length pre) new (pre ++ old :: post) = (pre ++ new :: post)%list.
Proof.
  unfold replace_at. induction pre as [|a pre IH]; simpl in *; [reflexivity|].
  now f_equal.
Qed.

Lemma get_name_hit (node a : JS) (key : string) :
  get node "name" = Ok a -> is_string a key = true ->
  exists props, node = JObject props /\ lookup "name" props = Some (JString key).
Proof.
  intros Hg Hs. destruct a; try discriminate. simpl in Hs.
  apply String.eqb_eq in Hs. subst s.
  destruct node; unfold get, TypeError in Hg; try discriminate.
  exists props. split; [reflexivity|].
  destruct (lookup "name" props); congruence.
Qed.

Lemma findIndex_hit (key : string) (items : list JS) (i : nat) :
  findIndex_name key items = Ok (Some i) ->
  exists pre props post,
    items = (pre ++ JObject props :: post)%list /\ length pre = i
    /\ findIndex_name key pre = Ok None
    /\ lookup "name" props = Some (JString key).
Proof.
  revert i. induction items as [|a items IH]; intros i H; simpl in H; [discriminate|].
  destruct (get a "name") as [nm|] eqn:G; simpl in H; [|discriminate].
  destruct (is_string nm key) eqn:S.
  - inversion H; subst i.
    destruct (get_name_hit _ _ _ G S) as (props & -> & Hn).
    exists [], props, items. repeat split; assumption.
  - destruct (findIndex_name key items) as [[j|]|] eqn:F; simpl in H; try discriminate.
    inversion H; subst i.
    destruct (IH j eq_refl) as (pre & props & post & -> & <- & Fp & Hn).
    exists (a :: pre), props, post. repeat split; try assumption.
    simpl. rewrite G. simpl. rewrite S, Fp. reflexivity.
Qed.

Lemma findIndex_app_hit (key : string) (pre post : list JS)
    (props : list (string * JS)) :
  findIndex_name key pre = Ok None ->
  lookup "name" props = Some (JString key) ->
  findIndex_name key (pre ++ JObject props :: post) = Ok (Some (length pre)).
Proof.
  intros Hp Hn. induction pre as [|a pre IH]; simpl.
  - rewrite Hn. simpl. now rewrite String.eqb_refl.
  - simpl in Hp. destruct (get a "name") as [nm|]; simpl in *; [|discriminate].
    destruct (is_string nm key); [discriminate|].
    destruct (findIndex_name key pre) as [[j|]|]; simpl in Hp; try discriminate.
    now rewrite IH.
Qed.

(** ** [setDeepValue]: applying it twice *)

Lemma setDeepValue_parts_again :
  forall (rest : list string) (key : string) (nodes value : JS) (type : string)
         (s : nat) (r : JS) (s' : nat),
    setDeepValue_parts key rest nodes value type s = Ok (r, s') ->
    forall s2, setDeepValue_parts key rest r value type s2 = Ok (r, s2).
Proof.
  induction rest as [|key' rest' IH]; intros key nodes value type s r s' H s2.
  - destruct nodes; try discriminate.
    simpl in H. unfold bindM, lift in H.
    destruct (findIndex_name key items) as [[i|]|] eqn:F; try discriminate.
    + apply findIndex_hit in F as (pre & props & post & -> & <- & Fp & Hn).
      rewrite nth_middle, replace_at_middle in H. simpl spread in H.
      unfold ret in H. inversion H; subst r s'. clear H.
      simpl. unfold bindM, lift.
      rewrite findIndex_app_hit; [|assumption|].
      2:{ rewrite !lookup_obj_set_other by reflexivity. exact Hn. }
      rewrite nth_middle, replace_at_middle. simpl spread.
      unfold ret. now rewrite obj_set_type_value_again.
    + unfold generateId, ret in H. inversion H; subst r s'. clear H.
      simpl. unfold bindM, lift, DataNode.
      rewrite (findIndex_app_hit key items []) by (assumption || reflexivity).
      rewrite nth_middle, replace_at_middle. reflexivity.
  - destruct nodes; try discriminate.
    simpl in H. unfold bindM, lift in H.
    destruct (findIndex_name key items) as [[i|]|] eqn:F; try discriminate.
    + apply findIndex_hit in F as (pre & props & post & -> & <- & Fp & Hn).
      rewrite nth_middle in H. unfold get in H; cbv beta iota in H. simpl spread in H.
      set (ty := match lookup "type" props with Some x => x | None => JUndefined end) in *.
      cbv beta iota in H.
      destruct (negb (is_string ty "dictionary") && negb (is_string ty "list")) eqn:C.
      * unfold ret in H. inversion H; subst r s'. clear H.
        simpl. unfold bindM, lift.
        rewrite findIndex_app_hit by assumption.
        rewrite nth_middle. unfold get; cbv beta iota. fold ty. cbv beta iota.
        rewrite C. reflexivity.
      * unfold get in H; cbv beta iota in H.
        set (ch := match lookup "value" props with Some x => x | None => JUndefined end) in *.
        cbv beta iota in H.
        destruct (setDeepValue_parts key' rest' ch value type s) as [[sub s1]|] eqn:R;
          cbv beta iota in H; [|discriminate].
        rewrite replace_at_middle in H. unfold ret in H.
        inversion H; subst r s'. clear H.
        simpl. unfold bindM, lift.
        rewrite findIndex_app_hit; [|assumption|].
        2:{ rewrite lookup_obj_set_other by reflexivity. exact Hn. }
        rewrite nth_middle. unfold get; cbv beta iota.
        rewrite lookup_obj_set_other by reflexivity. fold ty. cbv beta iota.
        rewrite C. rewrite lookup_obj_set_same. cbv beta iota.
        rewrite (IH _ _ _ _ _ _ _ R). simpl spread.
        rewrite replace_at_middle, obj_set_again. reflexivity.
    + unfold generateId in H.
      destruct (setDeepValue_parts key' rest' (JArray []) value type (S s))
        as [[sub s1]|] eqn:R; cbv beta iota in H; [|discriminate].
      unfold ret in H. inversion H; subst r s'. clear H.
      simpl. unfold bindM, lift, DataNode.
      rewrite (findIndex_app_hit key items []) by (assumption || reflexivity).
      rewrite nth_middle. unfold get; cbv beta iota. cbv beta iota.
      rewrite lookup_node_type, lookup_node_value. cbv beta iota.
      change (negb (is_string (JString "dictionary") "dictionary")) with false.
      rewrite andb_false_l. cbv beta iota.
      rewrite (IH _ _ _ _ _ _ _ R).
      rewrite replace_at_middle. reflexivity.
Qed.


(** ** Trees *)

Lemma is_node_inv (v : JS) :
  is_node v = true ->
  exists id name type value,
    v = DataNode id name type value
    /\ if is_container_type type
       then exists children, value = JArray children /\ is_tree children = true
       else is_primitive value = true.
Proof.
  intros H. destruct v as [| | | | | |props]; try discriminate.
  destruct props as [|[k1 v1] [|[k2 v2] [|[k3 v3] [|[k4 v4] [|]]]]];
    try discriminate;
    destruct v1; try discriminate;
    destruct v2; try discriminate;
    destruct v3; try discriminate.
  cbn [is_node] in H.
  apply andb_prop in H as [H H5]. apply andb_prop in H as [H H4].
  apply andb_prop in H as [H H3]. apply andb_prop in H as [H1 H2].
  apply String.eqb_eq in H1, H2, H3, H4. subst.
  exists s, s0, s1, v4. split; [reflexivity|].
  destruct (is_container_type s1); [|exact H5].
  destruct v4; try discriminate. exists items. split; [reflexivity|exact H5].
Qed.

Lemma is_tree_app (l1 l2 : list JS) :
  is_tree (l1 ++ l2) = is_tree l1 && is_tree l2.
Proof. apply forallb_app. Qed.

Lemma is_tree_cons (n : JS) (l : list JS) :
  is_tree (n :: l) = is_node n && is_tree l.
Proof. reflexivity. Qed.

Lemma is_tree_middle (pre post : list JS) (node : JS) :
  is_tree (pre ++ node :: post) = true ->
  is_tree pre = true /\ is_node node = true /\ is_tree post = true.
Proof.
  rewrite is_tree_app, is_tree_cons. intros H.
  apply andb_prop in H as [H1 H]. apply andb_prop in H as [H2 H3]. auto.
Qed.

Lemma has_name_node (seg id name type : string) (value : JS) :
  has_name seg (DataNode id name type value) = String.eqb name seg.
Proof. reflexivity. Qed.

Lemma get_name_node (v : JS) :
  is_node v = true ->
  exists name, name_of v = Some name /\ get v "name" = Ok (JString name).
Proof.
  intros H. destruct (is_node_inv v H) as (id & name & type & value & -> & _).
  exists name. split; reflexivity.
Qed.

Lemma findIndex_tree (key : string) (nodes : list JS) :
  is_tree nodes = true -> findIndex_name key nodes = Ok (index_named key nodes).
Proof.
  induction nodes as [|n nodes IH]; intros H; simpl; [reflexivity|].
  simpl in H. apply andb_prop in H as [Hn Ht].
  destruct (get_name_node n Hn) as (name & Hname & Hget).
  rewrite Hget. simpl. unfold has_name. rewrite Hname.
  destruct (String.eqb name key); [reflexivity|].
  now rewrite (IH Ht).
Qed.

Lemma find_name_tree (key : string) (nodes : list JS) :
  is_tree nodes = true ->
  find_name key nodes = Ok (or_undefined (first_named key nodes)).
Proof.
  induction nodes as [|n nodes IH]; intros H; simpl; [reflexivity|].
  simpl in H. apply andb_prop in H as [Hn Ht].
  destruct (get_name_node n Hn) as (name & Hname & Hget).
  rewrite Hget. simpl. unfold has_name. rewrite Hname.
  destruct (String.eqb name key); [reflexivity|].
  now rewrite (IH Ht).
Qed.

Lemma first_named_split (key : string) (nodes : list JS) (node : JS) :
  first_named key nodes = Some node ->
  exists pre post,
    nodes = (pre ++ node :: post)%list
    /\ index_named key nodes = Some (length pre)
    /\ first_named key pre = None
    /\ has_name key node = true.
Proof.
  induction nodes as [|n nodes IH]; simpl; [discriminate|].
  destruct (has_name key n) eqn:E; intros H.
  - inversion H; subst. exists [], nodes. repeat split; assumption.
  - destruct (IH H) as (pre & post & -> & Hi & Hp & Hn).
    exists (n :: pre), post. simpl. rewrite Hi, E, Hp. repeat split; assumption.
Qed.

Lemma first_named_none (key : string) (nodes : list JS) :
  first_named key nodes = None -> index_named key nodes = None.
Proof.
  induction nodes as [|n nodes IH]; simpl; [reflexivity|].
  destruct (has_name key n); [discriminate|].
  intros H. now rewrite IH.
Qed.

Lemma first_named_middle (key : string) (pre post : list JS) (node : JS) :
  first_named key pre = None -> has_name key node = true ->
  first_named key (pre ++ node :: post) = Some node.
Proof.
  intros Hp Hn. induction pre as [|a pre IH]; simpl in *.
  - now rewrite Hn.
  - destruct (has_name key a); [discriminate|]. now apply IH.
Qed.

(** On a tree [setDeepValue] returns, and returns an array. *)
Lemma setDeepValue_parts_total :
  forall (rest : list string) (key : string) (nodes : list JS) (value : JS)
         (type : string) (s : nat),
    is_tree nodes = true ->
    exists r s', setDeepValue_parts key rest (JArray nodes) value type s
                 = Ok (JArray r, s').
Proof.
  induction rest as [|key' rest' IH]; intros key nodes value type s Ht;
    simpl; unfold bindM, lift; rewrite (findIndex_tree key nodes Ht);
    destruct (index_named key nodes) as [i|] eqn:Ei; cbv beta iota.
  - eexists _, _. reflexivity.
  - eexists _, _. reflexivity.
  - pose proof (findIndex_tree key nodes Ht) as F. rewrite Ei in F.
    apply findIndex_hit in F as (pre & props & post & -> & <- & Fp & Hn).
    rewrite nth_middle.
    apply is_tree_middle in Ht as (_ & Hnode & _).
    destruct (is_node_inv _ Hnode) as (id & name & ty & v & E & Hv).
    rewrite E. unfold DataNode, get. cbv beta iota.
    rewrite lookup_node_type, lookup_node_value. cbv beta iota.
    unfold is_container_type in Hv.
    change (is_string (JString ty) "dictionary") with (String.eqb ty "dictionary").
    change (is_string (JString ty) "list") with (String.eqb ty "list").
    rewrite <- negb_orb.
    destruct (String.eqb ty "dictionary" || String.eqb ty "list");
      cbv beta iota delta [negb].
    + destruct Hv as (children & -> & Hc).
      destruct (IH key' children value type s Hc) as (r & s' & ->).
      eexists _, _. reflexivity.
    + eexists _, _. reflexivity.
  - unfold generateId. cbv beta iota.
    destruct (IH key' [] value type (S s) eq_refl) as (r & s' & ->).
    eexists _, _. reflexivity.
Qed.


(** ** [setDeepValue], case by case *)

Lemma findIndex_middle_node (key id type : string) (value : JS) (pre post : list JS) :
  findIndex_name key pre = Ok None ->
  findIndex_name key (pre ++ DataNode id key type value :: post)
  = Ok (Some (length pre)).
Proof. intros Hp. apply findIndex_app_hit; [exact Hp|reflexivity]. Qed.

Lemma setDeepValue_hit_final (key id type : string) (old : JS) (pre post : list JS)
    (value : JS) (type' : string) (s : nat) :
  findIndex_name key pre = Ok None ->
  setDeepValue_parts key [] (JArray (pre ++ DataNode id key type old :: post))
    value type' s
  = Ok (JArray (pre ++ DataNode id key type' value :: post), s).
Proof.
  intros Hp. simpl. unfold bindM, lift.
  rewrite (findIndex_middle_node _ _ _ _ _ _ Hp).
  rewrite nth_middle, replace_at_middle. reflexivity.
Qed.

Lemma setDeepValue_miss_final (key : string) (items : list JS) (value : JS)
    (type : string) (s : nat) :
  findIndex_name key items = Ok None ->
  setDeepValue_parts key [] (JArray items) value type s
  = Ok (JArray (items ++ [DataNode (nth_id s) key type value]), S s).
Proof. intros F. simpl. unfold bindM, lift. rewrite F. reflexivity. Qed.

Lemma setDeepValue_miss_deeper (key key' : string) (rest' : list string)
    (items : list JS) (value : JS) (type : string) (s s' : nat) (sub : JS) :
  findIndex_name key items = Ok None ->
  setDeepValue_parts key' rest' (JArray []) value type (S s) = Ok (sub, s') ->
  setDeepValue_parts key (key' :: rest') (JArray items) value type s
  = Ok (JArray (items ++ [DataNode (nth_id s) key "dictionary" sub]), s').
Proof.
  intros F R. simpl. unfold bindM, lift. rewrite F.
  unfold generateId. cbv beta iota. now rewrite R.
Qed.

Lemma setDeepValue_hit_leaf (key key' id type : string) (rest' : list string)
    (old : JS) (pre post : list JS) (value : JS) (type' : string) (s : nat) :
  findIndex_name key pre = Ok None ->
  is_container_type type = false ->
  setDeepValue_parts key (key' :: rest')
    (JArray (pre ++ DataNode id key type old :: post)) value type' s
  = Ok (JArray (pre ++ DataNode id key type old :: post), s).
Proof.
  intros Hp Hc. simpl. unfold bindM, lift.
  rewrite (findIndex_middle_node _ _ _ _ _ _ Hp).
  rewrite nth_middle. unfold DataNode, get. cbv beta iota.
  rewrite lookup_node_type. cbv beta iota.
  change (is_string (JString type) "dictionary") with (String.eqb type "dictionary").
  change (is_string (JString type) "list") with (String.eqb type "list").
  rewrite <- negb_orb. unfold is_container_type in Hc. rewrite Hc. reflexivity.
Qed.

Lemma setDeepValue_hit_container (key key' id type : string) (rest' : list string)
    (old : JS) (pre post : list JS) (value : JS) (type' : string) (s s' : nat)
    (sub : JS) :
  findIndex_name key pre = Ok None ->
  is_container_type type = true ->
  setDeepValue_parts key' rest' old value type' s = Ok (sub, s') ->
  setDeepValue_parts key (key' :: rest')
    (JArray (pre ++ DataNode id key type old :: post)) value type' s
  = Ok (JArray (pre ++ DataNode id key type sub :: post), s').
Proof.
  intros Hp Hc R. simpl. unfold bindM, lift.
  rewrite (findIndex_middle_node _ _ _ _ _ _ Hp).
  rewrite nth_middle. unfold DataNode, get. cbv beta iota.
  rewrite lookup_node_type, lookup_node_value. cbv beta iota.
  change (is_string (JString type) "dictionary") with (String.eqb type "dictionary").
  change (is_string (JString type) "list") with (String.eqb type "list").
  rewrite <- negb_orb. unfold is_container_type in Hc. rewrite Hc.
  cbv beta iota delta [negb]. rewrite R. cbv beta iota.
  rewrite replace_at_middle. reflexivity.
Qed.

(** A child of a tree found by name: the node, and the array around it. *)
Lemma first_named_tree (key : string) (nodes : list JS) (node : JS) :
  is_tree nodes = true ->
  first_named key nodes = Some node ->
  exists pre post id type value,
    nodes = (pre ++ DataNode id key type value :: post)%list
    /\ node = DataNode id key type value
    /\ index_named key nodes = Some (length pre)
    /\ findIndex_name key pre = Ok None
    /\ first_named key pre = None
    /\ is_tree pre = true /\ is_node node = true /\ is_tree post = true.
Proof.
  intros Ht Hf.
  destruct (first_named_split _ _ _ Hf) as (pre & post & -> & Hi & Hp & Hn).
  destruct (is_tree_middle _ _ _ Ht) as (Hpre & Hnode & Hpost).
  destruct (is_node_inv _ Hnode) as (id & name & type & value & -> & _).
  rewrite has_name_node in Hn. apply String.eqb_eq in Hn. subst name.
  exists pre, post, id, type, value. repeat split; try assumption.
  rewrite (findIndex_tree key pre Hpre). now rewrite (first_named_none _ _ Hp).
Qed.

Lemma findIndex_tree_none (key : string) (nodes : list JS) :
  is_tree nodes = true -> first_named key nodes = None ->
  findIndex_name key nodes = Ok None.
Proof.
  intros Ht Hf. rewrite (findIndex_tree key nodes Ht).
  now rewrite (first_named_none _ _ Hf).
Qed.


Lemma is_node_container (id name type : string) (value : JS) :
  is_node (DataNode id name type value) = true ->
  is_container_type type = true ->
  exists children, value = JArray children /\ is_tree children = true.
Proof.
  intros H Hc.
  destruct (is_node_inv _ H) as (id' & name' & type' & value' & E & Hv).
  unfold DataNode in E. injection E as -> -> -> ->.
  rewrite Hc in Hv. exact Hv.
Qed.

Lemma type_of_node (id name type : string) (value : JS) :
  type_of (DataNode id name type value) = Some type.
Proof. reflexivity. Qed.

Lemma children_of_node (id name type : string) (children : list JS) :
  children_of (DataNode id name type (JArray children)) = Some children.
Proof. reflexivity. Qed.

Lemma locate_final (key : string) (nodes : list JS) :
  locate key [] nodes = first_named key nodes.
Proof. simpl. now destruct (first_named key nodes). Qed.

Lemma locate_deeper (key key' : string) (rest' : list string) (nodes : list JS)
    (id type : string) (children : list JS) :
  first_named key nodes = Some (DataNode id key type (JArray children)) ->
  is_container_type type = true ->
  locate key (key' :: rest') nodes = locate key' rest' children.
Proof. intros Hf Hc. simpl. rewrite Hf, type_of_node, children_of_node, Hc. reflexivity. Qed.

Lemma blocked_noop :
  forall (rest : list string) (key : string) (nodes : list JS) (value : JS)
         (type : string) (s : nat),
    is_tree nodes = true ->
    blocked key rest nodes = true ->
    setDeepValue_parts key rest (JArray nodes) value type s = Ok (JArray nodes, s).
Proof.
  induction rest as [|key' rest' IH]; intros key nodes value type s Ht Hb;
    simpl in Hb; [discriminate|].
  destruct (first_named key nodes) as [node|] eqn:Hf; [|discriminate].
  destruct (first_named_tree _ _ _ Ht Hf)
    as (pre & post & id & ty & old & -> & -> & _ & Fp & _ & _ & Hnode & _).
  rewrite type_of_node in Hb.
  destruct (is_container_type ty) eqn:Hc.
  - destruct (is_node_container _ _ _ _ Hnode Hc) as (children & -> & Hch).
    rewrite children_of_node in Hb.
    apply (setDeepValue_hit_container key key' id ty rest' (JArray children)
             pre post value type s s (JArray children) Fp Hc).
    apply IH; assumption.
  - now apply setDeepValue_hit_leaf.
Qed.

Lemma chain_appended :
  forall (rest : list string) (key : string) (nodes : list JS) (value : JS)
         (type : string) (s : nat),
    is_tree nodes = true ->
    first_named key nodes = None ->
    setDeepValue_parts key rest (JArray nodes) value type s
    = Ok (JArray (nodes ++ [chain s key rest value type]), s + S (length rest)).
Proof.
  induction rest as [|key' rest' IH]; intros key nodes value type s Ht Hf.
  - rewrite setDeepValue_miss_final by now apply findIndex_tree_none.
    simpl. now rewrite Nat.add_1_r.
  - rewrite (setDeepValue_miss_deeper key key' rest' nodes value type s
               (S s + S (length rest'))
               (JArray [chain (S s) key' rest' value type])).
    + simpl. do 3 f_equal. lia.
    + now apply findIndex_tree_none.
    + apply (IH key' [] value type (S s)); reflexivity.
Qed.

Lemma container_overwritten :
  forall (rest : list string) (key : string) (nodes : list JS)
         (id name type : string) (children : list JS) (value : JS)
         (type' : string) (s : nat),
    is_tree nodes = true ->
    locate key rest nodes = Some (DataNode id name type (JArray children)) ->
    exists nodes',
      setDeepValue_parts key rest (JArray nodes) value type' s = Ok (JArray nodes', s)
      /\ locate key rest nodes' = Some (DataNode id name type' value)
      /\ length nodes' = length nodes
      /\ (rest = [] -> forall i, index_named key nodes = Some i ->
          nodes' = replace_at i (DataNode id name type' value) nodes).
Proof.
  induction rest as [|key' rest' IH];
    intros key nodes id name type children value type' s Ht Hl; simpl in Hl;
    destruct (first_named key nodes) as [node|] eqn:Hf; try discriminate;
    destruct (first_named_tree _ _ _ Ht Hf)
      as (pre & post & id0 & ty0 & old & -> & -> & Hi & Fp & Hp & _ & Hnode & _).
  - injection Hl as -> -> -> ->.
    exists (pre ++ DataNode id name type' value :: post)%list.
    split; [now apply setDeepValue_hit_final|].
    split.
    { rewrite locate_final. apply first_named_middle; [assumption|].
      rewrite has_name_node. apply String.eqb_refl. }
    split; [now rewrite !length_app|].
    intros _ i Hi'. rewrite Hi in Hi'. injection Hi' as <-.
    now rewrite replace_at_middle.
  - rewrite type_of_node in Hl.
    destruct (children_of (DataNode id0 key ty0 old)) as [ch|] eqn:Hch;
      [|discriminate].
    destruct (is_container_type ty0) eqn:Hc; [|discriminate].
    destruct (is_node_container _ _ _ _ Hnode Hc) as (ch0 & -> & Hch0).
    rewrite children_of_node in Hch. injection Hch as <-.
    destruct (IH key' ch0 id name type children value type' s Hch0 Hl)
      as (ch' & Hset & Hloc & Hlen & _).
    exists (pre ++ DataNode id0 key ty0 (JArray ch') :: post)%list.
    split; [now apply (setDeepValue_hit_container key key' id0 ty0 rest'
                         (JArray ch0) pre post value type' s s (JArray ch'))|].
    split.
    { rewrite (locate_deeper key key' rest' _ id0 ty0 ch'); [exact Hloc| |exact Hc].
      apply first_named_middle; [assumption|]. rewrite has_name_node.
      apply String.eqb_refl. }
    split; [now rewrite !length_app|].
    discriminate.
Qed.

(** A segment that is missing under existing containers: the container
    that the segments before it lead to gets the new chain as its last
    child. *)
Lemma chain_under_containers :
  forall (through : list string) (key0 : string) (nodes : list JS)
         (id name kind : string) (children : list JS) (key : string)
         (rest : list string) (value : JS) (type : string) (s : nat),
    is_tree nodes = true ->
    locate key0 through nodes = Some (DataNode id name kind (JArray children)) ->
    is_container_type kind = true ->
    first_named key children = None ->
    exists nodes',
      setDeepValue_parts key0 (through ++ key :: rest) (JArray nodes) value type s
      = Ok (JArray nodes', s + S (length rest))
      /\ locate key0 through nodes'
         = Some (DataNode id name kind
                   (JArray (children ++ [chain s key rest value type])))
      /\ length nodes' = length nodes.
Proof.
  induction through as [|key1 through IH];
    intros key0 nodes id name kind children key rest value type s Ht Hl Hk Hf;
    simpl in Hl;
    destruct (first_named key0 nodes) as [node|] eqn:Hf0; try discriminate;
    destruct (first_named_tree _ _ _ Ht Hf0)
      as (pre & post & id0 & ty0 & old & -> & -> & _ & Fp & Hp & _ & Hnode & _).
  - injection Hl as -> -> -> ->.
    destruct (is_node_container _ _ _ _ Hnode Hk) as (ch & E & Hch).
    injection E as <-.
    exists (pre ++ DataNode id name kind
                     (JArray (children ++ [chain s key rest value type]))
                :: post)%list.
    split; [|split].
    + rewrite app_nil_l.
      apply (setDeepValue_hit_container name key id kind rest (JArray children)
               pre post value type s (s + S (length rest))
               (JArray (children ++ [chain s key rest value type])) Fp Hk).
      now apply chain_appended.
    + rewrite locate_final. apply first_named_middle; [assumption|].
      rewrite has_name_node. apply String.eqb_refl.
    + now rewrite !length_app.
  - rewrite type_of_node in Hl.
    destruct (children_of (DataNode id0 key0 ty0 old)) as [ch|] eqn:Hch;
      [|discriminate].
    destruct (is_container_type ty0) eqn:Hc; [|discriminate].
    destruct (is_node_container _ _ _ _ Hnode Hc) as (ch0 & -> & Hch0).
    rewrite children_of_node in Hch. injection Hch as <-.
    destruct (IH key1 ch0 id name kind children key rest value type s Hch0 Hl Hk Hf)
      as (ch' & Hset & Hloc & Hlen).
    exists (pre ++ DataNode id0 key0 ty0 (JArray ch') :: post)%list.
    split; [|split].
    + rewrite <- app_comm_cons.
      now apply (setDeepValue_hit_container key0 key1 id0 ty0
                   (through ++ key :: rest) (JArray ch0) pre post value type s
                   (s + S (length rest)) (JArray ch')).
    + rewrite (locate_deeper key0 key1 through _ id0 ty0 ch'); [exact Hloc| |exact Hc].
      apply first_named_middle; [assumption|]. rewrite has_name_node.
      apply String.eqb_refl.
    + now rewrite !length_app.
Qed.

(** ** The claims on [setDeepValue] *)

(** C2. On every tree [setDeepValue] returns, and applying it again with
    the same path, value and kind to what it returned gives that tree
    unchanged, identifiers included, and draws no identifier. *)
Theorem deepSet_idempotent (nodes : list JS) (path : string) (value : JS)
    (type : string) (s : nat) :
  is_tree nodes = true ->
  exists r s',
    setDeepValue (JArray nodes) path value type s = Ok (r, s')
    /\ forall s2, setDeepValue r path value type s2 = Ok (r, s2).
Proof.
  intros Ht. unfold setDeepValue.
  destruct (setDeepValue_parts_total (path_rest path) (path_key path)
              nodes value type s Ht) as (r & s' & H).
  exists (JArray r), s'. split; [exact H|].
  intros s2. exact (setDeepValue_parts_again _ _ _ _ _ _ _ _ H s2).
Qed.

(** C5. A segment of the path that has no child of its name in the
    current sequence, be that the sequence given or the children of the
    containers that the segments before it name, makes [setDeepValue]
    append one node of that name to that sequence: the leaf with the given
    name, kind and value when the segment is the last, and otherwise a new
    dictionary holding, for the rest of the path, the same construction.
    Each new node takes the identifier that [generateId] returns at that
    moment, whatever the identifiers of the tree are.  For [[]] and
    ["a.b.c"] with the number 5 this is a dictionary [a] holding a
    dictionary [b] holding the leaf [c]. *)
Theorem deepSet_creates_missing (nodes : list JS) (path : string) (value : JS)
    (type : string) (s : nat) :
  is_tree nodes = true ->
  (first_named (path_key path) nodes = None ->
   setDeepValue (JArray nodes) path value type s
   = Ok (JArray (nodes ++ [chain s (path_key path) (path_rest path) value type]),
         s + S (length (path_rest path))))
  /\ (forall (through : list string) (key : string) (rest : list string)
             (id name kind : string) (children : list JS),
         path_rest path = (through ++ key :: rest)%list ->
         locate (path_key path) through nodes
         = Some (DataNode id name kind (JArray children)) ->
         is_container_type kind = true ->
         first_named key children = None ->
         exists nodes',
           setDeepValue (JArray nodes) path value type s
           = Ok (JArray nodes', s + S (length rest))
           /\ locate (path_key path) through nodes'
              = Some (DataNode id name kind
                        (JArray (children ++ [chain s key rest value type])))
           /\ length nodes' = length nodes)
  /\ setDeepValue (JArray []) "a.b.c" (JNumber 5) "number" s
     = Ok (JArray [DataNode (nth_id s) "a" "dictionary"
                     (JArray [DataNode (nth_id (S s)) "b" "dictionary"
                                (JArray [DataNode (nth_id (S (S s))) "c" "number"
                                           (JNumber 5)])])],
           S (S (S s))).
Proof.
  intros Ht. split; [|split].
  - intros Hf. now apply chain_appended.
  - intros through key rest id name kind children Hrest Hl Hk Hf.
    unfold setDeepValue. fold (path_key path). fold (path_rest path).
    rewrite Hrest. now apply chain_under_containers.
  - reflexivity.
Qed.

(** C8. When a non-final segment of the path names an existing child that
    is neither a dictionary nor a list, every segment before it naming an
    existing container, [setDeepValue] returns the tree it was given, draws
    no identifier and throws nothing. *)
Theorem deepSet_blocked_is_noop (nodes : list JS) (path : string) (value : JS)
    (type : string) (s : nat) :
  is_tree nodes = true ->
  blocked (path_key path) (path_rest path) nodes = true ->
  setDeepValue (JArray nodes) path value type s = Ok (JArray nodes, s).
Proof. intros Ht Hb. now apply blocked_noop. Qed.

(** C10. When the path names, through existing containers, a child that is
    a dictionary or a list, [setDeepValue] puts the given kind and value
    in that child, keeps its identifier and name, creates no node and
    leaves every sequence at its length: the container's children are
    gone.  When the path has one segment the result is the sequence with
    that one element replaced. *)
Theorem deepSet_overwrites_container (nodes : list JS) (path : string)
    (id name type : string) (children : list JS) (value : JS) (type' : string)
    (s : nat) :
  is_tree nodes = true ->
  locate (path_key path) (path_rest path) nodes
  = Some (DataNode id name type (JArray children)) ->
  is_container_type type = true ->
  exists nodes',
    setDeepValue (JArray nodes) path value type' s = Ok (JArray nodes', s)
    /\ locate (path_key path) (path_rest path) nodes'
       = Some (DataNode id name type' value)
    /\ length nodes' = length nodes
    /\ (path_rest path = [] ->
        forall i, index_named (path_key path) nodes = Some i ->
                  nodes' = replace_at i (DataNode id name type' value) nodes).
Proof.
  intros Ht Hl _. unfold setDeepValue.
  exact (container_overwritten _ _ _ _ _ _ _ value type' s Ht Hl).
Qed.


(** ** [resolvePath] on a tree *)

Lemma truthy_node (v : JS) : is_node v = true -> truthy v = true.
Proof.
  intros H. destruct (is_node_inv v H) as (id & name & type & value & -> & _).
  reflexivity.
Qed.

Lemma first_named_is_node (key : string) (nodes : list JS) (n : JS) :
  is_tree nodes = true -> first_named key nodes = Some n -> is_node n = true.
Proof.
  intros Ht Hf.
  destruct (first_named_split _ _ _ Hf) as (pre & post & -> & _).
  now destruct (is_tree_middle _ _ _ Ht) as (_ & Hn & _).
Qed.

Lemma nth_error_is_node (nodes : list JS) (i : nat) (n : JS) :
  is_tree nodes = true -> nth_error nodes i = Some n -> is_node n = true.
Proof.
  intros Ht Hn. apply nth_error_In in Hn.
  unfold is_tree in Ht. rewrite forallb_forall in Ht. now apply Ht.
Qed.

Lemma nth_or_undefined (items : list JS) (i : nat) :
  nth i items JUndefined = or_undefined (nth_error items i).
Proof.
  revert i. induction items as [|a items IH]; intros [|i]; simpl; auto.
Qed.

Lemma at_index_parseInt (items : list JS) (seg : string) :
  at_index items (parseInt seg)
  = or_undefined (match parseInt_index seg with
                  | Some i => nth_error items i
                  | None => None
                  end).
Proof.
  unfold at_index, parseInt_index. destruct (parseInt seg) as [z|]; [|reflexivity].
  destruct (z <? 0)%Z; [reflexivity|]. apply nth_or_undefined.
Qed.

Lemma select_is_node (index : string -> option nat) (seg : string)
    (nodes : list JS) (n : JS) :
  is_tree nodes = true -> select index seg nodes = Some n -> is_node n = true.
Proof.
  intros Ht. unfold select.
  destruct (first_named seg nodes) as [m|] eqn:Hf.
  - intros H. inversion H; subst. eapply first_named_is_node; eassumption.
  - destruct (index seg) as [i|]; [|discriminate].
    intros H. eapply nth_error_is_node; eassumption.
Qed.

Lemma is_node_children (id name type : string) (children : list JS) :
  is_node (DataNode id name type (JArray children)) = true ->
  is_tree children = true.
Proof.
  intros H. destruct (is_node_inv _ H) as (id' & name' & type' & value' & E & Hv).
  unfold DataNode in E. injection E as E1 E2 E3 E4. subst id' name' type' value'.
  destruct (is_container_type type).
  - destruct Hv as (ch & E & Hc). now injection E as ->.
  - discriminate.
Qed.

Lemma walk_is_node (index : string -> option nat) :
  forall (segs : list string) (nodes : list JS) (n : JS),
    is_tree nodes = true -> walk index segs nodes = Some n -> is_node n = true.
Proof.
  induction segs as [|seg segs IH]; intros nodes n Ht H; simpl in H; [discriminate|].
  destruct (select index seg nodes) as [m|] eqn:Hs; [|discriminate].
  pose proof (select_is_node _ _ _ _ Ht Hs) as Hm.
  destruct segs as [|seg' segs']; [now inversion H; subst|].
  destruct (is_node_inv _ Hm) as (id & name & type & value & -> & _).
  destruct value; try discriminate.
  rewrite children_of_node in H.
  eapply IH; [|exact H]. eapply is_node_children; eassumption.
Qed.

(** The loop of [resolvePath] on a tree: it throws nothing, and what it
    returns is what the walk by name, then by [parseInt], finds. *)
Lemma resolve_loop_walk :
  forall (parts : list string) (nodes : list JS),
    is_tree nodes = true ->
    resolve_loop parts (JArray nodes)
    = Ok (or_undefined (walk parseInt_index parts nodes)).
Proof.
  induction parts as [|part parts IH]; intros nodes Ht; [reflexivity|].
  cbn [resolve_loop walk]. rewrite (find_name_tree part nodes Ht).
  cbn [bind]. rewrite at_index_parseInt.
  assert (Hsel :
    (if truthy (or_undefined (first_named part nodes))
     then or_undefined (first_named part nodes)
     else or_undefined (match parseInt_index part with
                        | Some i => nth_error nodes i
                        | None => None
                        end))
    = or_undefined (select parseInt_index part nodes)).
  { unfold select. destruct (first_named part nodes) as [m|] eqn:Hf; [|reflexivity].
    simpl. now rewrite (truthy_node m (first_named_is_node _ _ _ Ht Hf)). }
  rewrite Hsel. clear Hsel.
  destruct (select parseInt_index part nodes) as [n|] eqn:Hs; [|reflexivity].
  pose proof (select_is_node _ _ _ _ Ht Hs) as Hn.
  simpl or_undefined. rewrite (truthy_node n Hn). cbn [negb].
  destruct parts as [|part' parts']; [reflexivity|].
  destruct (is_node_inv _ Hn) as (id & name & type & value & -> & _).
  read_fields.
  fold (DataNode id name type value).
  destruct value; try reflexivity.
  rewrite children_of_node. apply IH.
  eapply is_node_children; eassumption.
Qed.


(** ** [parseInt] on decimal numerals *)

Lemma digit_not_space (c : ascii) : is_digit c = true -> is_space c = false.
Proof.
  destruct c as [[] [] [] [] [] [] [] []]; intros H;
    try reflexivity; vm_compute in H; discriminate H.
Qed.

Lemma digit_value_nonneg (radix : Z) (c : ascii) (d : Z) :
  digit_value radix c = Some d -> (0 <= d)%Z.
Proof.
  unfold digit_value.
  destruct (is_digit c) eqn:Hd; [|destruct (is_lower c) eqn:Hl;
                                   [|destruct (is_upper c) eqn:Hu; [|discriminate]]].
  all: match goal with
       | |- context [(?x <? ?r)%Z] => destruct (x <? r)%Z; [|discriminate]
       end;
    intros H; inversion H; subst d.
  all: match goal with
       | E : _ ?c = true |- _ =>
           unfold is_digit, is_lower, is_upper, in_range in E;
           apply andb_prop in E as [E _]; apply Nat.leb_le in E
       end; lia.
Qed.

Lemma parse_digits_nonneg (radix : Z) :
  (0 <= radix)%Z ->
  forall (s : string) (acc : option Z) (z : Z),
    (forall a, acc = Some a -> (0 <= a)%Z) ->
    parse_digits radix s acc = Some z -> (0 <= z)%Z.
Proof.
  intros Hr. induction s as [|c s IH]; intros acc z Hacc H; simpl in H.
  - now apply Hacc.
  - destruct (digit_value radix c) as [d|] eqn:Hd; [|now apply Hacc].
    apply digit_value_nonneg in Hd.
    eapply IH; [|exact H].
    intros a Ha. inversion Ha; subst a.
    destruct acc as [a0|]; [|assumption].
    specialize (Hacc a0 eq_refl). nia.
Qed.

Lemma parseInt_decimal (seg : string) :
  negb (String.eqb seg "") && string_forall is_digit seg = true ->
  parseInt seg = parse_digits 10 seg None.
Proof.
  destruct seg as [|c s']; [discriminate|].
  cbn [String.eqb negb andb string_forall]. intros H.
  apply andb_prop in H as [Hc Hs].
  unfold parseInt.
  assert (Hsp : span is_space (String c s') = ("", String c s'))
    by (cbn [span]; now rewrite (digit_not_space c Hc)).
  rewrite Hsp. cbn [snd]. clear Hsp.
  destruct c as [[] [] [] [] [] [] [] []];
    try (vm_compute in Hc; discriminate Hc); cbv beta iota;
    try (destruct (parse_digits 10 _ None); reflexivity).
  destruct s' as [|c2 s'']; [reflexivity|].
  cbn [string_forall] in Hs. apply andb_prop in Hs as [Hc2 _].
  destruct c2 as [[] [] [] [] [] [] [] []];
    try (vm_compute in Hc2; discriminate Hc2); cbv beta iota;
    destruct (parse_digits 10 _ None); reflexivity.
Qed.

Lemma decimal_index_parseInt (seg : string) (i : nat) :
  decimal_index seg = Some i -> parseInt_index seg = Some i.
Proof.
  unfold decimal_index, parseInt_index.
  destruct (negb (String.eqb seg "") && string_forall is_digit seg) eqn:E;
    [|discriminate].
  rewrite (parseInt_decimal seg E).
  destruct (parse_digits 10 seg None) as [z|] eqn:P; [|discriminate].
  intros H. simpl in H. inversion H; subst i.
  assert (0 <= z)%Z as Hz.
  { eapply (parse_digits_nonneg 10); [lia| |exact P]. discriminate. }
  apply Z.ltb_ge in Hz. now rewrite Hz.
Qed.

(** ** The claim on [resolvePath] *)

(** C7, amended.  On every tree [resolvePath] throws nothing and follows
    the path segment by segment: a child whose name equals the segment is
    taken first; only when no name matches is the segment read as a
    zero-based index into the same sequence, and it is read by [parseInt],
    which gives a decimal numeral its value and also accepts a numeric
    prefix and the hexadecimal form; when neither gives a child, or a
    non-final segment lands on a node whose value is no sequence, the
    result is [undefined]; on the final segment the result is the node
    itself. *)
Theorem resolve_by_name_then_parseInt (nodes : list JS) (path : string) :
  is_tree nodes = true ->
  resolvePath (JArray nodes) path
  = Ok (or_undefined (walk parseInt_index (split_dot path) nodes))
  /\ (forall n, walk parseInt_index (split_dot path) nodes = Some n ->
                is_node n = true)
  /\ (forall seg i, decimal_index seg = Some i -> parseInt_index seg = Some i).
Proof.
  intros Ht. split; [|split].
  - now apply resolve_loop_walk.
  - intros n. now apply walk_is_node.
  - apply decimal_index_parseInt.
Qed.


(** ** [evaluateExpression] *)

Lemma js_String_array_cons (x : JS) (l : list JS) :
  js_String (JArray (x :: l))
  = (sx <- match x with
           | JUndefined => Ok ""
           | JNull => Ok ""
           | _ => js_String x
           end;;
     match l with
     | [] => Ok sx
     | _ => sr <- js_String (JArray l);; Ok (sx ++ "," ++ sr)
     end)%js.
Proof. reflexivity. Qed.

Lemma js_String_node (id name type : string) (value : JS) :
  js_String (JObject [("id", JString id); ("name", JString name);
                      ("type", JString type); ("value", value)])
  = Ok "[object Object]".
Proof. reflexivity. Qed.

Lemma js_String_tree (nodes : list JS) :
  is_tree nodes = true -> exists s, js_String (JArray nodes) = Ok s.
Proof.
  induction nodes as [|n nodes IH]; intros Ht; [now exists ""|].
  rewrite is_tree_cons in Ht. apply andb_prop in Ht as [Hn Ht].
  destruct (is_node_inv _ Hn) as (id & name & type & value & -> & _).
  rewrite js_String_array_cons. unfold DataNode. cbv beta iota.
  rewrite js_String_node. cbn [bind].
  destruct nodes as [|m nodes]; [eexists; reflexivity|].
  destruct (IH Ht) as (sr & ->). eexists; reflexivity.
Qed.

Lemma js_String_payload (id name type : string) (value : JS) :
  is_node (DataNode id name type value) = true ->
  exists s, js_String value = Ok s.
Proof.
  intros H. destruct (is_node_inv _ H) as (id' & name' & type' & value' & E & Hv).
  unfold DataNode in E. injection E as E1 E2 E3 E4. subst id' name' type' value'.
  destruct (is_container_type type).
  - destruct Hv as (ch & -> & Hc). now apply js_String_tree.
  - destruct value; try discriminate; eexists; reflexivity.
Qed.

(** The replacer on a tree: the message of a missing key, or a value that
    converts to a string. *)
Lemma replacer_tree (nodes : list JS) (path : string) :
  is_tree nodes = true ->
  match walk parseInt_index (split_dot path) nodes with
  | None => replacer (JArray nodes) path = Throw ("Key not found: " ++ path)
  | Some _ => exists r piece, replacer (JArray nodes) path = Ok r
                            /\ js_String r = Ok piece
  end.
Proof.
  intros Ht. unfold replacer, resolvePath.
  rewrite (resolve_loop_walk _ _ Ht). cbn [bind].
  destruct (walk parseInt_index (split_dot path) nodes) as [n|] eqn:W;
    [|reflexivity].
  pose proof (walk_is_node _ _ _ _ Ht W) as Hn.
  simpl or_undefined. rewrite (truthy_node n Hn). cbn [negb].
  destruct (is_node_inv _ Hn) as (id & name & type & value & -> & _).
  read_fields.
  fold (DataNode id name type value) in Hn.
  change (is_string (JString type) "expression") with (String.eqb type "expression").
  destruct (js_String_payload _ _ _ _ Hn) as (s & Hs).
  destruct (String.eqb type "expression").
  - now exists value, s.
  - rewrite Hs. now exists (JString s), s.
Qed.

Lemma replace_refs_tree (nodes : list JS) :
  is_tree nodes = true ->
  forall (s : string) (skip : nat),
    match first_unresolved (JArray nodes) (ref_tokens_from s skip) with
    | Some q => replace_refs (JArray nodes) s skip = Throw ("Key not found: " ++ q)
    | None => exists out, replace_refs (JArray nodes) s skip = Ok out
    end.
Proof.
  intros Ht. induction s as [|c s IH]; intros skip.
  - simpl. eexists; reflexivity.
  - cbn [ref_tokens_from replace_refs]. destruct skip as [|k]; [|apply IH].
    destruct (match_ref (String c s)) as [[path len]|].
    + cbn [first_unresolved]. unfold resolvePath.
      rewrite (resolve_loop_walk _ _ Ht).
      pose proof (replacer_tree nodes path Ht) as R.
      destruct (walk parseInt_index (split_dot path) nodes) as [n|] eqn:W.
      * simpl or_undefined.
        rewrite (truthy_node n (walk_is_node _ _ _ _ Ht W)).
        destruct R as (r & piece & -> & Hpiece). cbn [bind]. rewrite Hpiece.
        cbn [bind].
        specialize (IH len).
        destruct (first_unresolved (JArray nodes) (ref_tokens_from s len)).
        -- now rewrite IH.
        -- destruct IH as (out & ->). eexists; reflexivity.
      * simpl. now rewrite R.
    + specialize (IH 0%nat).
      destruct (first_unresolved (JArray nodes) (ref_tokens_from s 0)).
      * now rewrite IH.
      * destruct IH as (out & ->). eexists; reflexivity.
Qed.

Lemma first_unresolved_exists (nodes : list JS) :
  is_tree nodes = true ->
  forall (paths : list string) (p : string),
    In p paths -> resolvePath (JArray nodes) p = Ok JUndefined ->
    exists q, first_unresolved (JArray nodes) paths = Some q
              /\ In q paths /\ resolvePath (JArray nodes) q = Ok JUndefined.
Proof.
  intros Ht. induction paths as [|a paths IH]; intros p Hin Hp; [contradiction|].
  cbn [first_unresolved].
  assert (Ha : resolvePath (JArray nodes) a
               = Ok (or_undefined (walk parseInt_index (split_dot a) nodes)))
    by now apply resolve_loop_walk.
  rewrite Ha.
  destruct (walk parseInt_index (split_dot a) nodes) as [n|] eqn:W.
  - simpl or_undefined. rewrite (truthy_node n (walk_is_node _ _ _ _ Ht W)).
    destruct Hin as [<-|Hin].
    + rewrite Ha in Hp. simpl in Hp. inversion Hp; subst n.
      discriminate (walk_is_node _ _ _ _ Ht W).
    + destruct (IH p Hin Hp) as (q & Hq & Hqin & Hqr).
      exists q. repeat split; [assumption|now right|assumption].
  - exists a. repeat split; [now left|exact Ha].
Qed.

Lemma ref_tokens_nonempty (formula p : string) :
  In p (ref_tokens formula) -> String.eqb formula "" = false.
Proof. destruct formula; [contradiction|reflexivity]. Qed.

(** C4. On every tree, a formula with a reference token whose path does
    not resolve evaluates to the result ["ERR"] with the error
    ["Key not found: "] followed by the path of the first such token;
    [evaluateExpression] is a function of the formula and the tree, and
    returns no tree. *)
Theorem unresolved_reference_gives_ERR (nodes : list JS) (formula p : string) :
  is_tree nodes = true ->
  In p (ref_tokens formula) ->
  resolvePath (JArray nodes) p = Ok JUndefined ->
  exists q,
    first_unresolved (JArray nodes) (ref_tokens formula) = Some q
    /\ In q (ref_tokens formula)
    /\ resolvePath (JArray nodes) q = Ok JUndefined
    /\ evaluateExpression formula (JArray nodes)
       = mkEvalResult (JString "ERR") (Some ("Key not found: " ++ q)).
Proof.
  intros Ht Hin Hp.
  destruct (first_unresolved_exists nodes Ht _ _ Hin Hp) as (q & Hq & Hqin & Hqr).
  exists q. repeat split; try assumption.
  unfold evaluateExpression. rewrite (ref_tokens_nonempty _ _ Hin).
  pose proof (replace_refs_tree nodes Ht formula 0) as R.
  fold (ref_tokens formula) in R. rewrite Hq in R.
  unfold substitute. now rewrite R.
Qed.

Lemma string_forall_exists (p : ascii -> bool) (s : string) :
  string_exists (fun c => negb (p c)) s = true -> string_forall p s = false.
Proof.
  induction s as [|c s IH]; simpl; [discriminate|].
  destruct (p c); simpl; [exact IH|reflexivity].
Qed.

Lemma substitute_with_reference (formula : string) (root : JS) (resolved : string) :
  substitute formula root = Ok (resolved, true) -> String.eqb formula "" = false.
Proof. destruct formula; [discriminate|reflexivity]. Qed.

Lemma evaluate_not_strict (formula : string) (root : JS) (resolved : string) :
  substitute formula root = Ok (resolved, true) ->
  string_exists (fun c => negb (strict_char c)) resolved = true ->
  evaluateExpression formula root = mkEvalResult (JString resolved) None.
Proof.
  intros Hs Hc. unfold evaluateExpression.
  rewrite (substitute_with_reference _ _ _ Hs), Hs. cbn [bind fst snd].
  unfold strict_math. rewrite (string_forall_exists _ _ Hc), andb_false_r.
  cbn [negb].
  now destruct (has_math_char resolved || negb (isNaN_Number resolved)).
Qed.

(** C6. When the references of a formula were substituted, at least one of
    them, and the substituted string has a character that is no digit,
    none of [+ - * / ( ) .] and no white space, [evaluateExpression]
    returns that string as the result, with no error, whatever running it
    as a function would give. *)
Theorem text_outside_strict_charset (formula : string) (root : JS)
    (resolved : string) :
  substitute formula root = Ok (resolved, true) ->
  string_exists (fun c => negb (strict_char c)) resolved = true ->
  evaluateExpression formula root = mkEvalResult (JString resolved) None.
Proof. apply evaluate_not_strict. Qed.

Lemma string_exists_app (p : ascii -> bool) (a b : string) :
  string_exists p (a ++ b) = string_exists p a || string_exists p b.
Proof.
  induction a as [|c a IH]; simpl; [reflexivity|]. now rewrite IH, orb_assoc.
Qed.

(** C3.  The substituted string of ["{{a}} % 3"], for a number [a] of
    value 10, is a modulo expression; [evaluateExpression] returns it as
    text and runs nothing.  The same holds when the operands are the texts
    ["10"] and ["3"]. *)
Theorem modulo_is_returned_as_text :
  evaluateExpression "{{a}} % 3"
    (JArray [DataNode "1" "a" "number" (JNumber 10)])
  = mkEvalResult (JString (number_to_string 10 ++ " % 3")) None
  /\ evaluateExpression "{{a}} % {{b}}"
       (JArray [DataNode "1" "a" "text" (JString "10");
                DataNode "2" "b" "text" (JString "3")])
     = mkEvalResult (JString "10 % 3") None.
Proof.
  split; [|reflexivity].
  assert (Hs : substitute "{{a}} % 3"
                 (JArray [DataNode "1" "a" "number" (JNumber 10)])
               = Ok (number_to_string 10 ++ " % 3", true)) by reflexivity.
  apply (evaluate_not_strict _ _ _ Hs).
  rewrite string_exists_app. apply orb_true_r.
Qed.


(** ** The JSON codec *)

Lemma exportData_array (items : list JS) :
  exportData (JArray items)
  = forEach_set (export_node exportData) items (mkBuilt [] true).
Proof. reflexivity. Qed.

(** For every key but [__proto__] the assignment creates or overwrites an
    own property. *)
Lemma assign_plain (k : string) (v : JS) (v_setter : bool) (o : Built) :
  String.eqb k "__proto__" = false ->
  assign k v v_setter o = mkBuilt (obj_set k v (own o)) (setter o).
Proof. intros Hk. unfold assign. now rewrite Hk. Qed.

(** What an assignment leaves under a name other than [__proto__]. *)
Lemma lookup_assign (name k : string) (v : JS) (v_setter : bool) (o : Built) :
  String.eqb name "__proto__" = false ->
  lookup name (own (assign k v v_setter o))
  = if String.eqb k name then Some v else lookup name (own o).
Proof.
  intros Hn. destruct (String.eqb k name) eqn:E.
  - apply String.eqb_eq in E. subst k. rewrite assign_plain by exact Hn.
    apply lookup_obj_set_same.
  - unfold assign.
    destruct (String.eqb k "__proto__" && negb (has_key k (own o)) && setter o).
    + now destruct v.
    + now apply lookup_obj_set_other.
Qed.

Lemma with_value_node {A} (k : JS -> A) (missing : A) (id name type : string)
    (value : JS) :
  with_value k missing (DataNode id name type value) = k value.
Proof. reflexivity. Qed.

(** The elements of an imported array, exported, are the elements: an
    element that is no array is stored and returned as it is. *)
Lemma import_items_export :
  forall (items : list JS) (idx s : nat),
    forallb (fun x => negb (isArray x)) items = true ->
    exists its,
      import_items idx items s = Ok (its, s + length items)
      /\ map_result (export_item exportData) its = Ok items.
Proof.
  induction items as [|item items IH]; intros idx s Hc.
  - exists []. split; [|reflexivity]. simpl. unfold ret. now rewrite Nat.add_0_r.
  - cbn [forallb] in Hc. apply andb_prop in Hc as [Hi Hc].
    destruct (IH (S idx) (S s) Hc) as (its & Himp & Hexp).
    eexists. split.
    + cbn [import_items]. unfold bindM, generateId. rewrite Himp.
      unfold ret. cbn [length]. do 2 f_equal. lia.
    + cbn [map_result]. unfold export_item at 1.
      unfold get at 1. unfold DataNode at 1. rewrite lookup_node_type.
      cbn [bind]. rewrite with_value_node.
      destruct item; try discriminate Hi;
        cbn [isArray]; rewrite andb_false_r; cbn [bind]; now rewrite Hexp.
Qed.

Lemma import_entry_array (imported : M JS) (key : string) (items : list JS) :
  import_entry imported key (JArray items)
  = (finalValue <~ (its <~ import_items 0 items;; ret (JArray its));;
     id <~ generateId;;
     ret (DataNode id key "list" finalValue))%jsm.
Proof. reflexivity. Qed.

Lemma import_entry_object (imported : M JS) (key : string)
    (props : list (string * JS)) :
  import_entry imported key (JObject props)
  = (finalValue <~ imported;;
     id <~ generateId;;
     ret (DataNode id key "dictionary" finalValue))%jsm.
Proof. reflexivity. Qed.

Lemma import_entry_export (key : string) (val : JS) (s : nat) :
  json_class val = true ->
  proto_free val = true ->
  object_round_trip val ->
  exists node s',
    import_entry (parseImport val) key val s = Ok (node, s')
    /\ export_node exportData node = Ok (key, (val, true)).
Proof.
  intros Hc Hp Hobj. destruct val; try discriminate Hc.
  - eexists _, _. split; reflexivity.
  - eexists _, _. split; reflexivity.
  - eexists _, _. split; reflexivity.
  - assert (Hna : forallb (fun x => negb (isArray x)) items = true).
    { cbn [json_class] in Hc. rewrite forallb_forall in Hc |- *.
      intros x Hx. specialize (Hc x Hx). now apply andb_prop in Hc as [Hc _]. }
    destruct (import_items_export items 0 s Hna) as (its & Himp & Hexp).
    eexists _, _. split.
    + rewrite import_entry_array. unfold bindM. rewrite Himp.
      unfold ret, generateId. reflexivity.
    + unfold export_node. read_fields.
      fold (DataNode (nth_id (s + length items)) key "list" (JArray its)).
      rewrite with_value_node.
      change (is_string (JString "list") "dictionary") with false.
      change (is_string (JString "list") "list") with true.
      cbv beta iota. rewrite Hexp. reflexivity.
  - destruct (Hobj props eq_refl Hc Hp s) as (nodes & s' & Himp & Hexp).
    eexists _, _. split.
    + rewrite import_entry_object. unfold bindM. rewrite Himp.
      unfold ret, generateId. reflexivity.
    + unfold export_node. read_fields.
      fold (DataNode (nth_id s') key "dictionary" (JArray nodes)).
      rewrite with_value_node.
      change (is_string (JString "dictionary") "dictionary") with true.
      cbv beta iota. rewrite Hexp. reflexivity.
Qed.

Lemma not_in_keys_app (k : string) (res : list (string * JS)) (k' : string) (v : JS) :
  existsb (String.eqb k) (keys res) = false ->
  String.eqb k k' = false ->
  existsb (String.eqb k) (keys (res ++ [(k', v)])) = false.
Proof.
  intros Hr Hk. unfold keys. rewrite map_app, existsb_app.
  fold (keys res). rewrite Hr. simpl. now rewrite Hk.
Qed.

Lemma import_props_export :
  forall (ps : list (string * JS)),
    Forall (fun kv => object_round_trip (snd kv)) ps ->
    unique (keys ps) = true ->
    forallb (fun kv => json_class (snd kv)) ps = true ->
    proto_free (JObject ps) = true ->
    forall s, exists nodes s',
      import_props parseImport ps s = Ok (nodes, s')
      /\ forall res flag,
           (forall k, In k (keys ps) -> existsb (String.eqb k) (keys res) = false) ->
           forEach_set (export_node exportData) nodes (mkBuilt res flag)
           = Ok (mkBuilt (res ++ ps) flag).
Proof.
  induction ps as [|[key val] ps IH]; intros Hrt Hu Hc Hp s.
  - exists [], s. split; [reflexivity|].
    intros res flag _. simpl. now rewrite app_nil_r.
  - inversion Hrt as [|? ? Hval Hrest]; subst.
    cbn [keys map fst unique] in Hu. apply andb_prop in Hu as [Hk Hu].
    apply negb_true_iff in Hk.
    cbn [forallb snd] in Hc. apply andb_prop in Hc as [Hcv Hc].
    cbn [proto_free forallb fst snd] in Hp. apply andb_prop in Hp as [Hpk Hp].
    apply andb_prop in Hpk as [Hkey Hpv]. apply negb_true_iff in Hkey.
    destruct (import_entry_export key val s Hcv Hpv Hval)
      as (node & s1 & Hent & Hexp).
    destruct (IH Hrest Hu Hc Hp s1) as (nodes & s' & Himp & Hall).
    exists (node :: nodes), s'. split.
    + cbn [import_props]. unfold bindM at 1. rewrite Hent.
      unfold bindM at 1. rewrite Himp. reflexivity.
    + intros res flag Hres. cbn [forEach_set]. rewrite Hexp. cbn [bind fst snd].
      rewrite assign_plain by exact Hkey. cbn [own setter].
      rewrite obj_set_fresh by (apply Hres; now left).
      rewrite Hall.
      * now rewrite <- app_assoc.
      * intros k Hin. apply not_in_keys_app.
        -- apply Hres. now right.
        -- destruct (String.eqb k key) eqn:E; [|reflexivity].
           apply String.eqb_eq in E. subst k.
           fold (keys ps) in Hk. rewrite <- Hk. symmetry.
           apply existsb_exists. exists key. split; [exact Hin|apply String.eqb_refl].
Qed.

Lemma objects_round_trip (v : JS) : object_round_trip v.
Proof.
  induction v as [| | | | | items _ | props IH] using JS_nested_ind;
    intros props' E Hc; try discriminate E.
  injection E as <-. intros Hp s.
  cbn [json_class] in Hc. apply andb_prop in Hc as [Hu Hc].
  destruct (import_props_export props IH Hu Hc Hp s) as (nodes & s' & Himp & Hexp).
  exists nodes, s'. split.
  - cbn [parseImport]. unfold bindM. now rewrite Himp.
  - rewrite exportData_array. now rewrite Hexp.
Qed.

(** C1. For every JSON object built from strings, numbers, booleans,
    objects, and arrays whose elements are no arrays, in which no object
    outside of the arrays has a key [__proto__], [parseImport] returns a
    node sequence, and [exportData] of that sequence is the object: the
    same keys in the same order with the same values. *)
Theorem export_import_round_trip (props : list (string * JS)) (s : nat) :
  json_class (JObject props) = true ->
  proto_free (JObject props) = true ->
  exists nodes s' out,
    parseImport (JObject props) s = Ok (JArray nodes, s')
    /\ exportData (JArray nodes) = Ok out
    /\ built_value out = JObject props.
Proof.
  intros Hc Hp.
  destruct (objects_round_trip _ props eq_refl Hc Hp s) as (nodes & s' & Hi & He).
  exists nodes, s', (mkBuilt props true). repeat split; assumption.
Qed.


(** Induction on trees: a sequence is reached after the children of its
    nodes. *)
Lemma tree_ind (Q : list JS -> Prop) :
  Q [] ->
  (forall id name type value rest,
      is_node (DataNode id name type value) = true ->
      (forall children, value = JArray children -> Q children) ->
      Q rest ->
      Q (DataNode id name type value :: rest)) ->
  forall nodes, is_tree nodes = true -> Q nodes.
Proof.
  intros Hnil Hcons.
  assert (H : forall v : JS,
             (forall nodes, v = JArray nodes -> is_tree nodes = true -> Q nodes)
             /\ (forall id name type children,
                    v = DataNode id name type (JArray children) ->
                    is_tree children = true -> Q children)).
  { induction v as [| | | | | items IH | props IH] using JS_nested_ind;
      split; intros; try discriminate.
    - match goal with E : JArray _ = JArray _ |- _ => injection E as <- end.
      match goal with T : is_tree _ = true |- _ => revert T end.
      induction IH as [|n items Hn _ IHitems]; intros Ht; [exact Hnil|].
      rewrite is_tree_cons in Ht. apply andb_prop in Ht as [Hnode Ht].
      destruct (is_node_inv _ Hnode) as (id & name & type & value & -> & _).
      apply Hcons; [exact Hnode| |now apply IHitems].
      intros children ->. destruct Hn as [_ Hn].
      apply (Hn id name type children eq_refl).
      eapply is_node_children; eassumption.
    - match goal with E : JObject _ = DataNode _ _ _ _ |- _ =>
        unfold DataNode in E; injection E as ->
      end.
      inversion IH as [|? ? _ IH1]; subst.
      inversion IH1 as [|? ? _ IH2]; subst.
      inversion IH2 as [|? ? _ IH3]; subst.
      inversion IH3 as [|? ? Hv _]; subst.
      cbn [snd] in Hv. destruct Hv as [Hv _]. now apply (Hv children). }
  intros nodes Ht. exact (proj1 (H (JArray nodes)) nodes eq_refl Ht).
Qed.

Lemma export_node_leaf (id name type : string) (value : JS) :
  isArray value = false ->
  export_node exportData (DataNode id name type value) = Ok (name, (value, true)).
Proof.
  intros Hv. unfold export_node. read_fields.
  fold (DataNode id name type value). rewrite with_value_node.
  destruct value; try discriminate Hv; reflexivity.
Qed.

Lemma export_node_dictionary (id name : string) (children : list JS) :
  export_node exportData (DataNode id name "dictionary" (JArray children))
  = (o <- exportData (JArray children);;
     Ok (name, (built_value o, setter o)))%js.
Proof.
  unfold export_node. read_fields.
  fold (DataNode id name "dictionary" (JArray children)). rewrite with_value_node.
  change (is_string (JString "dictionary") "dictionary") with true.
  cbv beta iota. now destruct (exportData (JArray children)).
Qed.

Lemma export_node_list (id name : string) (items : list JS) :
  export_node exportData (DataNode id name "list" (JArray items))
  = (arr <- map_result (export_item exportData) items;;
     Ok (name, (JArray arr, true)))%js.
Proof.
  unfold export_node. read_fields.
  fold (DataNode id name "list" (JArray items)). rewrite with_value_node.
  change (is_string (JString "list") "dictionary") with false.
  change (is_string (JString "list") "list") with true.
  cbv beta iota. now destruct (map_result (export_item exportData) items).
Qed.

Lemma export_item_leaf (id name type : string) (value : JS) :
  isArray value = false ->
  export_item exportData (DataNode id name type value) = Ok value.
Proof.
  intros Hv. unfold export_item. read_fields. fold (DataNode id name type value). rewrite with_value_node.
  now rewrite Hv, andb_false_r.
Qed.

Lemma export_item_container (id name type : string) (children : list JS) :
  is_container_type type = true ->
  export_item exportData (DataNode id name type (JArray children))
  = (o <- exportData (JArray children);; Ok (built_value o))%js.
Proof.
  intros Hc. unfold export_item. read_fields. fold (DataNode id name type (JArray children)).
  rewrite with_value_node.
  change (is_string (JString type) "dictionary") with (String.eqb type "dictionary").
  change (is_string (JString type) "list") with (String.eqb type "list").
  unfold is_container_type in Hc. now rewrite Hc.
Qed.

(** [exportData] returns on every tree, and the key of a node is its name. *)
Lemma export_tree_total (nodes : list JS) :
  is_tree nodes = true ->
  (forall res, exists out,
      forEach_set (export_node exportData) nodes res = Ok out)
  /\ (exists arr, map_result (export_item exportData) nodes = Ok arr)
  /\ (forall n, In n nodes ->
                exists name e, name_of n = Some name
                               /\ export_node exportData n = Ok (name, e)).
Proof.
  revert nodes. apply tree_ind.
  - split; [|split].
    + intros res. now exists res.
    + now exists [].
    + intros n [].
  - intros id name type value rest Hnode Hch (Hrest1 & Hrest2 & Hrest3).
    assert (Hn : exists e, export_node exportData (DataNode id name type value)
                           = Ok (name, e)).
    { destruct (is_node_inv _ Hnode) as (id' & name' & type' & value' & E & Hv).
      unfold DataNode in E. injection E as E1 E2 E3 E4. subst id' name' type' value'.
      destruct (is_container_type type) eqn:Hc.
      - destruct Hv as (children & -> & Hct).
        destruct (Hch children eq_refl) as (Hall & Harr & _).
        unfold is_container_type in Hc. apply orb_prop in Hc as [Hc|Hc];
          apply String.eqb_eq in Hc; subst type.
        + rewrite export_node_dictionary, exportData_array.
          destruct (Hall (mkBuilt [] true)) as (out & ->). eexists; reflexivity.
        + rewrite export_node_list. destruct Harr as (arr & ->).
          eexists; reflexivity.
      - exists (value, true). apply export_node_leaf.
        destruct value; try reflexivity; discriminate Hv. }
    assert (Hi : exists e, export_item exportData (DataNode id name type value)
                           = Ok e).
    { destruct (is_node_inv _ Hnode) as (id' & name' & type' & value' & E & Hv).
      unfold DataNode in E. injection E as E1 E2 E3 E4. subst id' name' type' value'.
      destruct (is_container_type type) eqn:Hc.
      - destruct Hv as (children & -> & Hct).
        destruct (Hch children eq_refl) as (Hall & _ & _).
        rewrite export_item_container by exact Hc. rewrite exportData_array.
        destruct (Hall (mkBuilt [] true)) as (out & ->). eexists; reflexivity.
      - exists value. apply export_item_leaf.
        destruct value; try reflexivity; discriminate Hv. }
    split; [|split].
    + intros res. cbn [forEach_set]. destruct Hn as (e & ->). cbn [bind].
      apply Hrest1.
    + cbn [map_result]. destruct Hi as (e & ->). destruct Hrest2 as (arr & ->).
      eexists; reflexivity.
    + intros n [<-|Hin]; [|now apply Hrest3].
      destruct Hn as (e & He). now exists name, e.
Qed.



Lemma is_tree_In (nodes : list JS) (n : JS) :
  is_tree nodes = true -> In n nodes -> is_node n = true.
Proof. unfold is_tree. rewrite forallb_forall. auto. Qed.

(** After the loop of [exportData] a key holds what the last node of that
    name assigned. *)
Lemma forEach_set_lookup :
  forall (nodes : list JS) (res out : Built),
    (forall n, In n nodes ->
               exists name e, name_of n = Some name
                              /\ export_node exportData n = Ok (name, e)) ->
    forEach_set (export_node exportData) nodes res = Ok out ->
    forall name,
      String.eqb name "__proto__" = false ->
      match last_named name nodes with
      | Some n => exists e, export_node exportData n = Ok (name, e)
                            /\ lookup name (own out) = Some (fst e)
      | None => lookup name (own out) = lookup name (own res)
      end.
Proof.
  induction nodes as [|n nodes IH]; intros res out Hall H name Hname.
  - simpl in H. inversion H; subst. reflexivity.
  - destruct (Hall n (or_introl eq_refl)) as (nm & e0 & Hnm & He).
    cbn [forEach_set] in H. rewrite He in H. cbn [bind fst snd] in H.
    assert (Hall' : forall m, In m nodes ->
              exists name e, name_of m = Some name
                             /\ export_node exportData m = Ok (name, e))
      by (intros m Hm; apply Hall; now right).
    specialize (IH _ _ Hall' H name Hname). cbn [last_named].
    destruct (last_named name nodes) as [m|]; [exact IH|].
    unfold has_name. rewrite Hnm. rewrite IH, lookup_assign by exact Hname.
    destruct (String.eqb nm name) eqn:E; [|reflexivity].
    apply String.eqb_eq in E. subst nm. exists e0. now split.
Qed.





(** * Further properties *)

(** ** [evaluateExpression] without and with references *)

Lemma replace_refs_no_tokens (root : JS) (s : string) :
  ref_tokens_from s 0 = [] -> replace_refs root s 0 = Ok (s, false).
Proof.
  induction s as [|c s IH]; intros H; [reflexivity|].
  cbn [ref_tokens_from] in H. cbn [replace_refs].
  destruct (match_ref (String c s)) as [[path len]|]; [discriminate|].
  now rewrite (IH H).
Qed.

(** X1. A formula without a reference token is returned as it is, as text
    and without error, whatever the tree holds: arithmetic that refers to
    nothing is not evaluated. *)
Theorem formula_without_reference_is_text (formula : string) (root : JS) :
  ref_tokens formula = [] ->
  evaluateExpression formula root = mkEvalResult (JString formula) None.
Proof.
  intros H. unfold evaluateExpression.
  destruct formula as [|c formula]; [reflexivity|].
  cbn [String.eqb]. unfold substitute.
  rewrite (replace_refs_no_tokens root _ H). cbn [bind fst snd].
  now rewrite andb_false_r.
Qed.

Lemma span_path_chars (p tail : string) :
  string_forall is_path_char p = true ->
  span is_path_char (p ++ String "}" tail) = (p, String "}" tail).
Proof.
  induction p as [|c p IH]; intros H; [reflexivity|].
  cbn [string_forall] in H. apply andb_prop in H as [Hc Hp].
  cbn [append span]. now rewrite Hc, (IH Hp).
Qed.

Lemma match_ref_token (p tail : string) :
  p <> "" -> string_forall is_path_char p = true ->
  match_ref ("{{" ++ p ++ "}}" ++ tail) = Some (p, String.length p + 3).
Proof.
  intros Hne Hp. change ("{{" ++ p ++ "}}" ++ tail)
    with (String "{" (String "{" (p ++ String "}" (String "}" tail)))).
  cbn [match_ref]. rewrite (span_path_chars p _ Hp).
  destruct p; [congruence|reflexivity].
Qed.

Lemma replace_refs_skipped (root : JS) (s : string) (skip : nat) :
  String.length s <= skip -> replace_refs root s skip = Ok ("", false).
Proof.
  revert skip. induction s as [|c s IH]; intros skip H; [reflexivity|].
  cbn [String.length] in H. destruct skip as [|k]; [lia|].
  cbn [replace_refs]. apply IH. lia.
Qed.

Lemma append_empty_r (s : string) : s ++ "" = s.
Proof. induction s as [|c s IH]; simpl; [reflexivity|now rewrite IH]. Qed.

Lemma length_append (a b : string) :
  String.length (a ++ b) = String.length a + String.length b.
Proof. induction a as [|c a IH]; simpl; [reflexivity|now rewrite IH]. Qed.

Lemma replace_refs_match (root : JS) (c : ascii) (s path : string) (len : nat) :
  match_ref (String c s) = Some (path, len) ->
  replace_refs root (String c s) 0
  = (r <- replacer root path;;
     piece <- js_String r;;
     tl <- replace_refs root s len;;
     Ok (piece ++ fst tl, true))%js.
Proof. intros H. cbn [replace_refs]. now rewrite H. Qed.

(** The substitution of a formula that is one reference. *)
Lemma substitute_one_reference (root : JS) (p : string) (node : JS) (piece : string) :
  p <> "" -> string_forall is_path_char p = true ->
  replacer root p = Ok node -> js_String node = Ok piece ->
  substitute ("{{" ++ p ++ "}}") root = Ok (piece, true).
Proof.
  intros Hne Hp Hr Hs. unfold substitute.
  pose proof (match_ref_token p "" Hne Hp) as M.
  change ("{{" ++ p ++ "}}" ++ "") with ("{{" ++ p ++ "}}") in M.
  change ("{{" ++ p ++ "}}") with (String "{" (String "{" (p ++ "}}"))) in *.
  rewrite (replace_refs_match _ _ _ _ _ M), Hr. cbn [bind]. rewrite Hs. cbn [bind].
  rewrite replace_refs_skipped.
  - cbn [bind fst]. now rewrite append_empty_r.
  - cbn [String.length]. rewrite length_append. simpl. lia.
Qed.

Lemma match_ref_head (c : ascii) (s : string) (x : string * nat) :
  match_ref (String c s) = Some x -> c = "{"%char.
Proof.
  destruct c as [[] [] [] [] [] [] [] []]; intros H;
    try reflexivity; discriminate H.
Qed.

Lemma tokens_need_a_brace (s : string) (skip : nat) :
  ref_tokens_from s skip <> [] ->
  string_exists (fun c => negb (strict_char c)) s = true.
Proof.
  revert skip. induction s as [|c s IH]; intros skip H; [now elim H|].
  cbn [ref_tokens_from] in H. cbn [string_exists].
  destruct skip as [|k].
  - destruct (match_ref (String c s)) as [x|] eqn:M.
    + now rewrite (match_ref_head _ _ _ M).
    + rewrite (IH 0 H). apply orb_true_r.
  - rewrite (IH k H). apply orb_true_r.
Qed.

(** X2. A reference to an Expression node is replaced by the formula of
    that node and the formula is not evaluated in its turn: when it has a
    reference token of its own, the result is its text. *)
Theorem reference_to_expression_is_not_evaluated (root : JS) (p id name f : string) :
  p <> "" -> string_forall is_path_char p = true ->
  resolvePath root p = Ok (DataNode id name "expression" (JString f)) ->
  ref_tokens f <> [] ->
  evaluateExpression ("{{" ++ p ++ "}}") root = mkEvalResult (JString f) None.
Proof.
  intros Hne Hp Hr Hf. apply evaluate_not_strict.
  - apply (substitute_one_reference root p (JString f) f Hne Hp); [|reflexivity].
    unfold replacer. now rewrite Hr.
  - now apply (tokens_need_a_brace f 0).
Qed.


(** ** [setDeepValue]: what it keeps, and reading back what it wrote *)

Lemma is_node_fits (id name type : string) (value : JS) :
  is_node (DataNode id name type value) = fits type value.
Proof. reflexivity. Qed.

Lemma blocked_empty (key : string) (rest : list string) : blocked key rest [] = false.
Proof. now destruct rest. Qed.

(** A tree stays a tree when the value written fits the kind written. *)
Lemma setDeepValue_parts_tree :
  forall (rest : list string) (key : string) (nodes : list JS) (value : JS)
         (type : string) (s : nat),
    is_tree nodes = true -> fits type value = true ->
    exists r s',
      setDeepValue_parts key rest (JArray nodes) value type s = Ok (JArray r, s')
      /\ is_tree r = true.
Proof.
  induction rest as [|key' rest' IH]; intros key nodes value type s Ht Hfit;
    destruct (first_named key nodes) as [node|] eqn:Hf.
  - destruct (first_named_tree _ _ _ Ht Hf)
      as (pre & post & id & ty & old & -> & -> & _ & Fp & _ & Hpre & _ & Hpost).
    eexists _, _. split; [now apply setDeepValue_hit_final|].
    rewrite is_tree_app, is_tree_cons, is_node_fits, Hpre, Hfit, Hpost. reflexivity.
  - eexists _, _. split; [apply setDeepValue_miss_final; now apply findIndex_tree_none|].
    rewrite is_tree_app, is_tree_cons, is_node_fits, Ht, Hfit. reflexivity.
  - destruct (first_named_tree _ _ _ Ht Hf)
      as (pre & post & id & ty & old & -> & -> & _ & Fp & _ & Hpre & Hnode & Hpost).
    destruct (is_container_type ty) eqn:Hc.
    + destruct (is_node_container _ _ _ _ Hnode Hc) as (children & -> & Hch).
      destruct (IH key' children value type s Hch Hfit) as (r & s' & Hset & Hr).
      eexists _, _. split; [now apply (setDeepValue_hit_container _ _ _ _ _ _ _ _ _ _ _ _ _ Fp Hc Hset)|].
      rewrite is_tree_app, is_tree_cons, is_node_fits, Hpre, Hpost.
      unfold fits. now rewrite Hc, Hr.
    + eexists _, _. split; [now apply setDeepValue_hit_leaf|].
      rewrite is_tree_app, is_tree_cons, Hpre, Hnode, Hpost. reflexivity.
  - destruct (IH key' [] value type (S s) eq_refl Hfit) as (r & s' & Hset & Hr).
    eexists _, _. split.
    + apply setDeepValue_miss_deeper; [now apply findIndex_tree_none|exact Hset].
    + rewrite is_tree_app, is_tree_cons, is_node_fits, Ht.
      unfold fits. cbn [is_container_type String.eqb]. simpl. now rewrite Hr.
Qed.

Lemma deepSet_keeps_tree_parts (path : string) (nodes : list JS) (value : JS)
    (type : string) (s : nat) :
  is_tree nodes = true -> fits type value = true ->
  exists r s',
    setDeepValue (JArray nodes) path value type s = Ok (JArray r, s')
    /\ is_tree r = true.
Proof. intros Ht Hfit. now apply setDeepValue_parts_tree. Qed.

(** X3. [setDeepValue] keeps the tree a tree: when the value given fits the
    kind given (a node sequence for a container, a primitive otherwise), the
    call returns and every node of the result has the form of a node, with a
    node sequence under every dictionary and list. *)
Theorem deepSet_keeps_tree (nodes : list JS) (path : string) (value : JS)
    (type : string) (s : nat) :
  is_tree nodes = true -> fits type value = true ->
  exists r s',
    setDeepValue (JArray nodes) path value type s = Ok (JArray r, s')
    /\ is_tree r = true.
Proof. intros Ht Hfit. now apply setDeepValue_parts_tree. Qed.

(** Reading a path back only needs the nodes on the way to have names. *)
Lemma resolve_loop_step (key : string) (rest : list string) (pre post : list JS)
    (id type : string) (value : JS) :
  is_tree pre = true -> first_named key pre = None ->
  resolve_loop (key :: rest) (JArray (pre ++ DataNode id key type value :: post))
  = match rest with
    | [] => Ok (DataNode id key type value)
    | _ => resolve_loop rest value
    end.
Proof.
  intros Ht Hf. cbn [resolve_loop].
  assert (F : forall (k : JS -> result JS),
             (byName <- find_name key (pre ++ DataNode id key type value :: post);;
              k byName)%js = k (DataNode id key type value)).
  { intros k. clear rest.
    induction pre as [|a pre IH];
      [rewrite app_nil_l|rewrite <- app_comm_cons]; cbn [find_name].
    - change (get (DataNode id key type value) "name") with (@Ok JS (JString key)).
      cbn [bind is_string]. now rewrite String.eqb_refl.
    - rewrite is_tree_cons in Ht. apply andb_prop in Ht as [Ha Ht].
      cbn [first_named] in Hf.
      destruct (get_name_node a Ha) as (name & Hname & ->). cbn [bind is_string].
      unfold has_name in Hf. rewrite Hname in Hf.
      destruct (String.eqb name key); [discriminate|]. now apply IH. }
  rewrite F. change (truthy (DataNode id key type value)) with true.
  cbn [negb]. destruct rest; [reflexivity|].
  unfold get, DataNode. now rewrite lookup_node_value.
Qed.

Lemma resolve_loop_first (key : string) (rest : list string) (post : list JS)
    (id type : string) (value : JS) :
  resolve_loop (key :: rest) (JArray (DataNode id key type value :: post))
  = match rest with
    | [] => Ok (DataNode id key type value)
    | _ => resolve_loop rest value
    end.
Proof. exact (resolve_loop_step key rest [] post id type value eq_refl eq_refl). Qed.

Lemma last_nonempty_default (a d d' : string) (l : list string) :
  last (a :: l) d = last (a :: l) d'.
Proof.
  revert a. induction l as [|b l IH]; intros a; [reflexivity|].
  change (last (b :: l) d = last (b :: l) d'). apply IH.
Qed.

Lemma last_cons_default (k k' : string) (rest : list string) :
  last (k' :: rest) k = last rest k'.
Proof.
  destruct rest as [|a rest]; [reflexivity|].
  change (last (a :: rest) k = last (a :: rest) k'). apply last_nonempty_default.
Qed.

Lemma resolve_after_parts :
  forall (rest : list string) (key : string) (nodes : list JS) (value : JS)
         (type : string) (s : nat),
    is_tree nodes = true -> blocked key rest nodes = false ->
    exists r s' id,
      setDeepValue_parts key rest (JArray nodes) value type s = Ok (JArray r, s')
      /\ resolve_loop (key :: rest) (JArray r)
         = Ok (DataNode id (last rest key) type value).
Proof.
  induction rest as [|key' rest' IH]; intros key nodes value type s Ht Hb;
    destruct (first_named key nodes) as [node|] eqn:Hf.
  - destruct (first_named_tree _ _ _ Ht Hf)
      as (pre & post & id & ty & old & -> & -> & _ & Fp & Hp & Hpre & _ & _).
    eexists _, _, id. split; [now apply setDeepValue_hit_final|].
    now rewrite resolve_loop_step.
  - eexists _, _, (nth_id s). split;
      [apply setDeepValue_miss_final; now apply findIndex_tree_none|].
    now rewrite (resolve_loop_step key [] nodes []).
  - destruct (first_named_tree _ _ _ Ht Hf)
      as (pre & post & id & ty & old & -> & -> & _ & Fp & Hp & Hpre & Hnode & _).
    cbn [blocked] in Hb. rewrite Hf, type_of_node in Hb.
    destruct (is_container_type ty) eqn:Hc; [|discriminate].
    destruct (is_node_container _ _ _ _ Hnode Hc) as (children & -> & Hch).
    rewrite children_of_node in Hb.
    destruct (IH key' children value type s Hch Hb) as (r & s' & id' & Hset & Hres).
    eexists _, _, id'. split;
      [now apply (setDeepValue_hit_container _ _ _ _ _ _ _ _ _ _ _ _ _ Fp Hc Hset)|].
    rewrite resolve_loop_step by assumption. rewrite last_cons_default. exact Hres.
  - destruct (IH key' [] value type (S s) eq_refl (blocked_empty _ _))
      as (r & s' & id' & Hset & Hres).
    eexists _, _, id'. split.
    + apply setDeepValue_miss_deeper; [now apply findIndex_tree_none|exact Hset].
    + rewrite (resolve_loop_step key (key' :: rest') nodes []) by assumption.
      rewrite last_cons_default. exact Hres.
Qed.

(** X4. What [setDeepValue] wrote, [resolvePath] reads back: on a tree,
    unless a leaf blocks the path, the call returns and the same path then
    resolves to a node that carries the last segment as its name and the
    kind and value given, whatever value that is. *)
Theorem resolve_after_deepSet (nodes : list JS) (path : string) (value : JS)
    (type : string) (s : nat) :
  is_tree nodes = true ->
  blocked (path_key path) (path_rest path) nodes = false ->
  exists r s' id,
    setDeepValue (JArray nodes) path value type s = Ok (JArray r, s')
    /\ resolvePath (JArray r) path
       = Ok (DataNode id (last (path_rest path) (path_key path)) type value).
Proof.
  intros Ht Hb.
  destruct (resolve_after_parts _ _ _ value type s Ht Hb) as (r & s' & id & H1 & H2).
  exists r, s', id. split; [exact H1|].
  unfold resolvePath. unfold path_key, path_rest in *.
  destruct (split_dot path) as [|k ks] eqn:E; [now elim (split_dot_nonempty path)|].
  exact H2.
Qed.

Lemma siblings_kept (key : string) (rest : list string) (nodes : list JS)
    (value : JS) (type : string) (s s' : nat) (r : list JS) :
  is_tree nodes = true ->
  setDeepValue_parts key rest (JArray nodes) value type s = Ok (JArray r, s') ->
  (length r = length nodes \/ length r = S (length nodes))
  /\ forall i n, nth_error nodes i = Some n ->
                 index_named key nodes <> Some i ->
                 nth_error r i = Some n.
Proof.
  intros Ht H.
  destruct (first_named key nodes) as [node|] eqn:Hf.
  - destruct (first_named_tree _ _ _ Ht Hf)
      as (pre & post & id & ty & old & -> & -> & Hi & Fp & Hp & Hpre & Hnode & _).
    assert (Hr : exists new, r = (pre ++ new :: post)%list).
    { destruct rest as [|key' rest'].
      - rewrite setDeepValue_hit_final in H by assumption.
        inversion H; subst. eexists; reflexivity.
      - destruct (is_container_type ty) eqn:Hc.
        + destruct (is_node_container _ _ _ _ Hnode Hc) as (children & -> & Hch).
          destruct (setDeepValue_parts_total rest' key' children value type s Hch)
            as (sub & s1 & Hsub).
          rewrite (setDeepValue_hit_container _ _ _ _ _ _ _ _ _ _ _ _ _ Fp Hc Hsub) in H.
          inversion H; subst. eexists; reflexivity.
        + rewrite setDeepValue_hit_leaf in H by assumption.
          inversion H; subst. eexists; reflexivity. }
    destruct Hr as (new & ->). split.
    + left. now rewrite !length_app.
    + intros i n Hn Hne. rewrite Hi in Hne.
      destruct (Nat.lt_total i (length pre)) as [Hlt|[Heq|Hgt]].
      * rewrite nth_error_app1 in Hn |- * by assumption. exact Hn.
      * subst i. now elim Hne.
      * rewrite nth_error_app2 in Hn |- * by lia.
        destruct (i - length pre) as [|j] eqn:E; [lia|exact Hn].
  - assert (Hr : exists new, r = (nodes ++ [new])%list).
    { destruct rest as [|key' rest'].
      - rewrite setDeepValue_miss_final in H by now apply findIndex_tree_none.
        inversion H; subst. eexists; reflexivity.
      - destruct (setDeepValue_parts_total rest' key' [] value type (S s) eq_refl)
          as (sub & s1 & Hsub).
        rewrite (setDeepValue_miss_deeper _ _ _ _ _ _ _ _ _
                   (findIndex_tree_none _ _ Ht Hf) Hsub) in H.
        inversion H; subst. eexists; reflexivity. }
    destruct Hr as (new & ->). split.
    + right. rewrite length_app. simpl. lia.
    + intros i n Hn _. rewrite nth_error_app1; [exact Hn|].
      apply nth_error_Some. congruence.
Qed.

(** X5. [setDeepValue] touches one child of the sequence it is given: every
    other element stays what and where it was, and at most one element is
    added, at the end. *)
Theorem deepSet_keeps_siblings (nodes : list JS) (path : string) (value : JS)
    (type : string) (s s' : nat) (r : list JS) :
  is_tree nodes = true ->
  setDeepValue (JArray nodes) path value type s = Ok (JArray r, s') ->
  (length r = length nodes \/ length r = S (length nodes))
  /\ forall i n, nth_error nodes i = Some n ->
                 index_named (path_key path) nodes <> Some i ->
                 nth_error r i = Some n.
Proof. intros Ht H. exact (siblings_kept _ _ _ _ _ _ _ _ Ht H). Qed.


(** ** The URL interface *)

(** The value that [handleApiTrigger] hands to [setDeepValue] fits the kind
    it hands over, whatever the strings of the request are. *)
Lemma api_value_fits (value type : string) :
  exists v,
    fits type v = true
    /\ forall key prev,
         String.eqb key "" = false ->
         handleApiTrigger key value type prev = setDeepValue prev key v type.
Proof.
  unfold handleApiTrigger, fits, is_container_type.
  destruct (String.eqb type "dictionary" || String.eqb type "list") eqn:C.
  - exists (JArray []). split; [reflexivity|].
    intros key prev ->. reflexivity.
  - destruct (String.eqb type "boolean") eqn:B.
    + exists (JBool (String.eqb value "true")). split; [reflexivity|].
      intros key prev ->. reflexivity.
    + destruct (String.eqb type "number") eqn:N.
      * exists (JNumber (parseFloat value)). split; [reflexivity|].
        intros key prev ->. reflexivity.
      * exists (JString value). split; [reflexivity|].
        intros key prev ->. reflexivity.
Qed.

(** X6. A request over the URL keeps the tree a tree: for every [key],
    [value] and [type] that the URL may carry, [checkUrl] returns, what it
    returns is a tree, and without a key (none, or the empty string) it is
    the tree as it was, with no identifier drawn. *)
Theorem checkUrl_keeps_tree (key value type : option string) (nodes : list JS)
    (s : nat) :
  is_tree nodes = true ->
  exists r s',
    checkUrl key value type (JArray nodes) s = Ok (JArray r, s')
    /\ is_tree r = true
    /\ (key = None \/ key = Some "" -> r = nodes /\ s' = s).
Proof.
  intros Ht. unfold checkUrl.
  destruct key as [k|].
  - destruct (String.eqb k "") eqn:E; cbn [negb].
    + exists nodes, s. repeat split; assumption.
    + match goal with
      | |- context [handleApiTrigger k ?v ?t] =>
          destruct (api_value_fits v t) as (cv & Hfit & Hcall);
          rewrite (Hcall k (JArray nodes) E);
          destruct (deepSet_keeps_tree_parts k nodes cv t s Ht Hfit)
            as (r & s' & Hset & Hr)
      end.
      exists r, s'. split; [exact Hset|]. split; [exact Hr|].
      intros [H|H]; [discriminate|].
      inversion H; subst k. discriminate E.
  - exists nodes, s. repeat split; assumption.
Qed.


(** ** [parseImport] on every object *)

Lemma import_items_total :
  forall (items : list JS) (idx s : nat),
    exists its,
      import_items idx items s = Ok (its, s + length items)
      /\ length its = length items
      /\ (forallb is_scalar items = true -> is_tree its = true).
Proof.
  induction items as [|item items IH]; intros idx s.
  - exists []. repeat split. simpl. unfold ret. now rewrite Nat.add_0_r.
  - destruct (IH (S idx) (S s)) as (its & Himp & Hlen & Htree).
    eexists. split; [|split].
    + cbn [import_items]. unfold bindM, generateId. rewrite Himp.
      unfold ret. cbn [length]. do 2 f_equal. lia.
    + cbn [length]. now rewrite Hlen.
    + cbn [forallb]. intros H. apply andb_prop in H as [Hi Hs].
      rewrite is_tree_cons, (Htree Hs), andb_true_r.
      destruct item; try discriminate Hi; reflexivity.
Qed.

(** What the induction on JSON values carries for an object: its import
    returns, names the nodes by the keys, and gives a tree when arrays hold
    scalars only. *)
Lemma import_of_objects (v : JS) :
  forall props, v = JObject props ->
    forall s, exists nodes s',
      parseImport v s = Ok (JArray nodes, s')
      /\ map name_of nodes = map Some (keys props)
      /\ (plain_json v = true -> is_tree nodes = true).
Proof.
  induction v as [| | | | | items _ | props IH] using JS_nested_ind;
    intros props' E; try discriminate E.
  injection E as <-.
  assert (Hentry : forall key val s,
             (forall props, val = JObject props ->
                forall s, exists nodes s',
                  parseImport val s = Ok (JArray nodes, s')
                  /\ map name_of nodes = map Some (keys props)
                  /\ (plain_json val = true -> is_tree nodes = true)) ->
             exists node s',
               import_entry (parseImport val) key val s = Ok (node, s')
               /\ name_of node = Some key
               /\ (plain_json val = true -> is_node node = true)).
  { intros key val s Hobj. destruct val.
    - eexists _, _. repeat split; discriminate.
    - eexists _, _. repeat split.
    - eexists _, _. repeat split.
    - eexists _, _. repeat split.
    - eexists _, _. repeat split.
    - destruct (import_items_total items 0 s) as (its & Himp & _ & Htree).
      eexists _, _. split; [|split].
      + rewrite import_entry_array. unfold bindM. rewrite Himp.
        unfold ret, generateId. reflexivity.
      + reflexivity.
      + intros Hp. rewrite is_node_fits. exact (Htree Hp).
    - destruct (Hobj props0 eq_refl s) as (nodes & s' & Himp & _ & Htree).
      eexists _, _. split; [|split].
      + rewrite import_entry_object. unfold bindM. rewrite Himp.
        unfold ret, generateId. reflexivity.
      + reflexivity.
      + intros Hp. rewrite is_node_fits. exact (Htree Hp). }
  assert (Hprops : forall s, exists nodes s',
             import_props parseImport props s = Ok (nodes, s')
             /\ map name_of nodes = map Some (keys props)
             /\ (forallb (fun kv => plain_json (snd kv)) props = true ->
                 is_tree nodes = true)).
  { induction IH as [|[key val] ps Hval _ IHps]; intros s.
    - exists [], s. repeat split.
    - destruct (Hentry key val s Hval) as (node & s1 & Hent & Hname & Hnode).
      destruct (IHps s1) as (nodes & s' & Himp & Hnames & Htree).
      exists (node :: nodes), s'. split; [|split].
      + cbn [import_props]. unfold bindM at 1. rewrite Hent.
        unfold bindM at 1. rewrite Himp. reflexivity.
      + cbn [map keys fst]. fold (keys ps). now rewrite Hname, Hnames.
      + cbn [forallb snd]. intros H. apply andb_prop in H as [Hv Hps].
        now rewrite is_tree_cons, (Hnode Hv), (Htree Hps). }
  intros s. destruct (Hprops s) as (nodes & s' & Himp & Hnames & Htree).
  exists nodes, s'. split; [|split].
  - cbn [parseImport]. unfold bindM. now rewrite Himp.
  - exact Hnames.
  - exact Htree.
Qed.

(** X7. The import of a JSON object returns for every object, whatever its
    values are: one node for each key, in the order of the keys and named by
    them. *)
Theorem import_of_object_returns (props : list (string * JS)) (s : nat) :
  exists nodes s',
    parseImport (JObject props) s = Ok (JArray nodes, s')
    /\ map name_of nodes = map Some (keys props).
Proof.
  destruct (import_of_objects _ props eq_refl s) as (nodes & s' & H1 & H2 & _).
  now exists nodes, s'.
Qed.

(** X8. When the arrays of a JSON object hold strings, numbers and booleans
    only, at every depth, its import is a tree. *)
Theorem import_of_plain_json_is_tree (props : list (string * JS)) (s : nat) :
  plain_json (JObject props) = true ->
  exists nodes s',
    parseImport (JObject props) s = Ok (JArray nodes, s')
    /\ is_tree nodes = true.
Proof.
  intros Hp.
  destruct (import_of_objects _ props eq_refl s) as (nodes & s' & H1 & _ & H3).
  exists nodes, s'. split; [exact H1|now apply H3].
Qed.

Lemma setDeepValue_hit_throws (key key' id type : string) (rest' : list string)
    (old : JS) (pre post : list JS) (value : JS) (type' : string) (s : nat)
    (m : string) :
  findIndex_name key pre = Ok None ->
  is_container_type type = true ->
  setDeepValue_parts key' rest' old value type' s = Throw m ->
  setDeepValue_parts key (key' :: rest')
    (JArray (pre ++ DataNode id key type old :: post)) value type' s
  = Throw m.
Proof.
  intros Hp Hc R. simpl. unfold bindM, lift.
  rewrite (findIndex_middle_node _ _ _ _ _ _ Hp).
  rewrite nth_middle. unfold DataNode, get. cbv beta iota.
  rewrite lookup_node_type, lookup_node_value. cbv beta iota.
  change (is_string (JString type) "dictionary") with (String.eqb type "dictionary").
  change (is_string (JString type) "list") with (String.eqb type "list").
  rewrite <- negb_orb. unfold is_container_type in Hc. rewrite Hc.
  cbv beta iota delta [negb]. now rewrite R.
Qed.

(** X9. An object inside an imported array cannot be addressed: it is kept
    as the parsed value under the kind [dictionary], so a path through it
    resolves to nothing, even to a key that the object has, and
    [setDeepValue] on such a path throws. *)
Theorem object_in_imported_array_is_opaque (key k : string)
    (props : list (string * JS)) (items : list JS) (value : JS) (type : string)
    (s : nat) :
  no_dot key = true -> no_dot k = true ->
  exists nodes s',
    parseImport (JObject [(key, JArray (JObject props :: items))]) s
    = Ok (JArray nodes, s')
    /\ resolvePath (JArray nodes) (key ++ ".0." ++ k) = Ok JUndefined
    /\ forall s2,
         setDeepValue (JArray nodes) (key ++ ".0." ++ k) value type s2
         = Throw TypeError_message.
Proof.
  intros Hkey Hk.
  destruct (import_items_total items 1 (S s)) as (its & Himp & _ & _).
  assert (Hsplit : split_dot (key ++ ".0." ++ k) = [key; "0"; k]).
  { change (key ++ ".0." ++ k) with (key ++ String dot ("0" ++ String dot k)).
    rewrite split_dot_app by exact Hkey.
    rewrite split_dot_app by reflexivity.
    now rewrite split_dot_segment. }
  exists [DataNode (nth_id (S s + length items)) key "list"
            (JArray (DataNode (nth_id s) "0" "dictionary" (JObject props) :: its))],
    (S (S s + length items)).
  split; [|split].
  - cbn [parseImport import_props]. rewrite import_entry_array.
    cbn [import_items]. unfold bindM, generateId. rewrite Himp. reflexivity.
  - unfold resolvePath. rewrite Hsplit.
    rewrite !resolve_loop_first. reflexivity.
  - intros s2. unfold setDeepValue. rewrite Hsplit. cbn [hd tl].
    apply (setDeepValue_hit_throws key "0" _ "list" [k] _ [] [] value type s2
             TypeError_message eq_refl eq_refl).
    apply (setDeepValue_hit_throws "0" k _ "dictionary" [] _ [] its value type s2
             TypeError_message eq_refl eq_refl).
    reflexivity.
Qed.


(** ** The keys of an export *)

Lemma keys_obj_set (k : string) (v : JS) (props : list (string * JS)) :
  keys (obj_set k v props)
  = if existsb (String.eqb k) (keys props) then keys props
    else (keys props ++ [k])%list.
Proof.
  induction props as [|[k' v'] props IH]; [reflexivity|].
  cbn [obj_set keys map fst existsb]. fold (keys props).
  rewrite (String.eqb_sym k k').
  destruct (String.eqb k' k) eqn:E; cbn [orb].
  - apply String.eqb_eq in E. now subst k'.
  - cbn [keys map fst]. fold (keys (obj_set k v props)). rewrite IH.
    now destruct (existsb (String.eqb k) (keys props)).
Qed.

Lemma existsb_eqb_In (k : string) (l : list string) :
  existsb (String.eqb k) l = true <-> In k l.
Proof.
  rewrite existsb_exists. split.
  - intros (x & Hx & E). apply String.eqb_eq in E. now subst.
  - intros H. exists k. split; [exact H|apply String.eqb_refl].
Qed.

Lemma unique_snoc (l : list string) (k : string) :
  unique l = true -> existsb (String.eqb k) l = false -> unique (l ++ [k]) = true.
Proof.
  induction l as [|a l IH]; intros Hu Hk; [reflexivity|].
  rewrite <- app_comm_cons. cbn [unique] in *. apply andb_prop in Hu as [Ha Hu].
  cbn [existsb] in Hk. apply orb_false_iff in Hk as [Hka Hk].
  rewrite (IH Hu Hk), andb_true_r. rewrite existsb_app.
  apply negb_true_iff in Ha. rewrite Ha. cbn [existsb orb].
  now rewrite String.eqb_sym, Hka.
Qed.

Lemma unique_assign (k : string) (v : JS) (v_setter : bool) (o : Built) :
  unique (keys (own o)) = true ->
  unique (keys (own (assign k v v_setter o))) = true.
Proof.
  intros Hu. unfold assign.
  destruct (String.eqb k "__proto__" && negb (has_key k (own o)) && setter o).
  - now destruct v.
  - cbn [own]. rewrite keys_obj_set.
    destruct (existsb (String.eqb k) (keys (own o))) eqn:E; [exact Hu|].
    now apply unique_snoc.
Qed.

Lemma keys_assign_from (k' k : string) (v : JS) (v_setter : bool) (o : Built) :
  In k' (keys (own (assign k v v_setter o))) -> In k' (keys (own o)) \/ k' = k.
Proof.
  unfold assign.
  destruct (String.eqb k "__proto__" && negb (has_key k (own o)) && setter o).
  - destruct v; now left.
  - cbn [own]. rewrite keys_obj_set.
    destruct (existsb (String.eqb k) (keys (own o))); [now left|].
    intros H. apply in_app_or in H as [H|[<-|[]]]; [now left|now right].
Qed.

Lemma keys_assign_to (k' k : string) (v : JS) (v_setter : bool) (o : Built) :
  k' <> "__proto__" ->
  In k' (keys (own o)) \/ k' = k -> In k' (keys (own (assign k v v_setter o))).
Proof.
  intros Hk' H. unfold assign.
  destruct (String.eqb k "__proto__" && negb (has_key k (own o)) && setter o)
    eqn:C.
  - apply andb_prop in C as [C _]. apply andb_prop in C as [C _].
    apply String.eqb_eq in C. subst k.
    destruct H as [H|H]; [|contradiction]. now destruct v.
  - cbn [own]. rewrite keys_obj_set.
    destruct (existsb (String.eqb k) (keys (own o))) eqn:E.
    + destruct H as [H| ->]; [exact H|]. now apply existsb_eqb_In.
    + apply in_or_app. destruct H as [H| ->]; [now left|right; now left].
Qed.

Lemma forEach_set_keys :
  forall (nodes : list JS) (res out : Built),
    (forall n, In n nodes ->
               exists name e, name_of n = Some name
                              /\ export_node exportData n = Ok (name, e)) ->
    forEach_set (export_node exportData) nodes res = Ok out ->
    unique (keys (own res)) = true ->
    unique (keys (own out)) = true
    /\ (forall k, In k (keys (own out)) ->
                  In k (keys (own res))
                  \/ exists n, In n nodes /\ name_of n = Some k)
    /\ (forall k, k <> "__proto__" ->
                  In k (keys (own res))
                  \/ (exists n, In n nodes /\ name_of n = Some k) ->
                  In k (keys (own out))).
Proof.
  induction nodes as [|n nodes IH]; intros res out Hall H Hu.
  - simpl in H. inversion H; subst. split; [exact Hu|]. split.
    + intros k Hk. now left.
    + intros k _ [Hk|(n & [] & _)]. exact Hk.
  - destruct (Hall n (or_introl eq_refl)) as (nm & e0 & Hnm & He).
    cbn [forEach_set] in H. rewrite He in H. cbn [bind fst snd] in H.
    assert (Hall' : forall m, In m nodes ->
              exists name e, name_of m = Some name
                             /\ export_node exportData m = Ok (name, e))
      by (intros m Hm; apply Hall; now right).
    destruct (IH _ _ Hall' H (unique_assign nm (fst e0) (snd e0) res Hu))
      as (Huo & Hfrom & Hto).
    split; [exact Huo|]. split.
    + intros k Hk. destruct (Hfrom k Hk) as [Hin|(m & Hm & Hmk)].
      * destruct (keys_assign_from _ _ _ _ _ Hin) as [Hr| ->]; [now left|].
        right. exists n. split; [now left|exact Hnm].
      * right. exists m. split; [now right|exact Hmk].
    + intros k Hk [Hin|(m & [<-|Hm] & Hmk)]; apply (Hto k Hk).
      * left. apply keys_assign_to; [exact Hk|now left].
      * left. apply keys_assign_to; [exact Hk|]. right.
        rewrite Hnm in Hmk. now inversion Hmk.
      * right. now exists m.
Qed.

(** X10. The export of a tree is an object that has each key once; every
    key is the name of a node, and every name of a node other than
    [__proto__] is a key. *)
Theorem export_keys_are_names (nodes : list JS) :
  is_tree nodes = true ->
  exists out,
    exportData (JArray nodes) = Ok out
    /\ unique (keys (own out)) = true
    /\ (forall k, In k (keys (own out)) ->
                  exists n, In n nodes /\ name_of n = Some k)
    /\ (forall k n, k <> "__proto__" -> In n nodes -> name_of n = Some k ->
                    In k (keys (own out))).
Proof.
  intros Ht. destruct (export_tree_total nodes Ht) as (Hall & _ & Hnames).
  destruct (Hall (mkBuilt [] true)) as (out & Hout).
  destruct (forEach_set_keys _ _ _ Hnames Hout eq_refl) as (Hu & Hfrom & Hto).
  exists out. split; [now rewrite exportData_array|]. split; [exact Hu|]. split.
  - intros k Hk. destruct (Hfrom k Hk) as [[]|H]. exact H.
  - intros k n Hk Hn Hname. apply (Hto k Hk). right. now exists n.
Qed.

(** ** Export, then import *)

Lemma import_props_first (ps : list (string * JS)) (k f : string) :
  lookup k ps = Some (JString f) ->
  forall s nodes s',
    import_props parseImport ps s = Ok (nodes, s') ->
    exists id, first_named k nodes = Some (DataNode id k "text" (JString f)).
Proof.
  induction ps as [|[key val] ps IH]; intros Hl s nodes s' H; [discriminate|].
  cbn [lookup] in Hl. cbn [import_props] in H. unfold bindM at 1 in H.
  destruct (String.eqb key k) eqn:E.
  - apply String.eqb_eq in E. subst key. inversion Hl; subst val.
    change (import_entry (parseImport (JString f)) k (JString f) s)
      with (@Ok (JS * nat) (DataNode (nth_id s) k "text" (JString f), S s)) in H.
    cbv beta iota in H. unfold bindM at 1 in H.
    destruct (import_props parseImport ps (S s)) as [[ns s1]|]; [|discriminate].
    unfold ret in H. inversion H; subst.
    exists (nth_id s). cbn [first_named]. rewrite has_name_node.
    now rewrite String.eqb_refl.
  - destruct (import_entry (parseImport val) key val s) as [[node s1]|] eqn:Hent;
      [|discriminate].
    unfold bindM at 1 in H.
    destruct (import_props parseImport ps s1) as [[ns s2]|] eqn:Himp; [|discriminate].
    unfold ret in H. inversion H; subst.
    destruct (IH Hl _ _ _ Himp) as (id & Hid). exists id.
    cbn [first_named].
    assert (Hname : name_of node = Some key).
    { destruct val; try (inversion Hent; reflexivity).
      - rewrite import_entry_array in Hent. unfold bindM in Hent.
        destruct (import_items 0 items s) as [[its s3]|]; [|discriminate].
        unfold ret, generateId in Hent. now inversion Hent.
      - rewrite import_entry_object in Hent. unfold bindM in Hent.
        destruct (parseImport (JObject props) s) as [[v s3]|]; [|discriminate].
        unfold ret, generateId in Hent. now inversion Hent. }
    unfold has_name. now rewrite Hname, E.
Qed.


(** X11. Export and import do not give an Expression back: on a tree, the
    export of an Expression leaf whose name is not [__proto__] is a string,
    and the import of the exported object has, under the name of the leaf,
    a node of kind [text] that holds the formula. *)
Theorem expression_comes_back_as_text (nodes : list JS) (id name f : string)
    (s : nat) :
  is_tree nodes = true ->
  name <> "__proto__" ->
  last_named name nodes = Some (DataNode id name "expression" (JString f)) ->
  exists out nodes' s' id',
    exportData (JArray nodes) = Ok out
    /\ parseImport (built_value out) s = Ok (JArray nodes', s')
    /\ first_named name nodes' = Some (DataNode id' name "text" (JString f)).
Proof.
  intros Ht Hname Hl. apply String.eqb_neq in Hname.
  destruct (export_tree_total nodes Ht) as (Hall & _ & Hkeys).
  destruct (Hall (mkBuilt [] true)) as (out & Hout).
  pose proof (forEach_set_lookup _ _ _ Hkeys Hout name Hname) as L.
  rewrite Hl in L. destruct L as (e & He & Hlook).
  rewrite export_node_leaf in He by reflexivity. inversion He; subst e.
  cbn [fst] in Hlook.
  destruct (import_of_objects _ (own out) eq_refl s)
    as (nodes' & s' & Himp & _ & _).
  assert (Hprops : import_props parseImport (own out) s = Ok (nodes', s')).
  { cbn [parseImport] in Himp. unfold bindM in Himp.
    destruct (import_props parseImport (own out) s) as [[ns s1]|]; [|discriminate].
    unfold ret in Himp. now inversion Himp. }
  destruct (import_props_first (own out) name f Hlook _ _ _ Hprops) as (id' & Hid).
  exists out, nodes', s', id'. split; [now rewrite exportData_array|].
  split; assumption.
Qed.


(** ** The current level and its updates *)

Lemma get_id_node (v : JS) :
  is_node v = true ->
  exists id, id_of v = Some id /\ get v "id" = Ok (JString id).
Proof.
  intros H. destruct (is_node_inv v H) as (id & name & type & value & -> & _).
  exists id. split; reflexivity.
Qed.

Lemma get_node_id (id name type : string) (value : JS) :
  get (DataNode id name type value) "id" = Ok (JString id).
Proof. reflexivity. Qed.

Lemma get_node_type (id name type : string) (value : JS) :
  get (DataNode id name type value) "type" = Ok (JString type).
Proof. reflexivity. Qed.

Lemma get_node_value (id name type : string) (value : JS) :
  get (DataNode id name type value) "value" = Ok value.
Proof. reflexivity. Qed.

Lemma set_value_node (id name type : string) (value value' : JS) :
  JObject (obj_set "value" value' (spread (DataNode id name type value)))
  = DataNode id name type value'.
Proof. reflexivity. Qed.

Lemma has_id_node (i id name type : string) (value : JS) :
  has_id i (DataNode id name type value) = String.eqb id i.
Proof. reflexivity. Qed.

Lemma find_id_tree (id : string) (nodes : list JS) :
  is_tree nodes = true ->
  find_id id nodes = Ok (or_undefined (find (has_id id) nodes)).
Proof.
  induction nodes as [|n nodes IH]; intros H; [reflexivity|].
  rewrite is_tree_cons in H. apply andb_prop in H as [Hn Ht].
  destruct (get_id_node n Hn) as (i & Hi & Hget).
  cbn [find_id find]. rewrite Hget. cbn [bind is_string].
  unfold has_id. rewrite Hi.
  destruct (String.eqb i id); [reflexivity|]. now apply IH.
Qed.

Lemma find_is_node (p : JS -> bool) (nodes : list JS) (n : JS) :
  is_tree nodes = true -> find p nodes = Some n -> is_node n = true.
Proof.
  intros Ht Hf. apply find_some in Hf as [Hin _]. now apply (is_tree_In nodes).
Qed.

Lemma level_of_is_tree :
  forall (ids : list string) (nodes level : list JS),
    is_tree nodes = true -> level_of ids nodes = Some level -> is_tree level = true.
Proof.
  induction ids as [|id ids IH]; intros nodes level Ht H; cbn [level_of] in H.
  - now inversion H; subst.
  - destruct (find (has_id id) nodes) as [node|] eqn:Hf; [|discriminate].
    pose proof (find_is_node _ _ _ Ht Hf) as Hn.
    destruct (is_node_inv _ Hn) as (i & name & type & value & -> & _).
    rewrite type_of_node in H.
    destruct value; try discriminate H.
    rewrite children_of_node in H.
    destruct (is_container_type type); [|discriminate].
    eapply IH; [|exact H]. eapply is_node_children; eassumption.
Qed.

(** [currentLevelNodes] on a tree: the level that the identifiers lead to,
    and the empty sequence when they lead nowhere. *)
Lemma currentLevel_loop_tree :
  forall (path : list PathStep) (nodes : list JS),
    is_tree nodes = true ->
    currentLevel_loop path (JArray nodes)
    = Ok (JArray match level_of (map step_id path) nodes with
                 | Some level => level
                 | None => []
                 end).
Proof.
  induction path as [|step path IH]; intros nodes Ht; [reflexivity|].
  cbn [currentLevel_loop map level_of]. rewrite (find_id_tree _ _ Ht).
  cbn [bind].
  destruct (find (has_id (step_id step)) nodes) as [node|] eqn:Hf; [|reflexivity].
  pose proof (find_is_node _ _ _ Ht Hf) as Hn.
  simpl or_undefined. rewrite (truthy_node node Hn).
  destruct (is_node_inv _ Hn) as (i & name & type & value & -> & Hv).
  rewrite type_of_node. read_fields.
  change (is_string (JString type) "dictionary") with (String.eqb type "dictionary").
  change (is_string (JString type) "list") with (String.eqb type "list").
  fold (is_container_type type). fold (DataNode i name type value).
  destruct (is_container_type type).
  - destruct Hv as (children & -> & Hc). rewrite children_of_node. now apply IH.
  - now destruct (children_of (DataNode i name type value)).
Qed.

Lemma filter_nil_forallb (p : JS -> bool) (l : list JS) :
  filter p l = [] -> forallb (fun n => negb (p n)) l = true.
Proof.
  induction l as [|a l IH]; [reflexivity|]. cbn [filter forallb].
  destruct (p a); [discriminate|]. exact IH.
Qed.

Lemma single_split (id : string) (nodes : list JS) (node : JS) :
  (length (filter (has_id id) nodes) =? 1)%nat = true ->
  find (has_id id) nodes = Some node ->
  exists pre post,
    nodes = (pre ++ node :: post)%list
    /\ forallb (fun n => negb (has_id id n)) pre = true
    /\ forallb (fun n => negb (has_id id n)) post = true
    /\ has_id id node = true.
Proof.
  induction nodes as [|a nodes IH]; intros Hlen Hf; [discriminate|].
  cbn [filter find] in Hlen, Hf. destruct (has_id id a) eqn:E.
  - inversion Hf; subst a. exists [], nodes. repeat split; [|exact E].
    apply filter_nil_forallb. cbn [length] in Hlen. apply Nat.eqb_eq in Hlen.
    destruct (filter (has_id id) nodes); [reflexivity|discriminate].
  - destruct (IH Hlen Hf) as (pre & post & -> & Hpre & Hpost & Hn).
    exists (a :: pre), post. repeat split; try assumption.
    cbn [forallb]. now rewrite E.
Qed.

Lemma find_middle (id : string) (pre post : list JS) (node : JS) :
  forallb (fun n => negb (has_id id n)) pre = true ->
  has_id id node = true ->
  find (has_id id) (pre ++ node :: post) = Some node.
Proof.
  intros Hpre Hn. induction pre as [|a pre IH].
  - rewrite app_nil_l. cbn [find]. now rewrite Hn.
  - rewrite <- app_comm_cons. cbn [find forallb] in *.
    apply andb_prop in Hpre as [Ha Hpre]. apply negb_true_iff in Ha.
    rewrite Ha. now apply IH.
Qed.

Lemma filter_middle (id : string) (pre post : list JS) (node : JS) :
  forallb (fun n => negb (has_id id n)) pre = true ->
  forallb (fun n => negb (has_id id n)) post = true ->
  has_id id node = true ->
  filter (has_id id) (pre ++ node :: post) = [node].
Proof.
  intros Hpre Hpost Hn.
  assert (Hnone : forall l, forallb (fun n => negb (has_id id n)) l = true ->
                            filter (has_id id) l = []).
  { induction l as [|a l IH]; [reflexivity|]. cbn [forallb filter]. intros H.
    apply andb_prop in H as [Ha Hl]. apply negb_true_iff in Ha.
    rewrite Ha. now apply IH. }
  rewrite filter_app. cbn [filter]. now rewrite Hn, (Hnone pre Hpre), (Hnone post Hpost).
Qed.

Lemma map_result_middle {A} (f : A -> result A) (pre post : list A) (x y : A) :
  (forall n, In n pre -> f n = Ok n) ->
  (forall n, In n post -> f n = Ok n) ->
  f x = Ok y ->
  map_result f (pre ++ x :: post) = Ok (pre ++ y :: post)%list.
Proof.
  intros Hpre Hpost Hx.
  assert (Hsame : forall l, (forall n, In n l -> f n = Ok n) -> map_result f l = Ok l).
  { induction l as [|a l IH]; intros H; [reflexivity|].
    cbn [map_result]. rewrite (H a (or_introl eq_refl)). cbn [bind].
    rewrite IH by (intros n Hn; apply H; now right). reflexivity. }
  induction pre as [|a pre IH].
  - rewrite app_nil_l. cbn [map_result]. rewrite Hx. cbn [bind].
    now rewrite (Hsame post Hpost).
  - rewrite <- !app_comm_cons. cbn [map_result].
    rewrite (Hpre a (or_introl eq_refl)). cbn [bind].
    rewrite IH by (intros n Hn; apply Hpre; now right). reflexivity.
Qed.

Lemma other_id_kept (id : string) (l : list JS) (k : JS -> result JS) :
  is_tree l = true ->
  forallb (fun n => negb (has_id id n)) l = true ->
  forall n, In n l ->
    (nid <- get n "id";; if is_string nid id then k n else Ok n)%js = Ok n.
Proof.
  intros Ht Hno n Hin.
  destruct (get_id_node n (is_tree_In _ _ Ht Hin)) as (i & Hi & ->).
  cbn [bind is_string]. rewrite forallb_forall in Hno. specialize (Hno n Hin).
  unfold has_id in Hno. rewrite Hi in Hno. apply negb_true_iff in Hno.
  now rewrite Hno.
Qed.

(** An update at the level that the path leads to: [recursiveUpdate] puts
    the updated level where the level was and changes nothing else. *)
Lemma update_at_level (updates : JS -> result JS) :
  forall (path : list PathStep) (nodes level level' : list JS),
    is_tree nodes = true ->
    single_ids (map step_id path) nodes = true ->
    level_of (map step_id path) nodes = Some level ->
    updates (JArray level) = Ok (JArray level') ->
    exists r,
      recursiveUpdate updates path (JArray nodes) = Ok (JArray r)
      /\ currentLevel_loop path (JArray r) = Ok (JArray level')
      /\ level_of (map step_id path) r = Some level'
      /\ single_ids (map step_id path) r = true
      /\ (is_tree level' = true -> is_tree r = true)
      /\ (level' = level -> r = nodes).
Proof.
  induction path as [|step path IH]; intros nodes level level' Ht Hs Hl Hu.
  - cbn [map level_of] in Hl. inversion Hl; subst level.
    exists level'. repeat split; auto.
  - cbn [map single_ids level_of] in Hs, Hl.
    apply andb_prop in Hs as [Hone Hs].
    destruct (find (has_id (step_id step)) nodes) as [node|] eqn:Hf; [|discriminate].
    destruct (single_split _ _ _ Hone Hf) as (pre & post & -> & Hpre & Hpost & Hid).
    destruct (is_tree_middle _ _ _ Ht) as (Htpre & Hnode & Htpost).
    destruct (is_node_inv _ Hnode) as (i & name & type & value & -> & _).
    rewrite type_of_node in Hl.
    destruct value; try discriminate Hl.
    rewrite children_of_node in Hl, Hs.
    destruct (is_container_type type) eqn:Hc; [|discriminate].
    rewrite has_id_node in Hid.
    destruct (IH items level level' (is_node_children _ _ _ _ Hnode) Hs Hl Hu)
      as (r & Hr & Hcur & Hlev & Hsing & Htree & Hsame).
    exists (pre ++ DataNode i name type (JArray r) :: post)%list.
    split; [|split; [|split; [|split; [|split]]]].
    + cbn [recursiveUpdate].
      rewrite (map_result_middle _ pre post _ (DataNode i name type (JArray r))).
      * reflexivity.
      * intros n Hn.
        exact (other_id_kept (step_id step) pre
                 (fun n => (value <- get n "value";;
                            value' <- recursiveUpdate updates path value;;
                            Ok (JObject (obj_set "value" value' (spread n))))%js)
                 Htpre Hpre n Hn).
      * intros n Hn.
        exact (other_id_kept (step_id step) post
                 (fun n => (value <- get n "value";;
                            value' <- recursiveUpdate updates path value;;
                            Ok (JObject (obj_set "value" value' (spread n))))%js)
                 Htpost Hpost n Hn).
      * rewrite get_node_id. cbn [bind is_string]. rewrite Hid.
        rewrite get_node_value. cbn [bind]. rewrite Hr. cbn [bind].
        now rewrite set_value_node.
    + cbn [currentLevel_loop].
      assert (Hfind : find_id (step_id step)
                        (pre ++ DataNode i name type (JArray r) :: post)
                      = Ok (DataNode i name type (JArray r))).
      { clear - Htpre Hpre Hid. induction pre as [|a pre IHp].
        - rewrite app_nil_l. cbn [find_id]. rewrite get_node_id.
          cbn [bind is_string]. now rewrite Hid.
        - rewrite <- app_comm_cons. cbn [find_id].
          rewrite is_tree_cons in Htpre. apply andb_prop in Htpre as [Ha Htpre].
          cbn [forallb] in Hpre. apply andb_prop in Hpre as [Hna Hpre].
          destruct (get_id_node a Ha) as (j & Hj & ->). cbn [bind is_string].
          unfold has_id in Hna. rewrite Hj in Hna. apply negb_true_iff in Hna.
          rewrite Hna. now apply IHp. }
      rewrite Hfind. cbn [bind].
      change (truthy (DataNode i name type (JArray r))) with true. cbv beta iota.
      rewrite get_node_type. cbn [bind].
      change (is_string (JString type) "dictionary") with (String.eqb type "dictionary").
      change (is_string (JString type) "list") with (String.eqb type "list").
      fold (is_container_type type). rewrite Hc. exact Hcur.
    + cbn [map level_of]. rewrite find_middle by (assumption || now rewrite has_id_node).
      now rewrite type_of_node, children_of_node, Hc.
    + cbn [map single_ids].
      rewrite filter_middle by (assumption || now rewrite has_id_node).
      rewrite find_middle by (assumption || now rewrite has_id_node).
      now rewrite children_of_node.
    + intros Hl'. rewrite is_tree_app, is_tree_cons, Htpre, Htpost, is_node_fits.
      unfold fits. now rewrite Hc, (Htree Hl').
    + intros E. now rewrite (Hsame E).
Qed.


Lemma currentLevelNodes_loop (data : JS) (path : list PathStep) :
  currentLevelNodes data path = currentLevel_loop path data.
Proof. now destruct path. Qed.

Lemma level_of_app :
  forall (ids1 ids2 : list string) (nodes : list JS),
    level_of (ids1 ++ ids2) nodes
    = match level_of ids1 nodes with
      | Some level => level_of ids2 level
      | None => None
      end.
Proof.
  induction ids1 as [|id ids1 IH]; intros ids2 nodes; [reflexivity|].
  rewrite <- app_comm_cons. cbn [level_of].
  destruct (find (has_id id) nodes) as [node|]; [|reflexivity].
  destruct (type_of node); [|reflexivity].
  destruct (children_of node); [|reflexivity].
  destruct (is_container_type s); [apply IH|reflexivity].
Qed.

Lemma map_result_ext {A B} (f g : A -> result B) (l : list A) :
  (forall x, f x = g x) -> map_result f l = map_result g l.
Proof.
  intros H. induction l as [|a l IH]; [reflexivity|].
  cbn [map_result]. now rewrite H, IH.
Qed.

Lemma recursiveUpdate_app (updates : JS -> result JS) :
  forall (path1 path2 : list PathStep) (nodes : JS),
    recursiveUpdate updates (path1 ++ path2) nodes
    = recursiveUpdate (recursiveUpdate updates path2) path1 nodes.
Proof.
  induction path1 as [|step path1 IH]; intros path2 nodes; [reflexivity|].
  rewrite <- app_comm_cons. cbn [recursiveUpdate].
  destruct nodes; try reflexivity.
  erewrite map_result_ext; [reflexivity|].
  intros node. cbv beta. destruct (get node "id") as [nid|]; [|reflexivity].
  cbn [bind]. destruct (is_string nid (step_id step)); [|reflexivity].
  destruct (get node "value"); [|reflexivity]. cbn [bind]. now rewrite IH.
Qed.

Lemma find_none_forallb (p : JS -> bool) (l : list JS) :
  find p l = None -> forallb (fun n => negb (p n)) l = true.
Proof.
  induction l as [|a l IH]; [reflexivity|]. cbn [find forallb].
  destruct (p a); [discriminate|]. exact IH.
Qed.

Lemma filter_out_id_tree (id : string) (nodes : list JS) :
  is_tree nodes = true ->
  filter_out_id id nodes = Ok (filter (fun n => negb (has_id id n)) nodes).
Proof.
  induction nodes as [|n nodes IH]; intros Ht; [reflexivity|].
  rewrite is_tree_cons in Ht. apply andb_prop in Ht as [Hn Ht].
  destruct (get_id_node n Hn) as (i & Hi & Hget).
  cbn [filter_out_id filter]. rewrite Hget, (IH Ht). cbn [bind is_string].
  unfold has_id. rewrite Hi. now destruct (String.eqb i id).
Qed.

Lemma is_tree_filter (p : JS -> bool) (nodes : list JS) :
  is_tree nodes = true -> is_tree (filter p nodes) = true.
Proof.
  induction nodes as [|n nodes IH]; intros Ht; [reflexivity|].
  rewrite is_tree_cons in Ht. apply andb_prop in Ht as [Hn Ht].
  cbn [filter]. destruct (p n); [|now apply IH].
  now rewrite is_tree_cons, Hn, IH.
Qed.

Lemma filter_all (p : JS -> bool) (l : list JS) :
  forallb p l = true -> filter p l = l.
Proof.
  induction l as [|a l IH]; [reflexivity|]. cbn [forallb filter]. intros H.
  apply andb_prop in H as [Ha Hl]. now rewrite Ha, IH.
Qed.

Lemma set_value_of_tree (id : string) (newValue : JS) (level : list JS) :
  is_tree level = true ->
  exists level',
    set_value_of id newValue (JArray level) = Ok (JArray level')
    /\ length level' = length level
    /\ (forall k i name type value,
           nth_error level k = Some (DataNode i name type value) ->
           nth_error level' k
           = Some (DataNode i name type
                     (if String.eqb i id then newValue else value)))
    /\ (forallb (fun n => negb (has_id id n)) level = true -> level' = level).
Proof.
  induction level as [|n level IH]; intros Ht.
  - exists []. repeat split; auto. intros k. now destruct k.
  - rewrite is_tree_cons in Ht. apply andb_prop in Ht as [Hn Ht].
    destruct (IH Ht) as (level' & Hset & Hlen & Hnth & Hsame).
    destruct (is_node_inv _ Hn) as (i & name & type & value & -> & _).
    exists (DataNode i name type (if String.eqb i id then newValue else value)
            :: level').
    cbn [set_value_of] in Hset |- *. cbn [map_result].
    destruct (map_result _ level) as [l'|]; [|discriminate].
    cbn [bind] in Hset. inversion Hset; subst l'.
    rewrite get_node_id. cbn [bind is_string].
    split; [|split; [|split]].
    + destruct (String.eqb i id); [now rewrite set_value_node|reflexivity].
    + cbn [length]. now rewrite Hlen.
    + intros k i0 name0 type0 value0 Hk. destruct k as [|k]; cbn [nth_error] in *.
      * unfold DataNode in Hk. injection Hk as E1 E2 E3 E4. now subst.
      * now apply Hnth.
    + cbn [forallb]. intros H. apply andb_prop in H as [Hi Hl].
      rewrite has_id_node in Hi. apply negb_true_iff in Hi.
      now rewrite Hi, (Hsame Hl).
Qed.

(** X12.  An update made through [updateDataTree] is the update of the
    level that [currentLevelNodes] shows: on a tree in which the
    identifiers of the path each name one node of their level, the level
    shown afterwards is what the update function returned for the level
    shown before, and an update that returns its level unchanged leaves the
    whole tree unchanged. *)
Theorem update_shows_at_current_level (updates : JS -> result JS)
    (path : list PathStep) (nodes level level' : list JS) :
  is_tree nodes = true ->
  single_ids (map step_id path) nodes = true ->
  level_of (map step_id path) nodes = Some level ->
  updates (JArray level) = Ok (JArray level') ->
  currentLevelNodes (JArray nodes) path = Ok (JArray level)
  /\ exists r,
       updateDataTree updates path (JArray nodes) = Ok (JArray r)
       /\ currentLevelNodes (JArray r) path = Ok (JArray level')
       /\ (level' = level -> r = nodes).
Proof.
  intros Ht Hs Hl Hu. split.
  - now rewrite currentLevelNodes_loop, (currentLevel_loop_tree _ _ Ht), Hl.
  - destruct (update_at_level updates path nodes level level' Ht Hs Hl Hu)
      as (r & Hr & Hcur & _ & _ & _ & Hsame).
    exists r. rewrite currentLevelNodes_loop. auto.
Qed.

(** X13.  [handleDelete], once confirmed, removes from the current level
    the nodes with the given identifier and nothing else: the nodes that
    stay keep their names and their order, also in a list, and a tree
    stays a tree. *)
Theorem delete_removes_only_that_id (id : string) (path : list PathStep)
    (nodes level : list JS) :
  is_tree nodes = true ->
  single_ids (map step_id path) nodes = true ->
  level_of (map step_id path) nodes = Some level ->
  exists r,
    handleDelete id true path (JArray nodes) = Ok (JArray r)
    /\ is_tree r = true
    /\ currentLevelNodes (JArray r) path
       = Ok (JArray (filter (fun n => negb (has_id id n)) level))
    /\ (forallb (fun n => negb (has_id id n)) level = true -> r = nodes).
Proof.
  intros Ht Hs Hl.
  pose proof (level_of_is_tree _ _ _ Ht Hl) as Hlt.
  assert (Hu : remove_id id (JArray level)
               = Ok (JArray (filter (fun n => negb (has_id id n)) level))).
  { cbn [remove_id]. now rewrite (filter_out_id_tree _ _ Hlt). }
  destruct (update_at_level _ path nodes level _ Ht Hs Hl Hu)
    as (r & Hr & Hcur & _ & _ & Htree & Hsame).
  exists r. rewrite currentLevelNodes_loop. repeat split; auto.
  - apply Htree. now apply is_tree_filter.
  - intros Hno. apply Hsame. now apply filter_all.
Qed.

(** X14.  [handleUpdateValue] replaces the value of the nodes of the
    current level that have the given identifier and keeps their
    identifier, name and type; the other nodes of the level stay, and when
    no node of the level has the identifier the tree is unchanged. *)
Theorem update_value_keeps_the_rest (id : string) (newValue : JS)
    (path : list PathStep) (nodes level : list JS) :
  is_tree nodes = true ->
  single_ids (map step_id path) nodes = true ->
  level_of (map step_id path) nodes = Some level ->
  exists r level',
    handleUpdateValue id newValue path (JArray nodes) = Ok (JArray r)
    /\ currentLevelNodes (JArray r) path = Ok (JArray level')
    /\ length level' = length level
    /\ (forall k i name type value,
           nth_error level k = Some (DataNode i name type value) ->
           nth_error level' k
           = Some (DataNode i name type
                     (if String.eqb i id then newValue else value)))
    /\ (forallb (fun n => negb (has_id id n)) level = true -> r = nodes).
Proof.
  intros Ht Hs Hl.
  pose proof (level_of_is_tree _ _ _ Ht Hl) as Hlt.
  destruct (set_value_of_tree id newValue level Hlt)
    as (level' & Hu & Hlen & Hnth & Hsame).
  destruct (update_at_level _ path nodes level level' Ht Hs Hl Hu)
    as (r & Hr & Hcur & _ & _ & _ & Hsame').
  exists r, level'. rewrite currentLevelNodes_loop. repeat split; auto.
Qed.

(** X15.  A path whose next identifier names no node of the level it has
    reached shows an empty level, and every update made through it leaves
    the tree as it is: nothing is added, deleted or changed, and nothing is
    thrown. *)
Theorem stale_path_edits_nothing (updates : JS -> result JS)
    (path1 path2 : list PathStep) (step : PathStep) (nodes level : list JS) :
  is_tree nodes = true ->
  single_ids (map step_id path1) nodes = true ->
  level_of (map step_id path1) nodes = Some level ->
  find (has_id (step_id step)) level = None ->
  currentLevelNodes (JArray nodes) (path1 ++ step :: path2) = Ok (JArray [])
  /\ updateDataTree updates (path1 ++ step :: path2) (JArray nodes)
     = Ok (JArray nodes).
Proof.
  intros Ht Hs Hl Hf. split.
  - rewrite currentLevelNodes_loop, (currentLevel_loop_tree _ _ Ht).
    rewrite map_app, level_of_app, Hl. cbn [map level_of]. now rewrite Hf.
  - unfold updateDataTree. rewrite recursiveUpdate_app.
    pose proof (level_of_is_tree _ _ _ Ht Hl) as Hlt.
    assert (Hu : recursiveUpdate updates (step :: path2) (JArray level)
                 = Ok (JArray level)).
    { cbn [recursiveUpdate].
      assert (Hsame : forall (f : JS -> result JS) (l : list JS),
                 (forall n, In n l -> f n = Ok n) -> map_result f l = Ok l).
      { intros f. induction l as [|a l IH]; intros H; [reflexivity|].
        cbn [map_result]. rewrite (H a (or_introl eq_refl)). cbn [bind].
        rewrite IH by (intros n Hn; apply H; now right). reflexivity. }
      rewrite Hsame; [reflexivity|]. intros n Hn.
      exact (other_id_kept (step_id step) level
               (fun n => (value <- get n "value";;
                          value' <- recursiveUpdate updates path2 value;;
                          Ok (JObject (obj_set "value" value' (spread n))))%js)
               Hlt (find_none_forallb _ _ Hf) n Hn). }
    destruct (update_at_level _ path1 nodes level level Ht Hs Hl Hu)
      as (r & Hr & _ & _ & _ & _ & Hsame).
    rewrite Hr. now rewrite (Hsame eq_refl).
Qed.


Lemma is_tree_snoc (level : list JS) (n : JS) :
  is_tree level = true -> is_node n = true -> is_tree (level ++ [n]) = true.
Proof.
  intros Hl Hn. now rewrite is_tree_app, is_tree_cons, Hl, Hn.
Qed.

Lemma new_node_fits (id name type : string) (value : JS) :
  is_primitive value = true ->
  is_node (DataNode id name type
             (if is_container_type type then JArray [] else value)) = true.
Proof.
  intros Hv. rewrite is_node_fits. unfold fits.
  now destruct (is_container_type type).
Qed.

(** [handleAdd] past its guard, on a tree: one node added after the nodes
    of the current level. *)
Lemma handleAdd_appends (newItemName newItemType : string) (newItemValue : JS)
    (path : list PathStep) (nodes level : list JS) (s : nat) :
  is_tree nodes = true ->
  single_ids (map step_id path) nodes = true ->
  level_of (map step_id path) nodes = Some level ->
  is_blank newItemName && negb (in_list path) = false ->
  exists r,
    handleAdd newItemName newItemType newItemValue path (JArray nodes) s
    = Ok (JArray r, S s)
    /\ currentLevel_loop path (JArray r)
       = Ok (JArray
               (level ++
                [DataNode (nth_id s)
                   (if in_list path then string_of_index (length level)
                    else newItemName)
                   newItemType
                   (if is_container_type newItemType then JArray []
                    else newItemValue)]))
    /\ (is_primitive newItemValue = true -> is_tree r = true).
Proof.
  intros Ht Hs Hl Hguard.
  pose proof (level_of_is_tree _ _ _ Ht Hl) as Hlt.
  set (name := if in_list path then string_of_index (length level)
               else newItemName).
  set (newNode := DataNode (nth_id s) name newItemType
                    (if is_container_type newItemType then JArray []
                     else newItemValue)).
  assert (Hu : append_node newNode (JArray level)
               = Ok (JArray (level ++ [newNode]))) by reflexivity.
  destruct (update_at_level _ path nodes level _ Ht Hs Hl Hu)
    as (r & Hr & Hcur & _ & _ & Htree & _).
  exists r. split; [|split].
  - unfold handleAdd. rewrite Hguard. unfold bindM.
    assert (Hname :
      (if in_list path
       then lift (level0 <- currentLevelNodes (JArray nodes) path;;
                  length_text level0)%js
       else ret newItemName) s = Ok (name, s)).
    { subst name. destruct (in_list path); [|reflexivity].
      rewrite currentLevelNodes_loop, (currentLevel_loop_tree _ _ Ht), Hl.
      reflexivity. }
    rewrite Hname. unfold generateId. fold newNode.
    unfold updateDataTree. rewrite Hr. reflexivity.
  - exact Hcur.
  - intros Hv. apply Htree. apply is_tree_snoc; [exact Hlt|].
    subst newNode. now apply new_node_fits.
Qed.

(** X16.  [handleAdd] adds one node after the nodes of the current level,
    with the next identifier: outside a list it is named by the name of
    the form, inside a list by the number of nodes that the level holds;
    a container starts empty whatever the form's value is.  A tree stays a
    tree when the form's value is a primitive. *)
Theorem add_appends_at_current_level (newItemName newItemType : string)
    (newItemValue : JS) (path : list PathStep) (nodes level : list JS) (s : nat) :
  is_tree nodes = true ->
  single_ids (map step_id path) nodes = true ->
  level_of (map step_id path) nodes = Some level ->
  is_blank newItemName && negb (in_list path) = false ->
  exists r,
    handleAdd newItemName newItemType newItemValue path (JArray nodes) s
    = Ok (JArray r, S s)
    /\ currentLevelNodes (JArray r) path
       = Ok (JArray
               (level ++
                [DataNode (nth_id s)
                   (if in_list path then string_of_index (length level)
                    else newItemName)
                   newItemType
                   (if is_container_type newItemType then JArray []
                    else newItemValue)]))
    /\ (is_primitive newItemValue = true -> is_tree r = true).
Proof.
  intros Ht Hs Hl Hguard.
  destruct (handleAdd_appends newItemName newItemType newItemValue path nodes
              level s Ht Hs Hl Hguard) as (r & H1 & H2 & H3).
  exists r. rewrite currentLevelNodes_loop. auto.
Qed.

Lemma first_named_app_some (name : string) (l1 l2 : list JS) (n : JS) :
  first_named name l1 = Some n -> first_named name (l1 ++ l2) = Some n.
Proof.
  induction l1 as [|a l1 IH]; [discriminate|].
  rewrite <- app_comm_cons. cbn [first_named].
  destruct (has_name name a); [auto|exact IH].
Qed.

Lemma last_named_snoc (name : string) (l : list JS) (n : JS) :
  has_name name n = true -> last_named name (l ++ [n]) = Some n.
Proof.
  intros Hn. induction l as [|a l IH].
  - rewrite app_nil_l. cbn [last_named]. now rewrite Hn.
  - rewrite <- app_comm_cons. cbn [last_named]. now rewrite IH.
Qed.

(** X17.  [handleAdd] does not look for the name among the nodes of the
    level.  When the top level already has a node of that name, the new
    node is added all the same; a reference to the name still resolves to
    the old node, and the export, for a name other than [__proto__], holds
    the value of the new one. *)
Theorem added_duplicate_name_is_shadowed (name type : string) (value old : JS)
    (nodes : list JS) (s : nat) :
  is_tree nodes = true ->
  is_blank name = false ->
  no_dot name = true ->
  name <> "__proto__" ->
  is_container_type type = false ->
  is_primitive value = true ->
  first_named name nodes = Some old ->
  exists r out,
    handleAdd name type value [] (JArray nodes) s = Ok (JArray r, S s)
    /\ r = (nodes ++ [DataNode (nth_id s) name type value])%list
    /\ resolvePath (JArray r) name = Ok old
    /\ exportData (JArray r) = Ok out
    /\ lookup name (own out) = Some value.
Proof.
  intros Ht Hb Hd Hname Hc Hv Hold. apply String.eqb_neq in Hname.
  set (newNode := DataNode (nth_id s) name type value).
  assert (Hnew : is_node newNode = true).
  { subst newNode. rewrite is_node_fits. unfold fits. now rewrite Hc. }
  pose proof (is_tree_snoc nodes newNode Ht Hnew) as Htr.
  destruct (export_tree_total _ Htr) as (Hall & _ & Hkeys).
  destruct (Hall (mkBuilt [] true)) as (out & Hout).
  exists (nodes ++ [newNode])%list, out.
  split; [|split; [|split; [|split]]].
  - unfold handleAdd. rewrite Hb, Hc. reflexivity.
  - reflexivity.
  - unfold resolvePath. rewrite (split_dot_segment _ Hd).
    rewrite (resolve_loop_walk _ _ Htr). cbn [walk]. unfold select.
    now rewrite (first_named_app_some _ _ _ _ Hold).
  - now rewrite exportData_array.
  - pose proof (forEach_set_lookup _ _ _ Hkeys Hout name Hname) as L.
    rewrite (last_named_snoc name nodes newNode) in L
      by (subst newNode; rewrite has_name_node; apply String.eqb_refl).
    destruct L as (e & He & Hlook). subst newNode.
    rewrite export_node_leaf in He by (now destruct value).
    now inversion He; subst e.
Qed.

(** X18.  The names of a list are not renumbered.  In a list whose last
    node is named by its position, deleting another node and then adding a
    node gives the new node the name that the last node already has. *)
Theorem list_names_repeat_after_delete (id name type : string) (value kept : JS)
    (path : list PathStep) (nodes front : list JS) (s : nat) :
  is_tree nodes = true ->
  single_ids (map step_id path) nodes = true ->
  level_of (map step_id path) nodes = Some (front ++ [kept])%list ->
  in_list path = true ->
  length (filter (has_id id) front) = 1%nat ->
  has_id id kept = false ->
  name_of kept = Some (string_of_index (length front)) ->
  exists r r' level' new,
    handleDelete id true path (JArray nodes) = Ok (JArray r)
    /\ handleAdd name type value path (JArray r) s = Ok (JArray r', S s)
    /\ currentLevelNodes (JArray r') path = Ok (JArray (level' ++ [kept; new]))
    /\ name_of new = name_of kept.
Proof.
  intros Ht Hs Hl Hin Hone Hkept Hname.
  pose proof (level_of_is_tree _ _ _ Ht Hl) as Hlt.
  set (rest := filter (fun n => negb (has_id id n)) front).
  assert (Hfilter : filter (fun n => negb (has_id id n)) (front ++ [kept])
                    = (rest ++ [kept])%list).
  { rewrite filter_app. cbn [filter]. now rewrite Hkept. }
  assert (Hlen : length (rest ++ [kept]) = length front).
  { rewrite length_app. cbn [length]. subst rest.
    pose proof (filter_length (has_id id) front). lia. }
  assert (Hu : remove_id id (JArray (front ++ [kept]))
               = Ok (JArray (rest ++ [kept]))).
  { cbn [remove_id]. now rewrite (filter_out_id_tree _ _ Hlt), Hfilter. }
  destruct (update_at_level _ path nodes _ _ Ht Hs Hl Hu)
    as (r & Hr & _ & Hlev & Hsing & Htree & _).
  assert (Htr : is_tree r = true).
  { apply Htree. rewrite <- Hfilter. now apply is_tree_filter. }
  assert (Hguard : is_blank name && negb (in_list path) = false)
    by (rewrite Hin; apply andb_false_r).
  destruct (handleAdd_appends name type value path r _ s Htr Hsing Hlev Hguard)
    as (r' & Hadd & Hcur & _).
  rewrite Hin, Hlen in Hcur.
  exists r, r', rest,
    (DataNode (nth_id s) (string_of_index (length front)) type
       (if is_container_type type then JArray [] else value)).
  split; [exact Hr|]. split; [exact Hadd|]. split.
  - rewrite currentLevelNodes_loop, Hcur. now rewrite <- app_assoc.
  - now rewrite Hname.
Qed.


(** ** The import button *)

Lemma import_entry_total (key : string) (val : JS) (s : nat) :
  exists node s',
    import_entry (parseImport val) key val s = Ok (node, s')
    /\ name_of node = Some key.
Proof.
  destruct val.
  - eexists _, _. split; reflexivity.
  - eexists _, _. split; reflexivity.
  - eexists _, _. split; reflexivity.
  - eexists _, _. split; reflexivity.
  - eexists _, _. split; reflexivity.
  - destruct (import_items_total items 0 s) as (its & Himp & _ & _).
    eexists _, _. split.
    + rewrite import_entry_array. unfold bindM. rewrite Himp.
      unfold ret, generateId. reflexivity.
    + reflexivity.
  - destruct (import_of_objects _ props eq_refl s) as (nodes & s' & Himp & _ & _).
    eexists _, _. split.
    + rewrite import_entry_object. unfold bindM. rewrite Himp.
      unfold ret, generateId. reflexivity.
    + reflexivity.
Qed.

Lemma import_elements_total :
  forall (items : list JS) (idx s : nat),
    exists nodes s',
      import_elements parseImport idx items s = Ok (nodes, s')
      /\ length nodes = length items.
Proof.
  induction items as [|val items IH]; intros idx s.
  - exists [], s. split; reflexivity.
  - destruct (import_entry_total (string_of_index idx) val s)
      as (node & s1 & Hent & _).
    destruct (IH (S idx) s1) as (nodes & s' & Himp & Hlen).
    exists (node :: nodes), s'. split.
    + cbn [import_elements]. unfold bindM at 1. rewrite Hent.
      unfold bindM at 1. rewrite Himp. reflexivity.
    + cbn [length]. now rewrite Hlen.
Qed.

Lemma import_chars_total :
  forall (str : string) (idx s : nat),
    exists nodes s',
      import_chars idx str s = Ok (nodes, s')
      /\ length nodes = String.length str.
Proof.
  induction str as [|c str IH]; intros idx s.
  - exists [], s. split; reflexivity.
  - destruct (IH (S idx) (S s)) as (nodes & s' & Himp & Hlen).
    eexists (_ :: nodes), s'. split.
    + cbn [import_chars]. unfold bindM at 1.
      change (import_entry (raise TypeError_message) (string_of_index idx)
                (JString (String c "")) s)
        with (@Ok (JS * nat)
                (DataNode (nth_id s) (string_of_index idx) "text"
                   (JString (String c "")), S s)).
      unfold bindM at 1. rewrite Himp. reflexivity.
    + cbn [length String.length]. now rewrite Hlen.
Qed.

(** X19.  The import button never throws, whatever [JSON.parse] returned.
    For [null] the tree stays, and no identifier is used; a number or a
    boolean empties the tree; a string gives one node for each character,
    an array one node for each element, and an object one node for each
    key, named by the key. *)
Theorem import_button_replaces_or_keeps (parsed data : JS) (s : nat) :
  exists tree s',
    import_click parsed data s = Ok (tree, s')
    /\ match parsed with
       | JUndefined => tree = data /\ s' = s
       | JNull => tree = data /\ s' = s
       | JBool _ => tree = JArray []
       | JNumber _ => tree = JArray []
       | JString str =>
           exists nodes, tree = JArray nodes /\ length nodes = String.length str
       | JArray items =>
           exists nodes, tree = JArray nodes /\ length nodes = length items
       | JObject props =>
           exists nodes, tree = JArray nodes
                         /\ map name_of nodes = map Some (keys props)
       end.
Proof.
  unfold import_click. destruct parsed.
  - exists data, s. now split.
  - exists data, s. now split.
  - exists (JArray []), s. now split.
  - exists (JArray []), s. now split.
  - destruct (import_chars_total s0 0 s) as (nodes & s' & Himp & Hlen).
    exists (JArray nodes), s'. cbn [parseImport]. unfold bindM. rewrite Himp.
    split; [reflexivity|]. now exists nodes.
  - destruct (import_elements_total items 0 s) as (nodes & s' & Himp & Hlen).
    exists (JArray nodes), s'. cbn [parseImport]. unfold bindM. rewrite Himp.
    split; [reflexivity|]. now exists nodes.
  - destruct (import_of_objects _ props eq_refl s) as (nodes & s' & Himp & Hn & _).
    exists (JArray nodes), s'. rewrite Himp.
    split; [reflexivity|]. now exists nodes.
Qed.


(** X20.  What a request over the URL wrote, a reference reads: unless a
    leaf blocks the key, the key then resolves to a node of the requested
    kind ([text] when the URL names none) that holds the value of the
    URL, read by [parseFloat] for a number, compared with [true] for a
    boolean, and empty for a container. *)
Theorem url_request_is_readable (k : string) (value type : option string)
    (nodes : list JS) (s : nat) :
  let v := match value with Some v => v | None => "" end in
  let ty := match type with
            | Some t => if String.eqb t "" then "text" else t
            | None => "text"
            end in
  let cv := if is_container_type ty then JArray []
            else if String.eqb ty "boolean" then JBool (String.eqb v "true")
            else if String.eqb ty "number" then JNumber (parseFloat v)
            else JString v in
  is_tree nodes = true ->
  k <> "" ->
  blocked (path_key k) (path_rest k) nodes = false ->
  exists r s' id,
    checkUrl (Some k) value type (JArray nodes) s = Ok (JArray r, s')
    /\ resolvePath (JArray r) k
       = Ok (DataNode id (last (path_rest k) (path_key k)) ty cv).
Proof.
  intros v ty cv Ht Hk Hb.
  apply String.eqb_neq in Hk.
  destruct (resolve_after_parts _ _ _ cv ty s Ht Hb) as (r & s' & id & H1 & H2).
  exists r, s', id. split.
  - unfold checkUrl. rewrite Hk. cbn [negb]. fold v. fold ty.
    unfold handleApiTrigger. rewrite Hk. cbn [negb]. fold (is_container_type ty).
    replace (if is_container_type ty then JArray []
             else if String.eqb ty "boolean" then JBool (String.eqb v "true")
                  else if String.eqb ty "number" then JNumber (parseFloat v)
                       else JString v) with cv by reflexivity.
    exact H1.
  - unfold resolvePath. unfold path_key, path_rest in *.
    destruct (split_dot k) as [|k0 ks] eqn:E; [now elim (split_dot_nonempty k)|].
    exact H2.
Qed.

End Program.

(** * The code that is run *)

Lemma strip_return_return (text : string) :
  strip_return ("return " ++ text) = Some text.
Proof. reflexivity. Qed.

(** X21.  The only code that [evaluateExpression] hands to the runner is
    [return] followed by a text of digits, [+ - * / ( ) .] and white space:
    two runners that agree on these bodies give the same result for every
    expression and every tree, whatever they do with other code. *)
Theorem only_arithmetic_text_is_run (number_to_string : float -> string)
    (isNaN_Number : string -> bool) (run1 run2 : string -> result JS)
    (TypeError_message : string) (expression : string) (root : JS) :
  (forall text, strict_math text = true ->
                run1 ("return " ++ text) = run2 ("return " ++ text)) ->
  evaluateExpression number_to_string isNaN_Number run1 TypeError_message
    expression root
  = evaluateExpression number_to_string isNaN_Number run2 TypeError_message
      expression root.
Proof.
  intros H. unfold evaluateExpression.
  destruct (String.eqb expression ""); [reflexivity|].
  destruct (substitute number_to_string TypeError_message expression root)
    as [[resolved refs]|]; [|reflexivity].
  cbn [bind fst snd].
  destruct ((has_math_char resolved || negb (isNaN_Number resolved)) && refs);
    [|reflexivity].
  destruct (strict_math resolved) eqn:E; [|reflexivity].
  cbn [negb]. now rewrite (H resolved E).
Qed.

(** * The claims at concrete inputs *)

Lemma export_import_round_trip_witness :
  json_class (JObject sample_json) = true
  /\ proto_free (JObject sample_json) = true
  /\ exists nodes s' out,
       parseImport sample_nth_id sample_TypeError_message (JObject sample_json) 0
       = Ok (JArray nodes, s')
       /\ exportData sample_number_to_string sample_TypeError_message (JArray nodes)
          = Ok out
       /\ built_value out = JObject sample_json.
Proof.
  split; [reflexivity|]. split; [reflexivity|].
  apply (export_import_round_trip sample_number_to_string sample_nth_id
           sample_TypeError_message sample_json 0); reflexivity.
Defined.

(** The key [__proto__] does not come back: the import has a node of that
    name, and the assignment of the export, on the object [{}], reaches the
    setter of [Object.prototype] and creates no property. *)
Lemma export_drops_proto_key :
  json_class (JObject [("__proto__", JNumber 5); ("a", JNumber 1)]) = true
  /\ exists nodes s' out,
       parseImport sample_nth_id sample_TypeError_message
         (JObject [("__proto__", JNumber 5); ("a", JNumber 1)]) 0
       = Ok (JArray nodes, s')
       /\ exportData sample_number_to_string sample_TypeError_message (JArray nodes)
          = Ok out
       /\ built_value out = JObject [("a", JNumber 1)]
       /\ built_value out <> JObject [("__proto__", JNumber 5); ("a", JNumber 1)].
Proof.
  split; [reflexivity|]. eexists _, _, _.
  split; [reflexivity|]. split; [reflexivity|]. split; [reflexivity|].
  discriminate.
Qed.

Lemma deepSet_idempotent_witness :
  is_tree default_tree = true
  /\ exists r s',
       setDeepValue sample_nth_id sample_TypeError_message (JArray default_tree)
         "config.colors.accent" (JString "teal") "text" 0 = Ok (r, s')
       /\ forall s2,
            setDeepValue sample_nth_id sample_TypeError_message r
              "config.colors.accent" (JString "teal") "text" s2 = Ok (r, s2).
Proof.
  split; [reflexivity|].
  apply (deepSet_idempotent sample_nth_id sample_TypeError_message).
  reflexivity.
Defined.

Lemma unresolved_reference_gives_ERR_witness :
  is_tree default_tree = true
  /\ In "missing" (ref_tokens "{{price}} + {{missing}}")
  /\ resolvePath sample_TypeError_message (JArray default_tree) "missing"
     = Ok JUndefined
  /\ exists q,
       first_unresolved sample_TypeError_message (JArray default_tree)
         (ref_tokens "{{price}} + {{missing}}") = Some q
       /\ In q (ref_tokens "{{price}} + {{missing}}")
       /\ resolvePath sample_TypeError_message (JArray default_tree) q
          = Ok JUndefined
       /\ evaluateExpression sample_number_to_string sample_isNaN_Number
            sample_run_function sample_TypeError_message
            "{{price}} + {{missing}}" (JArray default_tree)
          = mkEvalResult (JString "ERR") (Some ("Key not found: " ++ q)).
Proof.
  split; [reflexivity|]. split; [right; left; reflexivity|]. split; [reflexivity|].
  apply (unresolved_reference_gives_ERR sample_number_to_string sample_isNaN_Number
           sample_run_function sample_TypeError_message default_tree
           "{{price}} + {{missing}}" "missing").
  - reflexivity.
  - right; left; reflexivity.
  - reflexivity.
Defined.

Lemma deepSet_creates_missing_witness :
  is_tree default_tree = true
  /\ path_rest "config.colors.accent" = ([] ++ "colors" :: ["accent"])%list
  /\ locate (path_key "config.colors.accent") [] default_tree
     = Some (DataNode "2" "config" "dictionary" (JArray config_level))
  /\ first_named "colors" config_level = None
  /\ exists nodes',
       setDeepValue sample_nth_id sample_TypeError_message (JArray default_tree)
         "config.colors.accent" (JString "red") "text" 0
       = Ok (JArray nodes', 0 + S (length ["accent"]))%nat
       /\ locate (path_key "config.colors.accent") [] nodes'
          = Some (DataNode "2" "config" "dictionary"
                    (JArray (config_level
                             ++ [DataNode "id0" "colors" "dictionary"
                                   (JArray [DataNode "id1" "accent" "text"
                                              (JString "red")])])))
       /\ length nodes' = length default_tree.
Proof.
  split; [reflexivity|]. split; [reflexivity|]. split; [reflexivity|].
  split; [reflexivity|].
  exact (proj1 (proj2 (deepSet_creates_missing sample_nth_id
                         sample_TypeError_message default_tree
                         "config.colors.accent" (JString "red") "text" 0 eq_refl))
           [] "colors" ["accent"] "2" "config" "dictionary" config_level
           eq_refl eq_refl eq_refl eq_refl).
Defined.

(** The identifier of a new node is what [generateId] returns, and nothing
    compares it with the identifiers of the tree: when the draw is ["1"],
    the new leaf has the identifier of the first node of the tree that the
    application starts with. *)
Lemma deepSet_identifier_not_fresh :
  exists leaf,
    setDeepValue (fun _ => "1") sample_TypeError_message (JArray default_tree)
      "note" (JString "x") "text" 0
    = Ok (JArray (default_tree ++ [leaf]), 1%nat)
    /\ id_of leaf = Some "1"
    /\ existsb (has_id "1") default_tree = true.
Proof. eexists. split; [reflexivity|]. split; reflexivity. Qed.

Lemma text_outside_strict_charset_witness :
  substitute sample_number_to_string sample_TypeError_message "Hello {{name}}"
    (JArray [DataNode "1" "name" "text" (JString "World")])
  = Ok ("Hello World", true)
  /\ string_exists (fun c => negb (strict_char c)) "Hello World" = true
  /\ evaluateExpression sample_number_to_string sample_isNaN_Number
       sample_run_function sample_TypeError_message "Hello {{name}}"
       (JArray [DataNode "1" "name" "text" (JString "World")])
     = mkEvalResult (JString "Hello World") None.
Proof.
  split; [reflexivity|]. split; [reflexivity|].
  apply (text_outside_strict_charset sample_number_to_string sample_isNaN_Number
           sample_run_function sample_TypeError_message); reflexivity.
Defined.

Lemma resolve_by_name_then_parseInt_witness :
  is_tree two_nodes = true
  /\ resolvePath sample_TypeError_message (JArray two_nodes) "0"
     = Ok (DataNode "1" "a" "text" (JString "first"))
  /\ resolvePath sample_TypeError_message
       (JArray [DataNode "7" "x" "number" (JNumber 5)]) "x"
     = Ok (DataNode "7" "x" "number" (JNumber 5)).
Proof.
  split; [reflexivity|]. split.
  - exact (proj1 (resolve_by_name_then_parseInt sample_TypeError_message
                    two_nodes "0" eq_refl)).
  - exact (proj1 (resolve_by_name_then_parseInt sample_TypeError_message
                    [DataNode "7" "x" "number" (JNumber 5)] "x" eq_refl)).
Defined.

(** C7 as stated fails: no child is named ["0x1"], and ["0x1"] is no decimal
    index, so the segment matches neither way and the claim gives not-found;
    [resolvePath] returns the second node, [parseInt("0x1")] being 1. *)
Lemma resolve_reads_hexadecimal_index :
  first_named "0x1" two_nodes = None
  /\ decimal_index "0x1" = None
  /\ walk decimal_index (split_dot "0x1") two_nodes = None
  /\ resolvePath sample_TypeError_message (JArray two_nodes) "0x1"
     = Ok (DataNode "2" "b" "text" (JString "second"))
  /\ resolvePath sample_TypeError_message (JArray two_nodes) "0x1"
     <> Ok (or_undefined (walk decimal_index (split_dot "0x1") two_nodes)).
Proof. repeat split; try reflexivity. discriminate. Qed.

Lemma deepSet_blocked_is_noop_witness :
  is_tree default_tree = true
  /\ blocked (path_key "config.theme.shade") (path_rest "config.theme.shade")
       default_tree = true
  /\ setDeepValue sample_nth_id sample_TypeError_message (JArray default_tree)
       "config.theme.shade" (JString "deep") "text" 0
     = Ok (JArray default_tree, 0).
Proof.
  split; [reflexivity|]. split; [reflexivity|].
  apply (deepSet_blocked_is_noop sample_nth_id sample_TypeError_message);
    reflexivity.
Defined.



Lemma deepSet_overwrites_container_witness :
  is_tree default_tree = true
  /\ locate (path_key "config") (path_rest "config") default_tree
     = Some (DataNode "2" "config" "dictionary"
               (JArray [DataNode "2a" "theme" "text" (JString "dark");
                        DataNode "2b" "fontSize" "number" (JNumber 14)]))
  /\ is_container_type "dictionary" = true
  /\ exists nodes',
       setDeepValue sample_nth_id sample_TypeError_message (JArray default_tree)
         "config" (JString "gone") "text" 0 = Ok (JArray nodes', 0)
       /\ locate (path_key "config") (path_rest "config") nodes'
          = Some (DataNode "2" "config" "text" (JString "gone"))
       /\ length nodes' = length default_tree
       /\ (path_rest "config" = [] ->
           forall i, index_named (path_key "config") default_tree = Some i ->
                     nodes' = replace_at i (DataNode "2" "config" "text" (JString "gone"))
                                default_tree).
Proof.
  split; [reflexivity|]. split; [reflexivity|]. split; [reflexivity|].
  exact (deepSet_overwrites_container sample_nth_id sample_TypeError_message
           default_tree "config" "2" "config" "dictionary" _ (JString "gone") "text" 0
           eq_refl eq_refl eq_refl).
Defined.

(** Why the round trip leaves out arrays inside arrays: the inner array is
    stored raw under the kind [dictionary], and the export reads its
    elements as if they were nodes. *)
Lemma nested_array_does_not_round_trip :
  json_class (JObject [("a", JArray [JArray [JNumber 1]])]) = false
  /\ exists nodes s' out,
       parseImport sample_nth_id sample_TypeError_message
         (JObject [("a", JArray [JArray [JNumber 1]])]) 0
       = Ok (JArray nodes, s')
       /\ exportData sample_number_to_string sample_TypeError_message (JArray nodes)
          = Ok out
       /\ built_value out
          = JObject [("a", JArray [JObject [("undefined", JUndefined)]])].
Proof.
  split; [reflexivity|]. eexists _, _, _.
  split; [reflexivity|]. split; reflexivity.
Qed.

(** * The further properties at concrete inputs *)

Lemma formula_without_reference_is_text_witness :
  ref_tokens "Hello World" = []
  /\ evaluateExpression sample_number_to_string sample_isNaN_Number
       sample_run_function sample_TypeError_message "Hello World"
       (JArray default_tree)
     = mkEvalResult (JString "Hello World") None.
Proof.
  split; [reflexivity|].
  apply (formula_without_reference_is_text sample_number_to_string
           sample_isNaN_Number sample_run_function sample_TypeError_message).
  reflexivity.
Defined.

Lemma reference_to_expression_is_not_evaluated_witness :
  resolvePath sample_TypeError_message (JArray default_tree) "total_cost"
  = Ok (DataNode "5" "total_cost" "expression"
          (JString "{{price}} * (1 + {{tax_rate}})"))
  /\ evaluateExpression sample_number_to_string sample_isNaN_Number
       sample_run_function sample_TypeError_message "{{total_cost}}"
       (JArray default_tree)
     = mkEvalResult (JString "{{price}} * (1 + {{tax_rate}})") None.
Proof.
  split; [reflexivity|].
  apply (reference_to_expression_is_not_evaluated sample_number_to_string
           sample_isNaN_Number sample_run_function sample_TypeError_message
           (JArray default_tree) "total_cost" "5" "total_cost"
           "{{price}} * (1 + {{tax_rate}})").
  - discriminate.
  - reflexivity.
  - reflexivity.
  - discriminate.
Defined.

Lemma deepSet_keeps_tree_witness :
  is_tree default_tree = true
  /\ fits "text" (JString "light") = true
  /\ exists r s',
       setDeepValue sample_nth_id sample_TypeError_message (JArray default_tree)
         "config.theme" (JString "light") "text" 0 = Ok (JArray r, s')
       /\ is_tree r = true.
Proof.
  split; [reflexivity|]. split; [reflexivity|].
  apply (deepSet_keeps_tree sample_nth_id sample_TypeError_message); reflexivity.
Defined.

Lemma resolve_after_deepSet_witness :
  is_tree default_tree = true
  /\ blocked (path_key "config.sizes.small") (path_rest "config.sizes.small")
       default_tree = false
  /\ exists r s' id,
       setDeepValue sample_nth_id sample_TypeError_message (JArray default_tree)
         "config.sizes.small" (JNumber 8) "number" 0 = Ok (JArray r, s')
       /\ resolvePath sample_TypeError_message (JArray r) "config.sizes.small"
          = Ok (DataNode id "small" "number" (JNumber 8)).
Proof.
  split; [reflexivity|]. split; [reflexivity|].
  apply (resolve_after_deepSet sample_nth_id sample_TypeError_message default_tree
           "config.sizes.small" (JNumber 8) "number" 0); reflexivity.
Defined.

Lemma deepSet_keeps_siblings_witness :
  setDeepValue sample_nth_id sample_TypeError_message (JArray two_nodes)
    "c" (JString "third") "text" 0
  = Ok (JArray (two_nodes ++ [DataNode "id0" "c" "text" (JString "third")]), 1%nat)
  /\ forall i n, nth_error two_nodes i = Some n ->
                 index_named (path_key "c") two_nodes <> Some i ->
                 nth_error (two_nodes ++ [DataNode "id0" "c" "text" (JString "third")])
                   i = Some n.
Proof.
  split; [reflexivity|].
  apply (deepSet_keeps_siblings sample_nth_id sample_TypeError_message two_nodes
           "c" (JString "third") "text" 0 1); reflexivity.
Defined.

Lemma checkUrl_keeps_tree_witness :
  is_tree default_tree = true
  /\ exists r s',
       checkUrl sample_nth_id sample_TypeError_message sample_parseFloat
         (Some "price") (Some "7") (Some "number") (JArray default_tree) 0
       = Ok (JArray r, s')
       /\ is_tree r = true
       /\ (Some "price" = None \/ Some "price" = Some "" ->
           r = default_tree /\ s' = 0%nat).
Proof.
  split; [reflexivity|].
  apply (checkUrl_keeps_tree sample_nth_id sample_TypeError_message
           sample_parseFloat). reflexivity.
Defined.

Lemma import_of_plain_json_is_tree_witness :
  exists nodes s',
    parseImport sample_nth_id sample_TypeError_message
      (JObject [("title", JString "jar");
                ("nested", JObject [("on", JBool true);
                                    ("tags", JArray [JString "x"; JString "y"])])])
      0
    = Ok (JArray nodes, s')
    /\ is_tree nodes = true.
Proof.
  apply (import_of_plain_json_is_tree sample_nth_id sample_TypeError_message).
  reflexivity.
Defined.

Lemma object_in_imported_array_is_opaque_witness :
  exists nodes s',
    parseImport sample_nth_id sample_TypeError_message
      (JObject [("rows", JArray [JObject [("k", JNumber 1)]; JNumber 2])]) 0
    = Ok (JArray nodes, s')
    /\ resolvePath sample_TypeError_message (JArray nodes) ("rows" ++ ".0." ++ "k")
       = Ok JUndefined
    /\ forall s2,
         setDeepValue sample_nth_id sample_TypeError_message (JArray nodes)
           ("rows" ++ ".0." ++ "k") (JNumber 5) "number" s2
         = Throw sample_TypeError_message.
Proof.
  apply (object_in_imported_array_is_opaque sample_nth_id sample_TypeError_message
           "rows" "k" [("k", JNumber 1)] [JNumber 2] (JNumber 5) "number" 0);
    reflexivity.
Defined.

Lemma export_keys_are_names_witness :
  is_tree default_tree = true
  /\ exists out,
       exportData sample_number_to_string sample_TypeError_message
         (JArray default_tree) = Ok out
       /\ unique (keys (own out)) = true
       /\ (forall k, In k (keys (own out)) ->
                     exists n, In n default_tree /\ name_of n = Some k)
       /\ (forall k n, k <> "__proto__" -> In n default_tree ->
                       name_of n = Some k -> In k (keys (own out))).
Proof.
  split; [reflexivity|].
  apply (export_keys_are_names sample_number_to_string sample_TypeError_message).
  reflexivity.
Defined.

Lemma expression_comes_back_as_text_witness :
  is_tree default_tree = true
  /\ exists out nodes' s' id',
       exportData sample_number_to_string sample_TypeError_message
         (JArray default_tree) = Ok out
       /\ parseImport sample_nth_id sample_TypeError_message (built_value out) 0
          = Ok (JArray nodes', s')
       /\ first_named "total_cost" nodes'
          = Some (DataNode id' "total_cost" "text"
                    (JString "{{price}} * (1 + {{tax_rate}})")).
Proof.
  split; [reflexivity|].
  apply (expression_comes_back_as_text sample_number_to_string sample_nth_id
           sample_TypeError_message default_tree "5");
    [reflexivity|discriminate|reflexivity].
Defined.

Lemma update_shows_at_current_level_witness :
  level_of (map step_id config_path) default_tree = Some config_level
  /\ currentLevelNodes sample_TypeError_message (JArray default_tree) config_path
     = Ok (JArray config_level)
  /\ exists r,
       updateDataTree sample_TypeError_message
         (remove_id sample_TypeError_message "2a") config_path (JArray default_tree)
       = Ok (JArray r)
       /\ currentLevelNodes sample_TypeError_message (JArray r) config_path
          = Ok (JArray [DataNode "2b" "fontSize" "number" (JNumber 14)])
       /\ ([DataNode "2b" "fontSize" "number" (JNumber 14)] = config_level ->
           r = default_tree).
Proof.
  split; [reflexivity|].
  apply (update_shows_at_current_level sample_TypeError_message
           (remove_id sample_TypeError_message "2a") config_path default_tree
           config_level); reflexivity.
Defined.

Lemma delete_removes_only_that_id_witness :
  single_ids (map step_id config_path) default_tree = true
  /\ exists r,
       handleDelete sample_TypeError_message "2a" true config_path
         (JArray default_tree) = Ok (JArray r)
       /\ is_tree r = true
       /\ currentLevelNodes sample_TypeError_message (JArray r) config_path
          = Ok (JArray (filter (fun n => negb (has_id "2a" n)) config_level))
       /\ (forallb (fun n => negb (has_id "2a" n)) config_level = true ->
           r = default_tree).
Proof.
  split; [reflexivity|].
  apply (delete_removes_only_that_id sample_TypeError_message "2a" config_path
           default_tree config_level); reflexivity.
Defined.

Lemma update_value_keeps_the_rest_witness :
  level_of (map step_id config_path) default_tree = Some config_level
  /\ exists r level',
       handleUpdateValue sample_TypeError_message "2a" (JString "light")
         config_path (JArray default_tree) = Ok (JArray r)
       /\ currentLevelNodes sample_TypeError_message (JArray r) config_path
          = Ok (JArray level')
       /\ length level' = length config_level
       /\ (forall k i name type value,
              nth_error config_level k = Some (DataNode i name type value) ->
              nth_error level' k
              = Some (DataNode i name type
                        (if String.eqb i "2a" then JString "light" else value)))
       /\ (forallb (fun n => negb (has_id "2a" n)) config_level = true ->
           r = default_tree).
Proof.
  split; [reflexivity|].
  apply (update_value_keeps_the_rest sample_TypeError_message "2a"
           (JString "light") config_path default_tree config_level); reflexivity.
Defined.

Lemma stale_path_edits_nothing_witness :
  find (has_id "9") config_level = None
  /\ currentLevelNodes sample_TypeError_message (JArray default_tree)
       (config_path ++ [mkPathStep "9" "gone" "dictionary"]) = Ok (JArray [])
  /\ updateDataTree sample_TypeError_message
       (append_node sample_TypeError_message
          (DataNode "n" "lost" "text" (JString "x")))
       (config_path ++ [mkPathStep "9" "gone" "dictionary"]) (JArray default_tree)
     = Ok (JArray default_tree).
Proof.
  split; [reflexivity|].
  apply (stale_path_edits_nothing sample_TypeError_message
           (append_node sample_TypeError_message
              (DataNode "n" "lost" "text" (JString "x")))
           config_path [] (mkPathStep "9" "gone" "dictionary") default_tree
           config_level); reflexivity.
Defined.

Lemma add_appends_at_current_level_witness :
  is_blank "size" && negb (in_list config_path) = false
  /\ exists r,
       handleAdd sample_number_to_string sample_nth_id sample_TypeError_message
         "size" "number" (JString "12") config_path (JArray default_tree) 0
       = Ok (JArray r, 1%nat)
       /\ currentLevelNodes sample_TypeError_message (JArray r) config_path
          = Ok (JArray
                  (config_level ++
                   [DataNode (sample_nth_id 0)
                      (if in_list config_path
                       then string_of_index (length config_level) else "size")
                      "number"
                      (if is_container_type "number" then JArray []
                       else JString "12")]))
       /\ (is_primitive (JString "12") = true -> is_tree r = true).
Proof.
  split; [reflexivity|].
  apply (add_appends_at_current_level sample_number_to_string sample_nth_id
           sample_TypeError_message "size" "number" (JString "12") config_path
           default_tree config_level 0); reflexivity.
Defined.

Lemma added_duplicate_name_is_shadowed_witness :
  first_named "price" default_tree = Some (DataNode "3" "price" "number" (JNumber 100))
  /\ exists r out,
       handleAdd sample_number_to_string sample_nth_id sample_TypeError_message
         "price" "text" (JString "free") [] (JArray default_tree) 0
       = Ok (JArray r, 1%nat)
       /\ r = (default_tree
               ++ [DataNode (sample_nth_id 0) "price" "text" (JString "free")])%list
       /\ resolvePath sample_TypeError_message (JArray r) "price"
          = Ok (DataNode "3" "price" "number" (JNumber 100))
       /\ exportData sample_number_to_string sample_TypeError_message (JArray r)
          = Ok out
       /\ lookup "price" (own out) = Some (JString "free").
Proof.
  split; [reflexivity|].
  apply (added_duplicate_name_is_shadowed sample_number_to_string sample_nth_id
           sample_TypeError_message "price" "text" (JString "free")
           (DataNode "3" "price" "number" (JNumber 100)) default_tree 0);
    try reflexivity.
  discriminate.
Defined.

Lemma list_names_repeat_after_delete_witness :
  level_of (map step_id rows_path) list_tree
  = Some ([DataNode "1a" "0" "number" (JNumber 1);
           DataNode "1b" "1" "number" (JNumber 2)]
          ++ [DataNode "1c" "2" "number" (JNumber 3)])%list
  /\ exists r r' level' new,
       handleDelete sample_TypeError_message "1a" true rows_path (JArray list_tree)
       = Ok (JArray r)
       /\ handleAdd sample_number_to_string sample_nth_id sample_TypeError_message
            "" "number" (JString "4") rows_path (JArray r) 0
          = Ok (JArray r', 1%nat)
       /\ currentLevelNodes sample_TypeError_message (JArray r') rows_path
          = Ok (JArray (level' ++ [DataNode "1c" "2" "number" (JNumber 3); new]))
       /\ name_of new = name_of (DataNode "1c" "2" "number" (JNumber 3)).
Proof.
  split; [reflexivity|].
  apply (list_names_repeat_after_delete sample_number_to_string sample_nth_id
           sample_TypeError_message "1a" "" "number" (JString "4")
           (DataNode "1c" "2" "number" (JNumber 3)) rows_path list_tree
           [DataNode "1a" "0" "number" (JNumber 1);
            DataNode "1b" "1" "number" (JNumber 2)] 0); reflexivity.
Defined.

Lemma url_request_is_readable_witness :
  blocked (path_key "config.theme") (path_rest "config.theme") default_tree = false
  /\ exists r s' id,
       checkUrl sample_nth_id sample_TypeError_message sample_parseFloat
         (Some "config.theme") (Some "light") None (JArray default_tree) 0
       = Ok (JArray r, s')
       /\ resolvePath sample_TypeError_message (JArray r) "config.theme"
          = Ok (DataNode id "theme" "text" (JString "light")).
Proof.
  split; [reflexivity|].
  apply (url_request_is_readable sample_nth_id sample_TypeError_message
           sample_parseFloat "config.theme" (Some "light") None default_tree 0).
  - reflexivity.
  - discriminate.
  - reflexivity.
Defined.

Lemma only_arithmetic_text_is_run_witness :
  sample_run_function "alert(1)" <> picky_run_function "alert(1)"
  /\ substitute sample_number_to_string sample_TypeError_message "{{n}} + 1"
       (JArray [DataNode "1" "n" "number" (JNumber 3)])
     = Ok ("3 + 1", true)
  /\ evaluateExpression sample_number_to_string sample_isNaN_Number
       sample_run_function sample_TypeError_message "{{n}} + 1"
       (JArray [DataNode "1" "n" "number" (JNumber 3)])
     = evaluateExpression sample_number_to_string sample_isNaN_Number
         picky_run_function sample_TypeError_message "{{n}} + 1"
         (JArray [DataNode "1" "n" "number" (JNumber 3)]).
Proof.
  split; [discriminate|]. split; [reflexivity|].
  apply (only_arithmetic_text_is_run sample_number_to_string sample_isNaN_Number
           sample_run_function picky_run_function sample_TypeError_message).
  intros text Htext. unfold picky_run_function.
  rewrite strip_return_return, Htext. reflexivity.
Defined.
